(** * Canberra City FC team-management application

    A shallow embedding of [app.py]: the roster and statistics tables,
    the two "ensure rows" helpers, the season backfill, the sort helpers,
    the bulk counter update, the player rename / delete routes and the
    remote media listing, with the properties the specification states
    about them; then the database address, the login gate, the schedule
    and results views and the media redirect, with further properties
    read off the code.

    Modelling conventions.
    - Python [int] is [Z]; [str] is [string], restricted to ASCII where
      the code case-folds, strips or parses ([str.lower], [str.strip],
      [int(str)]).
    - The limits of the column types are not modelled: an [Integer]
      column holds 32 bits and a [String(n)] column [n] characters, and
      the database refuses a write beyond them.  The model therefore
      answers some submissions that the program fails on, and fails on
      none that the program answers.  The properties of a submission are
      stated of the submission that is answered; that a request is
      answered is stated only where it stores no submitted value (the
      statistics view, the ensured rows, a deletion) or at a concrete
      input.
    - A table is the list of its rows.  An ORM object is identified by
      the primary key of its row (the session's identity map): reading
      an attribute reads the row with that key, assigning one rewrites
      it, so every alias of the object sees the change.
    - A raised exception is [None] in the option monad; an uncaught one
      ends the request and the transaction is rolled back.
    - The integrity constraints declared on the models are checked when
      the unit of work is written: at [flush], at [commit], and before a
      query runs while changes are pending (the session keeps the
      default [autoflush]).
    - The routes for login, schedule and results read the roster at most
      and write none of the three tables; they are not part of the first
      transition system below ([route]) and join it in the second
      ([serve]).  The gallery page and the upload and delete of gallery
      files, which work on the file system, are not modelled. *)

From Stdlib Require Import ZArith Ascii String List Bool Lia Permutation Sorted.
From stdpp Require Import base option list strings gmap pretty.

Local Open Scope string_scope.
Local Open Scope Z_scope.
Local Open Scope list_scope.

(** ** Python primitives used by the application *)

Module Py.

(** [str.lower] on ASCII text. *)
Definition lower_char (c : ascii) : ascii :=
  let n := nat_of_ascii c in
  if (65 <=? n)%nat && (n <=? 90)%nat then ascii_of_nat (n + 32) else c.

Fixpoint lower (s : string) : string :=
  match s with
  | EmptyString => EmptyString
  | String c s' => String (lower_char c) (lower s')
  end.

(** [str < str]: lexicographic on code points. *)
Definition str_lt (a b : string) : bool := String.ltb a b.

(** Characters that [str.strip()] removes from an ASCII string: the ones
    [str.isspace] holds of. *)
Definition is_space (c : ascii) : bool :=
  let n := nat_of_ascii c in
  ((9 <=? n)%nat && (n <=? 13)%nat) || ((28 <=? n)%nat && (n <=? 32)%nat).

(** Characters that [int()] skips before and after the number in an
    ASCII string: tab, line feed, vertical tab, form feed, carriage
    return and space.  The separators 28 to 31 are white space for
    [str.strip()] and not for [int()]. *)
Definition is_int_space (c : ascii) : bool :=
  let n := nat_of_ascii c in
  ((9 <=? n)%nat && (n <=? 13)%nat) || (n =? 32)%nat.

Definition digit_val (c : ascii) : option Z :=
  let n := nat_of_ascii c in
  if (48 <=? n)%nat && (n <=? 57)%nat then Some (Z.of_nat (n - 48)) else None.

Definition is_digit (c : ascii) : bool :=
  match digit_val c with Some _ => true | None => false end.

Fixpoint lstrip (space : ascii -> bool) (l : list ascii) : list ascii :=
  match l with
  | c :: l' => if space c then lstrip space l' else l
  | [] => []
  end.

Definition strip (space : ascii -> bool) (l : list ascii) : list ascii :=
  rev (lstrip space (rev (lstrip space l))).

(** Decimal digits; a single underscore may separate two digits. *)
Fixpoint parse_digits (acc : Z) (after_digit : bool) (l : list ascii)
  : option Z :=
  match l with
  | [] => if after_digit then Some acc else None
  | c :: l' =>
      if Ascii.eqb c "_"%char then
        if after_digit then parse_digits acc false l' else None
      else
        match digit_val c with
        | Some d => parse_digits (10 * acc + d) true l'
        | None => None
        end
  end.

(** [sys.int_info.default_max_str_digits]: the longest run of decimal
    digits [int()] converts. *)
Definition max_str_digits : Z := 4300.

(** [int(s)] for a string [s]; [None] is [ValueError].  A string with
    more than [max_str_digits] digits is refused whatever its value. *)
Definition int_of_str (s : string) : option Z :=
  let l := strip is_int_space (list_ascii_of_string s) in
  if max_str_digits <? Z.of_nat (length (List.filter is_digit l)) then None
  else
    match l with
    | c :: l =>
        if Ascii.eqb c "-"%char then Z.opp <$> parse_digits 0 false l
        else if Ascii.eqb c "+"%char then parse_digits 0 false l
        else parse_digits 0 false (c :: l)
    | [] => None
    end.

(** [sorted(l, key=key, reverse=reverse)].  The sort is stable and only
    uses [<] on keys; with [reverse] the list is reversed, sorted and
    reversed again, so equal keys keep their input order. *)
Section Sorted.
Context {A K : Type} (key : A -> K) (lt : K -> K -> bool).

Fixpoint insert_stable (x : A) (l : list A) : list A :=
  match l with
  | [] => [x]
  | y :: l' =>
      if lt (key y) (key x) then y :: insert_stable x l'
      else x :: y :: l'
  end.

Fixpoint sort_stable (l : list A) : list A :=
  match l with
  | [] => []
  | x :: l' => insert_stable x (sort_stable l')
  end.

Definition sorted (reverse : bool) (l : list A) : list A :=
  if reverse then rev (sort_stable (rev l)) else sort_stable l.

(** No element is followed by one with a smaller (larger) key. *)
Definition ascending (a b : A) : Prop := lt (key b) (key a) = false.
Definition descending (a b : A) : Prop := lt (key a) (key b) = false.
End Sorted.

End Py.

(** ** Data model *)

(** A calendar date, as [datetime.date] holds it. *)
Definition date : Type := (Z * Z * Z)%type.

(** [class PlayerInfo(db.Model)] *)
Module PlayerInfo.
Record t := mk {
  id : Z;
  name : string;
  preferred_position : option string;
  shirt_number : option string;
  beer_duty_date : option date;
  support_offered : option string
}.

Definition set_name (v : string) (p : t) : t :=
  mk (id p) v (preferred_position p) (shirt_number p) (beer_duty_date p)
     (support_offered p).

Definition set_details (pos shirt : string) (duty : option date)
    (support : string) (p : t) : t :=
  mk (id p) (name p) (Some pos) (Some shirt) duty (Some support).

(** [PlayerInfo(name=name)] once the database has given it a key. *)
Definition new (key : Z) (nm : string) : t := mk key nm None None None None.
End PlayerInfo.

(** [class PlayerStat(db.Model)]: the aggregate statistics row. *)
Module PlayerStat.
Record t := mk {
  id : Z;
  player : string;
  goals : Z;
  assists : Z;
  player_of_match : Z;
  clean_sheets : Z;
  yellow_cards : Z;
  red_cards : Z
}.

Definition set_player (v : string) (s : t) : t :=
  mk (id s) v (goals s) (assists s) (player_of_match s) (clean_sheets s)
     (yellow_cards s) (red_cards s).
Definition set_goals (v : Z) (s : t) : t :=
  mk (id s) (player s) v (assists s) (player_of_match s) (clean_sheets s)
     (yellow_cards s) (red_cards s).
Definition set_assists (v : Z) (s : t) : t :=
  mk (id s) (player s) (goals s) v (player_of_match s) (clean_sheets s)
     (yellow_cards s) (red_cards s).
Definition set_player_of_match (v : Z) (s : t) : t :=
  mk (id s) (player s) (goals s) (assists s) v (clean_sheets s)
     (yellow_cards s) (red_cards s).
Definition set_yellow_cards (v : Z) (s : t) : t :=
  mk (id s) (player s) (goals s) (assists s) (player_of_match s)
     (clean_sheets s) v (red_cards s).
Definition set_red_cards (v : Z) (s : t) : t :=
  mk (id s) (player s) (goals s) (assists s) (player_of_match s)
     (clean_sheets s) (yellow_cards s) v.

(** [PlayerStat(player=name)] after the insert: the key is assigned and
    every counter takes its column default. *)
Definition new (key : Z) (nm : string) : t := mk key nm 0 0 0 0 0 0.

(** [getattr(stat, field, default)] on the names the sort helper is
    called with: an integer column gives its value, a name that is no
    attribute of the object gives [default].  The statistics view passes
    a name of [allowed_fields] only.  The attributes an ORM object has
    besides its columns ([metadata], [query], [registry], ...) hold
    objects that do not compare; the helper raises on them, and they are
    outside the domain of this function. *)
Definition getattr (s : t) (field : string) (default : Z) : Z :=
  if String.eqb field "id" then id s
  else if String.eqb field "goals" then goals s
  else if String.eqb field "assists" then assists s
  else if String.eqb field "player_of_match" then player_of_match s
  else if String.eqb field "clean_sheets" then clean_sheets s
  else if String.eqb field "yellow_cards" then yellow_cards s
  else if String.eqb field "red_cards" then red_cards s
  else default.
End PlayerStat.

(** [class SeasonStat(db.Model)]: one row per player and season. *)
Module SeasonStat.
Record t := mk {
  id : Z;
  player_id : Z;
  season_year : Z;
  goals : Z;
  assists : Z;
  player_of_match : Z;
  yellow_cards : Z;
  red_cards : Z
}.

Definition set_goals (v : Z) (s : t) : t :=
  mk (id s) (player_id s) (season_year s) v (assists s)
     (player_of_match s) (yellow_cards s) (red_cards s).
Definition set_assists (v : Z) (s : t) : t :=
  mk (id s) (player_id s) (season_year s) (goals s) v
     (player_of_match s) (yellow_cards s) (red_cards s).
Definition set_player_of_match (v : Z) (s : t) : t :=
  mk (id s) (player_id s) (season_year s) (goals s) (assists s) v
     (yellow_cards s) (red_cards s).
Definition set_yellow_cards (v : Z) (s : t) : t :=
  mk (id s) (player_id s) (season_year s) (goals s) (assists s)
     (player_of_match s) v (red_cards s).
Definition set_red_cards (v : Z) (s : t) : t :=
  mk (id s) (player_id s) (season_year s) (goals s) (assists s)
     (player_of_match s) (yellow_cards s) v.

(** [SeasonStat(player_id=.., season_year=..)] after the insert. *)
Definition new (key pid year : Z) : t := mk key pid year 0 0 0 0 0.

(** The unique key of [uq_player_season]. *)
Definition pair (s : t) : Z * Z := (player_id s, season_year s).

(** [getattr(stat, field, default)], on the same domain as
    [PlayerStat.getattr]. *)
Definition getattr (s : t) (field : string) (default : Z) : Z :=
  if String.eqb field "id" then id s
  else if String.eqb field "player_id" then player_id s
  else if String.eqb field "season_year" then season_year s
  else if String.eqb field "goals" then goals s
  else if String.eqb field "assists" then assists s
  else if String.eqb field "player_of_match" then player_of_match s
  else if String.eqb field "yellow_cards" then yellow_cards s
  else if String.eqb field "red_cards" then red_cards s
  else default.
End SeasonStat.

(** The three tables the statistics code reads and writes. *)
Record DB := mkDB {
  player_info : list PlayerInfo.t;
  player_stat : list PlayerStat.t;
  season_stat : list SeasonStat.t
}.

Definition with_player_info (v : list PlayerInfo.t) (db : DB) : DB :=
  mkDB v (player_stat db) (season_stat db).
Definition with_player_stat (v : list PlayerStat.t) (db : DB) : DB :=
  mkDB (player_info db) v (season_stat db).
Definition with_season_stat (v : list SeasonStat.t) (db : DB) : DB :=
  mkDB (player_info db) (player_stat db) v.

(** *** Integrity constraints declared on the models *)

Record consistent (db : DB) : Prop := mk_consistent {
  (** primary keys *)
  pk_player_info : NoDup (PlayerInfo.id <$> player_info db);
  pk_player_stat : NoDup (PlayerStat.id <$> player_stat db);
  pk_season_stat : NoDup (SeasonStat.id <$> season_stat db);
  (** [PlayerInfo.name]: [unique=True] *)
  uq_player_name : NoDup (PlayerInfo.name <$> player_info db);
  (** [PlayerStat.player]: [unique=True] *)
  uq_stat_player : NoDup (PlayerStat.player <$> player_stat db);
  (** [UniqueConstraint('player_id', 'season_year')] *)
  uq_player_season : NoDup (SeasonStat.pair <$> season_stat db);
  (** [db.ForeignKey('player_info.id')] *)
  fk_season_player :
    Forall (fun s => SeasonStat.player_id s ∈ (PlayerInfo.id <$> player_info db))
           (season_stat db)
}.

#[global] Instance consistent_dec (db : DB) : Decision (consistent db).
Proof.
  refine (cast_if (decide
    (NoDup (PlayerInfo.id <$> player_info db) /\
     NoDup (PlayerStat.id <$> player_stat db) /\
     NoDup (SeasonStat.id <$> season_stat db) /\
     NoDup (PlayerInfo.name <$> player_info db) /\
     NoDup (PlayerStat.player <$> player_stat db) /\
     NoDup (SeasonStat.pair <$> season_stat db) /\
     Forall (fun s => SeasonStat.player_id s ∈ (PlayerInfo.id <$> player_info db))
            (season_stat db))));
    [ destruct a as (?&?&?&?&?&?&?); by constructor
    | intros []; apply n; repeat split; assumption ].
Defined.

(** Writing the unit of work: the database rejects a state that breaks a
    declared key, uniqueness or foreign-key constraint ([IntegrityError]).
    Query execution flushes first (the session keeps SQLAlchemy's default
    [autoflush]).  The range of an [Integer] column and the length of a
    [String(n)] column are not checked here: a write the database refuses
    for its size ([DataError]) goes through in the model. *)
Definition flush (db : DB) : option DB :=
  if decide (consistent db) then Some db else None.

(** The key a sequence hands to an inserted row. *)
Definition fresh_id (keys : list Z) : Z := 1 + foldr Z.max 0 keys.

(** ** Insertion-ordered dictionaries ([dict]) *)

Module Dict.
Section Dict.
Context {K V : Type} `{EqDecision K}.

Fixpoint get (k : K) (d : list (K * V)) : option V :=
  match d with
  | [] => None
  | (k', v) :: d' => if decide (k = k') then Some v else get k d'
  end.

(** [d[k] = v]: an existing key keeps its position. *)
Fixpoint set (k : K) (v : V) (d : list (K * V)) : list (K * V) :=
  match d with
  | [] => [(k, v)]
  | (k', v') :: d' =>
      if decide (k = k') then (k, v) :: d' else (k', v') :: set k v d'
  end.

Definition values (d : list (K * V)) : list V := snd <$> d.
Definition keys (d : list (K * V)) : list K := fst <$> d.
End Dict.
End Dict.

(** ** Stat presenter: the two sort helpers *)

(** [_sort_player_stats(stats, field, descending)] *)
Definition _sort_player_stats (stats : list PlayerStat.t) (field : string)
    (descending : bool) : list PlayerStat.t :=
  if String.eqb field "player" then
    Py.sorted (fun stat => Py.lower (PlayerStat.player stat)) Py.str_lt
              descending stats
  else
    Py.sorted (fun stat => PlayerStat.getattr stat field 0) Z.ltb
              descending stats.

(** The relationship [SeasonStat.player]: the [PlayerInfo] row the foreign
    key designates, [None] when there is none. *)
Definition season_player (players : list PlayerInfo.t) (stat : SeasonStat.t)
  : option PlayerInfo.t :=
  List.find (fun p => bool_decide (PlayerInfo.id p = SeasonStat.player_id stat))
            players.

(** [_sort_season_stats(stats, field, descending)]; [players] resolves
    [stat.player]. *)
Definition _sort_season_stats (players : list PlayerInfo.t)
    (stats : list SeasonStat.t) (field : string) (descending : bool)
  : list SeasonStat.t :=
  if String.eqb field "player" then
    Py.sorted (fun stat => match season_player players stat with
                           | Some p => Py.lower (PlayerInfo.name p)
                           | None => ""
                           end)
              Py.str_lt descending stats
  else
    Py.sorted (fun stat => SeasonStat.getattr stat field 0) Z.ltb
              descending stats.

(** Request parameters: [request.args] and [request.form]. *)
Abbreviation params := (gmap string string).

(** [params.get(key, default)] with a string default. *)
Definition get_str (p : params) (key default : string) : string :=
  match p !! key with Some v => v | None => default end.

Definition allowed_fields : list string :=
  ["player"; "goals"; "assists"; "player_of_match"; "yellow_cards"; "red_cards"].
Definition season_allowed_fields : list string :=
  ["player"; "goals"; "assists"; "player_of_match"; "yellow_cards"; "red_cards"].

(** "Sorting logic (2025 table)" of [stats]: validate the field, then sort. *)
Definition sort_2025 (args : params) (player_stats : list PlayerStat.t)
  : list PlayerStat.t :=
  let sort_field := get_str args "sort" "player" in
  let sort_field :=
    if bool_decide (sort_field ∈ allowed_fields) then sort_field else "player" in
  let current_order := get_str args "order" "asc" in
  _sort_player_stats player_stats sort_field (String.eqb current_order "desc").

(** "Sorting logic (2026 table)" of [stats]. *)
Definition sort_2026 (args : params) (players : list PlayerInfo.t)
    (season_stats_2026 : list SeasonStat.t) : list SeasonStat.t :=
  let season_sort_field := get_str args "season_sort" "player" in
  let season_sort_field :=
    if bool_decide (season_sort_field ∈ season_allowed_fields)
    then season_sort_field else "player" in
  let season_current_order := get_str args "season_order" "asc" in
  _sort_season_stats players season_stats_2026 season_sort_field
                     (String.eqb season_current_order "desc").

(** ** Objects of the session *)

(** The object with primary key [k], if the table has one. *)
Definition lookup_id {A : Type} (key : A -> Z) (k : Z) (table : list A)
  : option A :=
  List.find (fun r => bool_decide (key r = k)) table.

(** Attribute assignment on the object with primary key [k]. *)
Definition update_id {A : Type} (key : A -> Z) (k : Z) (f : A -> A)
    (table : list A) : list A :=
  (fun r => if decide (key r = k) then f r else r) <$> table.

(** [session.delete(obj)] / [DELETE ... WHERE id = k]. *)
Definition delete_id {A : Type} (key : A -> Z) (k : Z) (table : list A)
  : list A :=
  filter (fun r => key r <> k) table.

(** The current state of a list of objects. *)
Fixpoint deref {A : Type} (key : A -> Z) (refs : list Z) (table : list A)
  : option (list A) :=
  match refs with
  | [] => Some []
  | k :: rest =>
      r ← lookup_id key k table;
      rs ← deref key rest table;
      Some (r :: rs)
  end.

(** [PlayerInfo.query.order_by(PlayerInfo.name).all()], the collation
    taken to be code-point order. *)
Definition players_by_name (db : DB) : list PlayerInfo.t :=
  Py.sorted PlayerInfo.name Py.str_lt false (player_info db).

(** ** Stat reconciler *)

(** [{key(stat): stat for stat in rows}], and the loop
    [for stat in rows: d[key(stat)] = stat]. *)
Fixpoint index_rows {A K : Type} `{EqDecision K} (key : A -> K) (ref : A -> Z)
    (rows : list A) (d : list (K * Z)) : list (K * Z) :=
  match rows with
  | [] => d
  | stat :: rest => index_rows key ref rest (Dict.set (key stat) (ref stat) d)
  end.

(** The rows an insert of [names] adds to a table whose keys are [keys]. *)
Fixpoint new_player_stats (keys : list Z) (names : list string)
  : list PlayerStat.t :=
  match names with
  | [] => []
  | nm :: rest =>
      let k := fresh_id keys in
      PlayerStat.new k nm :: new_player_stats (k :: keys) rest
  end.

(** [_ensure_player_stat_rows(players)] *)
Definition _ensure_player_stat_rows (players : list PlayerInfo.t) (db : DB)
  : option (DB * list (string * Z) * bool) :=
  let existing_stats := player_stat db in
  let stats_by_name :=
    index_rows PlayerStat.player PlayerStat.id existing_stats [] in
  let missing_names :=
    filter (fun nm => Dict.get nm stats_by_name = None)
           (PlayerInfo.name <$> players) in
  let missing_stats :=
    new_player_stats (PlayerStat.id <$> existing_stats) missing_names in
  let created := negb (bool_decide (missing_stats = [])) in
  if created then
    db ← flush (with_player_stat (existing_stats ++ missing_stats) db);
    Some (db,
          index_rows PlayerStat.player PlayerStat.id missing_stats stats_by_name,
          created)
  else Some (db, stats_by_name, created).

(** The loop of [_ensure_season_stat_rows] over the players: a player
    without a row gets a new object, entered in the dictionary at once. *)
Fixpoint season_missing (season_year : Z) (players : list PlayerInfo.t)
    (keys : list Z) (d : list (Z * Z)) (missing : list SeasonStat.t)
  : list (Z * Z) * list SeasonStat.t :=
  match players with
  | [] => (d, missing)
  | player :: rest =>
      match Dict.get (PlayerInfo.id player) d with
      | Some _ => season_missing season_year rest keys d missing
      | None =>
          let k := fresh_id keys in
          let stat := SeasonStat.new k (PlayerInfo.id player) season_year in
          season_missing season_year rest (k :: keys)
                         (Dict.set (PlayerInfo.id player) k d)
                         (missing ++ [stat])
      end
  end.

(** [_ensure_season_stat_rows(players, season_year)] *)
Definition _ensure_season_stat_rows (players : list PlayerInfo.t)
    (season_year : Z) (db : DB) : option (DB * list (Z * Z) * bool) :=
  if bool_decide (players = []) then Some (db, [], false)
  else
    let player_ids := PlayerInfo.id <$> players in
    let existing_stats :=
      filter (fun stat => SeasonStat.season_year stat = season_year /\
                          SeasonStat.player_id stat ∈ player_ids)
             (season_stat db) in
    let stats_by_player_id :=
      index_rows SeasonStat.player_id SeasonStat.id existing_stats [] in
    let '(stats_by_player_id, missing_stats) :=
      season_missing season_year players (SeasonStat.id <$> season_stat db)
                     stats_by_player_id [] in
    let created := negb (bool_decide (missing_stats = [])) in
    if created then
      db ← flush (with_season_stat (season_stat db ++ missing_stats) db);
      Some (db, stats_by_player_id, created)
    else Some (db, stats_by_player_id, created).

(** The five assignments that copy the aggregate counters. *)
Definition copy_counters (base : PlayerStat.t) (s : SeasonStat.t) : SeasonStat.t :=
  SeasonStat.set_red_cards (PlayerStat.red_cards base)
    (SeasonStat.set_yellow_cards (PlayerStat.yellow_cards base)
      (SeasonStat.set_player_of_match (PlayerStat.player_of_match base)
        (SeasonStat.set_assists (PlayerStat.assists base)
          (SeasonStat.set_goals (PlayerStat.goals base) s)))).

(** The backfill loop of [stats]:
    [for season_stat in season_stats_2026: ...]. *)
Fixpoint backfill (player_stats_by_name : list (string * Z))
    (season_stats_2026 : list Z) (db : DB) : option DB :=
  match season_stats_2026 with
  | [] => Some db
  | k :: rest =>
      stat ← lookup_id SeasonStat.id k (season_stat db);
      player ← season_player (player_info db) stat;
      match Dict.get (PlayerInfo.name player) player_stats_by_name with
      | Some b =>
          base_2025 ← lookup_id PlayerStat.id b (player_stat db);
          backfill player_stats_by_name rest
            (with_season_stat
               (update_id SeasonStat.id k (copy_counters base_2025)
                          (season_stat db)) db)
      | None => backfill player_stats_by_name rest db
      end
  end.

(** ** Bulk counter update *)

(** [int(request.form.get(key, 0))]: an absent parameter is the integer
    [0]; a present one is parsed, [None] being [ValueError]. *)
Definition form_int (form : params) (key : string) : option Z :=
  match form !! key with
  | Some v => Py.int_of_str v
  | None => Some 0
  end.

(** The body of the [try]: one assignment
    [stat.<name> = int(request.form.get(f"<name>_{suffix}", 0))] per
    counter, in order; [ValueError] leaves the block ([except: pass]). *)
Fixpoint assign_counters {A : Type} (form : params) (suffix : string)
    (fields : list (string * (Z -> A -> A))) (stat : A) : A :=
  match fields with
  | [] => stat
  | (name, setter) :: rest =>
      match form_int form (name +:+ "_" +:+ suffix) with
      | Some v => assign_counters form suffix rest (setter v stat)
      | None => stat
      end
  end.

Definition player_stat_counters : list (string * (Z -> PlayerStat.t -> PlayerStat.t)) :=
  [("goals", PlayerStat.set_goals);
   ("assists", PlayerStat.set_assists);
   ("player_of_match", PlayerStat.set_player_of_match);
   ("yellow_cards", PlayerStat.set_yellow_cards);
   ("red_cards", PlayerStat.set_red_cards)].

Definition season_stat_counters : list (string * (Z -> SeasonStat.t -> SeasonStat.t)) :=
  [("goals", SeasonStat.set_goals);
   ("assists", SeasonStat.set_assists);
   ("player_of_match", SeasonStat.set_player_of_match);
   ("yellow_cards", SeasonStat.set_yellow_cards);
   ("red_cards", SeasonStat.set_red_cards)].

(** [for stat in player_stats: try: ... except ValueError: pass] *)
Fixpoint update_2025 (form : params) (player_stats : list PlayerStat.t)
    (table : list PlayerStat.t) : list PlayerStat.t :=
  match player_stats with
  | [] => table
  | stat :: rest =>
      update_2025 form rest
        (update_id PlayerStat.id (PlayerStat.id stat)
           (assign_counters form (pretty (PlayerStat.id stat))
                            player_stat_counters)
           table)
  end.

(** [for player in all_players: stat = season_stats_by_player_id.get(player.id); try: ...].
    With no row for the player, the first assignment whose value parses
    raises [AttributeError], which the [except] does not catch. *)
Fixpoint update_2026 (form : params) (all_players : list PlayerInfo.t)
    (season_stats_by_player_id : list (Z * Z)) (table : list SeasonStat.t)
  : option (list SeasonStat.t) :=
  match all_players with
  | [] => Some table
  | player :: rest =>
      let suffix := pretty (PlayerInfo.id player) in
      match Dict.get (PlayerInfo.id player) season_stats_by_player_id with
      | Some k =>
          update_2026 form rest season_stats_by_player_id
            (update_id SeasonStat.id k
               (assign_counters form suffix season_stat_counters) table)
      | None =>
          match form_int form ("goals" +:+ "_" +:+ suffix) with
          | Some _ => None
          | None => update_2026 form rest season_stats_by_player_id table
          end
      end
  end.

(** ** Routes *)

Inductive method := GET | POST.

Record session_t := mk_session { logged_in : bool; guest : bool }.

Inductive response :=
| RedirectLogin
| RedirectPlayers
| RedirectStats (stats_year : string)
| RenderPlayers (players : list PlayerInfo.t)
| RenderStats (player_stats : list PlayerStat.t)
              (season_stats_2026 : list SeasonStat.t)
              (preferred_year : option Z)
| NotFound
| ServerError.

(** [db.session.commit()] *)
Definition commit (db : DB) : option DB := flush db.

(** [int(preferred_year_arg) if preferred_year_arg else None], [None] on
    a parse error. *)
Definition preferred_year_of (args : params) : option Z :=
  match args !! "stats_year" with
  | Some v => if String.eqb v "" then None else Py.int_of_str v
  | None => None
  end.

(** The first part of [stats]: load the roster, ensure both kinds of
    rows, and seed the season rows when some were created. *)
Definition stats_setup (db : DB)
  : option (DB * list PlayerInfo.t * list (string * Z) * list (Z * Z) * bool) :=
  let all_players := players_by_name db in
  '(db, player_stats_by_name, created_player_rows) ←
    _ensure_player_stat_rows all_players db;
  '(db, season_stats_by_player_id, created_season_rows) ←
    _ensure_season_stat_rows all_players 2026 db;
  let db_changed := created_player_rows || created_season_rows in
  let season_stats_2026 := Dict.values season_stats_by_player_id in
  if created_season_rows then
    db ← backfill player_stats_by_name season_stats_2026 db;
    Some (db, all_players, player_stats_by_name, season_stats_by_player_id, true)
  else
    Some (db, all_players, player_stats_by_name, season_stats_by_player_id,
          db_changed).

(** [@app.route('/stats', methods=['GET', 'POST'])] *)
Definition stats (session : session_t) (meth : method) (args form : params)
    (db : DB) : option (DB * response) :=
  if negb (logged_in session || guest session) then Some (db, RedirectLogin)
  else
    '(db, all_players, player_stats_by_name, season_stats_by_player_id,
      db_changed) ← stats_setup db;
    player_stats ←
      deref PlayerStat.id (Dict.values player_stats_by_name) (player_stat db);
    season_stats_2026 ←
      deref SeasonStat.id (Dict.values season_stats_by_player_id)
            (season_stat db);
    let preferred_year := preferred_year_of args in
    let player_stats := sort_2025 args player_stats in
    let season_stats_2026 :=
      sort_2026 args (player_info db) season_stats_2026 in
    match meth with
    | POST =>
        if logged_in session then
          let season_year := get_str form "season_year" "2025" in
          if String.eqb season_year "2026" then
            table ← update_2026 form all_players season_stats_by_player_id
                                (season_stat db);
            db ← commit (with_season_stat table db);
            Some (db, RedirectStats "2026")
          else
            db ← commit (with_player_stat
                           (update_2025 form player_stats (player_stat db)) db);
            Some (db, RedirectStats season_year)
        else
          db ← (if (db_changed : bool) then commit db else Some db);
          Some (db, RenderStats player_stats season_stats_2026 preferred_year)
    | GET =>
        db ← (if (db_changed : bool) then commit db else Some db);
        Some (db, RenderStats player_stats season_stats_2026 preferred_year)
    end.

(** *** Roster routes *)

(** [s.strip()] *)
Definition str_strip (s : string) : string :=
  string_of_list_ascii (Py.strip Py.is_space (list_ascii_of_string s)).

Section Roster.
(** [datetime.datetime.strptime(s, '%Y-%m-%d').date()]; [None] is
    [ValueError]. *)
Variable strptime_date : string -> option date.

(** One iteration of the loop of [players] over
    [PlayerInfo.query.all()].  Each object is assigned to in its own
    iteration only, so it still has the attributes the query returned.
    The [PlayerStat] query runs after the pending changes of the
    earlier iterations are written. *)
Definition players_step (form : params) (player : PlayerInfo.t) (db : DB)
  : option DB :=
  let suffix := pretty (PlayerInfo.id player) in
  let old_name := PlayerInfo.name player in
  let new_name := get_str form ("name_" +:+ suffix) old_name in
  db ← (if decide (new_name = old_name) then Some db
        else
          db ← flush db;
          match List.find
                  (fun s => bool_decide (PlayerStat.player s = old_name))
                  (player_stat db) with
          | Some player_stat_row =>
              Some (with_player_stat
                      (update_id PlayerStat.id (PlayerStat.id player_stat_row)
                                 (PlayerStat.set_player new_name)
                                 (player_stat db)) db)
          | None => Some db
          end);
  let date_str := get_str form ("beer_duty_date_" +:+ suffix) "" in
  let duty := if String.eqb date_str "" then None else strptime_date date_str in
  Some (with_player_info
          (update_id PlayerInfo.id (PlayerInfo.id player)
             (fun p =>
                PlayerInfo.set_details
                  (get_str form ("preferred_position_" +:+ suffix) "")
                  (get_str form ("shirt_" +:+ suffix) "")
                  duty
                  (get_str form ("support_offered_" +:+ suffix) "")
                  (PlayerInfo.set_name new_name p))
             (player_info db)) db).

Fixpoint players_loop (form : params) (objs : list PlayerInfo.t) (db : DB)
  : option DB :=
  match objs with
  | [] => Some db
  | player :: rest =>
      db ← players_step form player db;
      players_loop form rest db
  end.

(** [@app.route('/players', methods=['GET', 'POST'])] *)
Definition players (session : session_t) (meth : method) (form : params)
    (db : DB) : option (DB * response) :=
  if negb (logged_in session || guest session) then Some (db, RedirectLogin)
  else
    match meth with
    | POST =>
        if logged_in session then
          db ← players_loop form (player_info db) db;
          db ← commit db;
          Some (db, RedirectPlayers)
        else Some (db, RenderPlayers (players_by_name db))
    | GET => Some (db, RenderPlayers (players_by_name db))
    end.

(** [@app.route('/players/add', methods=['POST'])] *)
Definition add_player (session : session_t) (form : params) (db : DB)
  : option (DB * response) :=
  if negb (logged_in session) then Some (db, RedirectLogin)
  else
    raw ← form !! "new_player_name";
    let name := str_strip raw in
    if negb (String.eqb name "") &&
       negb (bool_decide (name ∈ (PlayerInfo.name <$> player_info db)))
    then
      db ← commit
             (with_player_info
                (player_info db ++
                 [PlayerInfo.new (fresh_id (PlayerInfo.id <$> player_info db))
                                 name]) db);
      Some (db, RedirectPlayers)
    else Some (db, RedirectPlayers).

(** [@app.route('/players/delete/<int:player_id>')].  The [PlayerStat]
    query writes the pending deletion of the player first; the season
    rows are deleted after it. *)
Definition delete_player (session : session_t) (player_id : Z) (db : DB)
  : option (DB * response) :=
  if negb (logged_in session) then Some (db, RedirectLogin)
  else
    match lookup_id PlayerInfo.id player_id (player_info db) with
    | None => Some (db, NotFound)
    | Some player =>
        let player_name := PlayerInfo.name player in
        let db :=
          with_player_info
            (delete_id PlayerInfo.id (PlayerInfo.id player) (player_info db))
            db in
        db ← flush db;
        let db :=
          match List.find
                  (fun s => bool_decide (PlayerStat.player s = player_name))
                  (player_stat db) with
          | Some player_stat_row =>
              with_player_stat
                (delete_id PlayerStat.id (PlayerStat.id player_stat_row)
                           (player_stat db)) db
          | None => db
          end in
        db ← flush db;
        let db :=
          with_season_stat
            (delete_id SeasonStat.player_id player_id (season_stat db)) db in
        db ← commit db;
        Some (db, RedirectPlayers)
    end.

(** *** The application as a transition system over the three tables *)

Inductive request :=
| ReqStats (session : session_t) (meth : method) (args form : params)
| ReqPlayers (session : session_t) (meth : method) (form : params)
| ReqAddPlayer (session : session_t) (form : params)
| ReqDeletePlayer (session : session_t) (player_id : Z).

Definition route (req : request) (db : DB) : option (DB * response) :=
  match req with
  | ReqStats session meth args form => stats session meth args form db
  | ReqPlayers session meth form => players session meth form db
  | ReqAddPlayer session form => add_player session form db
  | ReqDeletePlayer session player_id => delete_player session player_id db
  end.

(** An uncaught exception is answered with an error page and nothing of
    the request is committed. *)
Definition handle (req : request) (db : DB) : DB * response :=
  match route req db with
  | Some r => r
  | None => (db, ServerError)
  end.
End Roster.

(** ** Remote media listing *)

(** A decoded JSON document.  Of a non-integer number only its being zero
    is looked at (truth value). *)
#[local] Unset Elimination Schemes.
Inductive json :=
| JNull
| JBool (b : bool)
| JInt (z : Z)
| JFloat (is_zero : bool)
| JStr (s : string)
| JList (items : list json)
| JDict (entries : list (string * json)).
#[local] Set Elimination Schemes.

(** Python's truth value of a decoded document. *)
Definition truthy (j : json) : bool :=
  match j with
  | JNull => false
  | JBool b => b
  | JInt z => negb (Z.eqb z 0)
  | JFloat is_zero => negb is_zero
  | JStr s => negb (String.eqb s "")
  | JList items => negb (bool_decide (items = []))
  | JDict entries => negb (bool_decide (entries = []))
  end.

(** [a or b] *)
Definition py_or (a b : json) : json := if truthy a then a else b.

(** [obj.get(key, default)]: only a [dict] has [get]; [None] is
    [AttributeError]. *)
Definition json_get (obj : json) (key : string) (default : json) : option json :=
  match obj with
  | JDict entries =>
      Some (match Dict.get key entries with Some v => v | None => default end)
  | _ => None
  end.

(** The text after the last [sep], if [sep] occurs. *)
Fixpoint after_last (sep : ascii) (s : string) : option string :=
  match s with
  | EmptyString => None
  | String c s' =>
      match after_last sep s' with
      | Some t => Some t
      | None => if Ascii.eqb c sep then Some s' else None
      end
  end.

(** [os.path.basename] on a [str] *)
Definition basename (p : string) : string :=
  match after_last "/"%char p with Some t => t | None => p end.

Definition ALLOWED_MEDIA_EXTENSIONS : list string :=
  ["png"; "jpg"; "jpeg"; "gif"; "webp"; "mp4"; "mov"; "avi"].

(** [allowed_media_file(filename)] *)
Definition allowed_media_file (filename : string) : bool :=
  match after_last "."%char filename with
  | Some ext => bool_decide (Py.lower ext ∈ ALLOWED_MEDIA_EXTENSIONS)
  | None => false
  end.

Module MediaItem.
(** [{"name": name, "url": url, "uploaded_at": uploaded_at}] *)
Record t := mk { name : string; url : json; uploaded_at : json }.
End MediaItem.

(** What [requests.get] followed by [raise_for_status] and [json] can do. *)
Inductive http_outcome :=
| ConnectionFailed
| TimedOut
| Responded (status : Z) (body : option json).

Record blob_config := mk_blob_config {
  (** [os.environ.get('BLOB_READ_TOKEN')] *)
  VERCEL_BLOB_READ_TOKEN : option string;
  (** [os.environ.get('BLOB_PREFIX', 'images')] *)
  BLOB_PREFIX : string;
  (** the [requests] module, [None] when the import failed; the remote
      service answers a listing request for a prefix and a bearer token *)
  app_requests : option (string -> string -> http_outcome)
}.

(** One iteration of [for it in items]: [None] is an exception,
    [Some None] is [continue]. *)
Definition blob_entry (it : json) : option (option MediaItem.t) :=
  url ← json_get it "url" JNull;
  p1 ← json_get it "pathname" JNull;
  p2 ← json_get it "key" JNull;
  let pathname := py_or (py_or p1 p2) (JStr "") in
  name ← (if truthy pathname then
            match pathname with
            | JStr p => Some (basename p)
            | _ => None
            end
          else Some "");
  if String.eqb name "" || negb (allowed_media_file name) then Some None
  else
    u1 ← json_get it "uploadedAt" JNull;
    u2 ← json_get it "createdAt" JNull;
    Some (Some (MediaItem.mk name url (py_or u1 u2))).

Fixpoint blob_entries (items : list json) : option (list MediaItem.t) :=
  match items with
  | [] => Some []
  | it :: rest =>
      e ← blob_entry it;
      rs ← blob_entries rest;
      Some (match e with Some r => r :: rs | None => rs end)
  end.

(** The statements of the [try] after the request: [None] is an
    exception raised by one of them. *)
Definition blobs_of_response (outcome : http_outcome)
  : option (list MediaItem.t) :=
  match outcome with
  | ConnectionFailed | TimedOut => None
  | Responded status body =>
      if (400 <=? status)%Z && (status <? 600)%Z then None
      else
        data ← body;
        b ← json_get data "blobs" (JList []);
        i ← json_get data "items" (JList []);
        let items := py_or (py_or b i) (JList []) in
        match items with
        | JList l => blob_entries l
        | JStr s => if String.eqb s "" then Some [] else None
        | JDict entries => if bool_decide (entries = []) then Some [] else None
        | _ => None
        end
  end.

(** [_list_vercel_blobs_for_year(year)] *)
Definition _list_vercel_blobs_for_year (cfg : blob_config) (year : Z)
  : list MediaItem.t :=
  match VERCEL_BLOB_READ_TOKEN cfg, app_requests cfg with
  | Some token, Some get =>
      if String.eqb token "" then []
      else
        let prefix := BLOB_PREFIX cfg +:+ "/" +:+ pretty year +:+ "/" in
        match blobs_of_response (get prefix token) with
        | Some results => results
        | None => []
        end
  | _, _ => []
  end.

(** ** Database connection string *)

(** [s.startswith(prefix)] *)
Definition startswith (s prefix : string) : bool := String.prefix prefix s.

(** [s[n:]] *)
Fixpoint string_drop (n : nat) (s : string) : string :=
  match n, s with
  | O, _ => s
  | S n', String _ s' => string_drop n' s'
  | S _, EmptyString => EmptyString
  end.

(** [s.replace(old, new, 1)]: the leftmost occurrence of [old] is
    replaced. *)
Fixpoint replace_first (old new s : string) : string :=
  if String.prefix old s then new +:+ string_drop (String.length old) s
  else
    match s with
    | EmptyString => EmptyString
    | String c s' => String c (replace_first old new s')
    end.

(** [_normalize_database_url(raw_url)] *)
Definition _normalize_database_url (raw_url : string) : string :=
  if String.eqb raw_url "" then raw_url
  else if startswith raw_url "prisma+postgres://" then
    replace_first "prisma+postgres://" "postgresql+psycopg://" raw_url
  else if startswith raw_url "postgres://" then
    replace_first "postgres://" "postgresql+psycopg://" raw_url
  else if startswith raw_url "postgresql://" then
    replace_first "postgresql://" "postgresql+psycopg://" raw_url
  else raw_url.

Definition candidate_keys : list string :=
  ["DATABASE_URL"; "POSTGRES_URL"; "POSTGRES_URL_NON_POOLING";
   "POSTGRES_URL_NO_SSL"; "POSTGRES_PRISMA_URL"; "PRISMA_DATABASE_URL"].

(** The loop of [_get_database_uri] over the candidate keys; [environ] is
    [os.environ]. *)
Fixpoint first_database_url (keys : list string) (environ : gmap string string)
  : option string :=
  match keys with
  | [] => None
  | key :: rest =>
      match environ !! key with
      | Some value =>
          if negb (String.eqb value "") then
            let normalized := _normalize_database_url value in
            if negb (String.eqb normalized "") then Some normalized
            else first_database_url rest environ
          else first_database_url rest environ
      | None => first_database_url rest environ
      end
  end.

(** [_get_database_uri()]; [None] is the [RuntimeError] raised when no
    key is configured. *)
Definition _get_database_uri (environ : gmap string string) : option string :=
  first_database_url candidate_keys environ.

(** The legacy schemes that the normalisation rewrites. *)
Definition legacy_schemes : list string :=
  ["prisma+postgres://"; "postgres://"; "postgresql://"].

(** ** Sessions and the login gate *)

(** [ADMIN_USERNAME] and [ADMIN_PASSWORD]: [os.environ.get] gives [None]
    for a variable that is not set. *)
Record admin_config := mk_admin_config {
  ADMIN_USERNAME : option string;
  ADMIN_PASSWORD : option string
}.

(** [session['logged_in'] = True], [session['guest'] = True] and
    [session.clear()]. *)
Definition set_logged_in (s : session_t) : session_t := mk_session true (guest s).
Definition set_guest (s : session_t) : session_t := mk_session (logged_in s) true.
Definition session_clear (s : session_t) : session_t := mk_session false false.

(** The guard at the top of the gated views:
    [session.get('logged_in') or session.get('guest')]. *)
Definition signed_in (s : session_t) : bool := logged_in s || guest s.

(** ** Schedule and results *)

(** [date < date], and the year of a date. *)
Definition date_lt (a b : date) : bool :=
  let '(y1, m1, d1) := a in
  let '(y2, m2, d2) := b in
  (y1 <? y2) || ((y1 =? y2) && ((m1 <? m2) || ((m1 =? m2) && (d1 <? d2)))).

Definition date_year (d : date) : Z := d.1.1.

(** [class Event(db.Model)].  [lineup] and [result] are JSON columns; the
    application only ever stores a mapping from position names to text in
    [lineup]. *)
Module Event.
Record t := mk {
  id : Z;
  date : date;
  time : string;
  field : string;
  opponent : option string;
  type : string;
  lineup : list (string * string);
  result : json
}.

Definition set_date (v : Z * Z * Z) (e : t) : t :=
  mk (id e) v (time e) (field e) (opponent e) (type e) (lineup e) (result e).
Definition set_time (v : string) (e : t) : t :=
  mk (id e) (date e) v (field e) (opponent e) (type e) (lineup e) (result e).
Definition set_field (v : string) (e : t) : t :=
  mk (id e) (date e) (time e) v (opponent e) (type e) (lineup e) (result e).
Definition set_opponent (v : string) (e : t) : t :=
  mk (id e) (date e) (time e) (field e) (Some v) (type e) (lineup e) (result e).
Definition set_lineup (v : list (string * string)) (e : t) : t :=
  mk (id e) (date e) (time e) (field e) (opponent e) (type e) v (result e).
Definition set_result (v : json) (e : t) : t :=
  mk (id e) (date e) (time e) (field e) (opponent e) (type e) (lineup e) v.
End Event.

(** The primary key of [Event]. *)
Definition consistent_events (events : list Event.t) : Prop :=
  NoDup (Event.id <$> events).

(** The positions a new event's lineup is created with, and the positions
    the lineup form is read for. *)
Definition new_event_positions : list string :=
  ["Striker"; "Left Wing"; "Right Wing"; "Attacking Mid";
   "Defensive Mid 1"; "Defensive Mid 2"; "Right Back"; "Left Back";
   "Centre Back 1"; "Centre Back 2"; "Goalkeeper";
   "Sub 1"; "Sub 2"; "Sub 3"; "Sub 4"; "Sub 5";
   "Away"].

Definition edit_positions : list string :=
  ["Striker"; "Left Wing"; "Right Wing"; "Attacking Mid";
   "Defensive Mid 1"; "Defensive Mid 2"; "Right Back"; "Left Back";
   "Centre Back 1"; "Centre Back 2"; "Goalkeeper";
   "Sub 1"; "Sub 2"; "Sub 3"; "Sub 4"; "Sub 5";
   "Beer Duty"].

(** The result document a new event is created with (it has no
    ["assists"] entry), and the empty result [edit_result] and
    [delete_result] write. *)
Definition new_event_result : json :=
  JDict [("home_score", JStr ""); ("away_score", JStr "");
         ("goal_scorers", JList []);
         ("cards", JDict [("yellow", JList []); ("red", JList [])])].

Definition empty_result : json :=
  JDict [("home_score", JStr ""); ("away_score", JStr "");
         ("goal_scorers", JList []); ("assists", JList []);
         ("cards", JDict [("yellow", JList []); ("red", JList [])])].

(** [url_for] targets, page templates with their context, and what a view
    returns.  [flashed] is the message the view flashes, if any. *)
Inductive endpoint :=
| ep_login
| ep_home
| ep_schedule
| ep_edit_schedule (event_id : Z)
| ep_results.

Inductive template :=
| login_html
| home_html
| links_html
| game_day_html (event : option Event.t) (beer_duty_player : option PlayerInfo.t)
| schedule_html (schedule_data : list Event.t)
                (events_by_year : list (Z * list Event.t))
| edit_schedule_html (event : Event.t) (players : list PlayerInfo.t)
| results_html (match_events : list Event.t)
               (events_by_year : list (Z * list Event.t))
| edit_result_html (event : Event.t) (players : list PlayerInfo.t).

Inductive reply :=
| Redirect (target : endpoint) (flashed : option string)
| Render (page : template) (flashed : option string)
| Abort404.

(** [Event.query.order_by(Event.date.asc()).all()]; events of one date are
    taken in table order. *)
Definition events_by_date (events : list Event.t) : list Event.t :=
  Py.sorted Event.date date_lt false events.

(** The loop [events_by_year.setdefault(event_date.year, []).append(event)].
    A [Date] column always holds a [datetime.date], so the conversion
    branch of the loop is never taken. *)
Fixpoint group_by_year (events : list Event.t) (d : list (Z * list Event.t))
  : list (Z * list Event.t) :=
  match events with
  | [] => d
  | event :: rest =>
      let year := date_year (Event.date event) in
      let group := match Dict.get year d with Some g => g | None => [] end in
      group_by_year rest (Dict.set year (group ++ [event]) d)
  end.

(** [get_next_match_event()], for the current date [today]. *)
Definition get_next_match_event (today : date) (events : list Event.t)
  : option Event.t :=
  head (events_by_date
          (filter (fun e => Event.type e = "match" /\
                            date_lt (Event.date e) today = false) events)).

(** *** Authentication views *)

(** [@app.route('/', methods=['GET', 'POST'])].  [request.form.get] gives
    [None] for a field that was not submitted, and [==] compares it with
    the configured value as it is. *)
Definition login (cfg : admin_config) (meth : method) (form : params)
    (session : session_t) : session_t * reply :=
  match meth with
  | POST =>
      let username := form !! "username" in
      let password := form !! "password" in
      if bool_decide (username = ADMIN_USERNAME cfg) &&
         bool_decide (password = ADMIN_PASSWORD cfg)
      then (set_logged_in session, Redirect ep_home None)
      else (session,
            Render login_html (Some "Invalid credentials. Please try again."))
  | GET => (session, Render login_html None)
  end.

(** [@app.route('/guest')]: the view [guest], named [guest_view] here
    since [guest] is the session flag. *)
Definition guest_view (session : session_t) : session_t * reply :=
  (set_guest session, Redirect ep_home None).

(** [@app.route('/home')] and [@app.route('/links')] *)
Definition home (session : session_t) : reply :=
  if negb (signed_in session) then Redirect ep_login None
  else Render home_html None.

Definition links (session : session_t) : reply :=
  if negb (signed_in session) then Redirect ep_login None
  else Render links_html None.

(** [@app.route('/logout')] *)
Definition logout (session : session_t) : session_t * reply :=
  (session_clear session, Redirect ep_login (Some "Logged out successfully.")).

(** *** Game day *)

(** [@app.route('/game-day')].  The player on beer duty is the first row
    whose duty date is the date of the event. *)
Definition game_day (today : date) (session : session_t) (db : DB)
    (events : list Event.t) : reply :=
  if negb (signed_in session) then Redirect ep_login None
  else
    match get_next_match_event today events with
    | None =>
        Render (game_day_html None None)
               (Some "No upcoming game found in the schedule.")
    | Some event =>
        let beer_duty_player :=
          List.find (fun p => bool_decide (PlayerInfo.beer_duty_date p
                                           = Some (Event.date event)))
                    (player_info db) in
        Render (game_day_html (Some event) beer_duty_player) None
    end.

(** *** Schedule views *)

(** The loop of [edit_schedule] over the positions: the submitted player
    is entered in the new lineup and, unless empty, in the set of
    selected players. *)
Fixpoint lineup_loop (form : params) (positions : list string)
    (new_lineup : list (string * string)) (selected_players : gset string)
  : list (string * string) * gset string :=
  match positions with
  | [] => (new_lineup, selected_players)
  | pos :: rest =>
      let player := get_str form pos "" in
      lineup_loop form rest (Dict.set pos player new_lineup)
        (if String.eqb player "" then selected_players
         else {[player]} ∪ selected_players)
  end.

(** The players of the roster that the form assigns to no position. *)
Definition away_players (form : params) (players : list PlayerInfo.t)
  : list string :=
  let selected_players := (lineup_loop form edit_positions [] ∅).2 in
  let all_players := PlayerInfo.name <$> players in
  filter (fun p => p ∉ selected_players) all_players.

(** The lineup [edit_schedule] builds from the form. *)
Definition submitted_lineup (form : params) (players : list PlayerInfo.t)
  : list (string * string) :=
  let new_lineup := (lineup_loop form edit_positions [] ∅).1 in
  Dict.set "Away" (String.concat "," (away_players form players)) new_lineup.

Section Schedule.
(** [datetime.datetime.strptime(s, '%Y-%m-%d').date()]; [None] is
    [ValueError]. *)
Variable strptime_date : string -> option date.

(** [@app.route('/schedule', methods=['GET', 'POST'])].  A submission
    without a [date] field passes [None] to [strptime], which raises
    [TypeError]; one without [time] or [field] leaves a [NOT NULL] column
    unset and the commit raises.  The commit also raises for a [time]
    longer than 10 characters or a [field] or [opponent] longer than
    100; as for the other tables, these lengths are not checked here. *)
Definition schedule (session : session_t) (meth : method) (form : params)
    (events : list Event.t) : option (list Event.t * reply) :=
  if negb (signed_in session) then Some (events, Redirect ep_login None)
  else
    match meth with
    | POST =>
        if negb (logged_in session) then
          Some (events, Redirect ep_schedule (Some "Only admin can add events."))
        else
          raw ← form !! "date";
          match strptime_date raw with
          | None =>
              Some (events,
                    Redirect ep_schedule
                             (Some "Invalid date format. Use YYYY-MM-DD."))
          | Some new_date =>
              time ← form !! "time";
              field ← form !! "field";
              let new_event :=
                Event.mk (fresh_id (Event.id <$> events)) new_date time field
                         (Some (get_str form "opponent" "")) "match"
                         ((fun pos => (pos, "")) <$> new_event_positions)
                         new_event_result in
              Some (events ++ [new_event],
                    Redirect ep_schedule (Some "New event added successfully."))
          end
    | GET =>
        let events_sorted := events_by_date events in
        Some (events,
              Render (schedule_html events_sorted
                                    (group_by_year events_sorted []))
                     None)
    end.

(** [@app.route('/schedule/edit/<int:event_id>', methods=['GET', 'POST'])];
    the column lengths are not checked, as in [schedule]. *)
Definition edit_schedule (session : session_t) (event_id : Z) (meth : method)
    (form : params) (db : DB) (events : list Event.t)
  : option (list Event.t * reply) :=
  if negb (signed_in session) then Some (events, Redirect ep_login None)
  else if negb (logged_in session) then
    Some (events, Redirect ep_schedule (Some "Only admin can edit events."))
  else
    match lookup_id Event.id event_id events with
    | None => Some (events, Abort404)
    | Some event =>
        let players := players_by_name db in
        match meth with
        | POST =>
            raw ← form !! "date";
            match strptime_date raw with
            | None =>
                Some (events,
                      Redirect (ep_edit_schedule event_id)
                               (Some "Invalid date format. Use YYYY-MM-DD."))
            | Some new_date =>
                time ← form !! "time";
                field ← form !! "field";
                let assign e :=
                  Event.set_lineup (submitted_lineup form players)
                    (Event.set_opponent (get_str form "opponent" "")
                      (Event.set_field field
                        (Event.set_time time
                          (Event.set_date new_date e)))) in
                Some (update_id Event.id event_id assign events,
                      Redirect ep_schedule (Some "Event updated successfully."))
            end
        | GET => Some (events, Render (edit_schedule_html event players) None)
        end
    end.
End Schedule.

(** [@app.route('/schedule/delete/<int:event_id>')] *)
Definition delete_schedule (session : session_t) (event_id : Z)
    (events : list Event.t) : list Event.t * reply :=
  if negb (signed_in session) then (events, Redirect ep_login None)
  else if negb (logged_in session) then
    (events, Redirect ep_schedule (Some "Only admin can delete events."))
  else
    match lookup_id Event.id event_id events with
    | None => (events, Abort404)
    | Some event =>
        (delete_id Event.id (Event.id event) events,
         Redirect ep_schedule (Some "Event deleted successfully."))
    end.

(** *** Results views *)

(** [@app.route('/results')] *)
Definition results (session : session_t) (events : list Event.t) : reply :=
  if negb (signed_in session) then Redirect ep_login None
  else
    let match_events :=
      events_by_date (filter (fun e => Event.type e = "match") events) in
    Render (results_html match_events (group_by_year match_events [])) None.

(** The loops of [edit_result] over [range(1, n + 1)] that collect goal
    scorers and assists: row [i] is kept when both its player and its
    count are filled in, and the count is converted with [int]. *)
Fixpoint counted_entries (form : params) (player_key count_key label : string)
    (indices : list Z) : option (list json) :=
  match indices with
  | [] => Some []
  | i :: rest =>
      let player := get_str form (player_key +:+ pretty i) "" in
      let count := get_str form (count_key +:+ pretty i) "" in
      if negb (String.eqb player "") && negb (String.eqb count "") then
        n ← Py.int_of_str count;
        entries ← counted_entries form player_key count_key label rest;
        Some (JDict [("player", JStr player); (label, JInt n)] :: entries)
      else counted_entries form player_key count_key label rest
  end.

(** The loops that collect the yellow and the red cards. *)
Fixpoint card_entries (form : params) (key : string) (indices : list Z)
  : list json :=
  match indices with
  | [] => []
  | i :: rest =>
      let player := get_str form (key +:+ pretty i) "" in
      if negb (String.eqb player "") then
        JStr player :: card_entries form key rest
      else card_entries form key rest
  end.

(** The result document [edit_result] builds from the form; [None] is the
    [ValueError] of a count that is not an integer literal. *)
Definition submitted_result (form : params) : option json :=
  let home_score := get_str form "home_score" "" in
  let away_score := get_str form "away_score" "" in
  num_goal_scorers ← form_int form "num_goal_scorers";
  goal_scorers ←
    counted_entries form "goal_scorer_" "goal_count_" "goals"
                    (seqZ 1 num_goal_scorers);
  num_assists ← form_int form "num_assists";
  assist_list ←
    counted_entries form "assist_player_" "assist_count_" "assists"
                    (seqZ 1 num_assists);
  num_yellow ← form_int form "num_yellow_cards";
  let yellow_cards := card_entries form "yellow_card_" (seqZ 1 num_yellow) in
  num_red ← form_int form "num_red_cards";
  let red_cards := card_entries form "red_card_" (seqZ 1 num_red) in
  Some (JDict [("home_score", JStr home_score);
               ("away_score", JStr away_score);
               ("goal_scorers", JList goal_scorers);
               ("assists", JList assist_list);
               ("cards", JDict [("yellow", JList yellow_cards);
                                ("red", JList red_cards)])]).

(** [@app.route('/results/edit/<int:event_id>', methods=['GET', 'POST'])].
    The view asks for a signed-in session only.  On a [GET] the default
    given to an event without a result is shown but not committed. *)
Definition edit_result (session : session_t) (event_id : Z) (meth : method)
    (form : params) (db : DB) (events : list Event.t)
  : option (list Event.t * reply) :=
  if negb (signed_in session) then Some (events, Redirect ep_login None)
  else
    match lookup_id Event.id event_id events with
    | None => Some (events, Abort404)
    | Some event =>
        let event :=
          if negb (truthy (Event.result event))
          then Event.set_result empty_result event else event in
        match meth with
        | POST =>
            new_result ← submitted_result form;
            Some (update_id Event.id event_id (Event.set_result new_result)
                            events,
                  Redirect ep_results (Some "Result updated successfully."))
        | GET =>
            Some (events,
                  Render (edit_result_html event (players_by_name db)) None)
        end
    end.

(** [@app.route('/results/delete/<int:event_id>', methods=['POST'])] *)
Definition delete_result (session : session_t) (event_id : Z)
    (events : list Event.t) : list Event.t * reply :=
  if negb (signed_in session) then (events, Redirect ep_login None)
  else if negb (logged_in session) then
    (events, Redirect ep_results (Some "Only admin can delete match results."))
  else
    match lookup_id Event.id event_id events with
    | None => (events, Abort404)
    | Some event =>
        (update_id Event.id event_id (Event.set_result empty_result) events,
         Redirect ep_results (Some "Match result deleted."))
    end.

(** *** Gallery media *)

(** What [gallery_media] answers: [abort(404)], [redirect(it["url"])], or
    the file of that name under the year's folder, as
    [send_from_directory] serves it. *)
Inductive media_reply :=
| MediaNotFound
| MediaRedirect (url : json)
| MediaLocal (year : Z) (filename : string).

(** [@app.route('/gallery/media/<int:year>/<path:filename>')] *)
Definition gallery_media (cfg : blob_config) (year : Z) (filename : string)
  : media_reply :=
  if negb (bool_decide (year ∈ [2025; 2026])) then MediaNotFound
  else
    match List.find (fun it => bool_decide (MediaItem.name it = filename) &&
                               truthy (MediaItem.url it))
                    (_list_vercel_blobs_for_year cfg year) with
    | Some it => MediaRedirect (MediaItem.url it)
    | None => MediaLocal year filename
    end.

(** *** The whole site as a transition system *)

(** The server's state: the roster and statistics tables, and the events. *)
Record site := mk_site { tables : DB; events : list Event.t }.

(** A request of one client, whose session cookie is passed along. *)
Inductive action :=
| a_login (meth : method) (form : params)
| a_guest
| a_home
| a_links
| a_logout
| a_game_day
| a_players (meth : method) (form : params)
| a_add_player (form : params)
| a_delete_player (player_id : Z)
| a_stats (meth : method) (args form : params)
| a_schedule (meth : method) (form : params)
| a_edit_schedule (event_id : Z) (meth : method) (form : params)
| a_delete_schedule (event_id : Z)
| a_results
| a_edit_result (event_id : Z) (meth : method) (form : params)
| a_delete_result (event_id : Z).

Inductive outcome :=
| Answer (r : response)
| Reply (r : reply)
| InternalServerError.

Section Site.
Variable cfg : admin_config.
Variable today : date.
Variable strptime_date : string -> option date.

(** A roster or statistics request, answered by [handle]. *)
Definition serve_tables (req : request) (session : session_t) (st : site)
  : session_t * site * outcome :=
  let '(db, r) := handle strptime_date req (tables st) in
  (session, mk_site db (events st), Answer r).

(** A request on the events; an uncaught exception commits nothing. *)
Definition serve_events (r : option (list Event.t * reply))
    (session : session_t) (st : site) : session_t * site * outcome :=
  match r with
  | Some (evs, rep) => (session, mk_site (tables st) evs, Reply rep)
  | None => (session, st, InternalServerError)
  end.

Definition serve (a : action) (session : session_t) (st : site)
  : session_t * site * outcome :=
  match a with
  | a_login meth form =>
      let '(s, rep) := login cfg meth form session in (s, st, Reply rep)
  | a_guest => let '(s, rep) := guest_view session in (s, st, Reply rep)
  | a_home => (session, st, Reply (home session))
  | a_links => (session, st, Reply (links session))
  | a_logout => let '(s, rep) := logout session in (s, st, Reply rep)
  | a_game_day =>
      (session, st, Reply (game_day today session (tables st) (events st)))
  | a_players meth form => serve_tables (ReqPlayers session meth form) session st
  | a_add_player form => serve_tables (ReqAddPlayer session form) session st
  | a_delete_player player_id =>
      serve_tables (ReqDeletePlayer session player_id) session st
  | a_stats meth args form =>
      serve_tables (ReqStats session meth args form) session st
  | a_schedule meth form =>
      serve_events (schedule strptime_date session meth form (events st))
                   session st
  | a_edit_schedule event_id meth form =>
      serve_events (edit_schedule strptime_date session event_id meth form
                                  (tables st) (events st))
                   session st
  | a_delete_schedule event_id =>
      serve_events (Some (delete_schedule session event_id (events st)))
                   session st
  | a_results => (session, st, Reply (results session (events st)))
  | a_edit_result event_id meth form =>
      serve_events (edit_result session event_id meth form (tables st)
                                (events st))
                   session st
  | a_delete_result event_id =>
      serve_events (Some (delete_result session event_id (events st)))
                   session st
  end.

(** A sequence of requests of one client. *)
Fixpoint serve_all (actions : list action) (session : session_t) (st : site)
  : session_t * site :=
  match actions with
  | [] => (session, st)
  | a :: rest =>
      let '(s, st', _) := serve a session st in serve_all rest s st'
  end.
End Site.

(** The columns of an event other than its result. *)
Definition event_schedule (e : Event.t)
  : Z * date * string * string * option string * string * list (string * string) :=
  (Event.id e, Event.date e, Event.time e, Event.field e, Event.opponent e,
   Event.type e, Event.lineup e).
(** ** Vocabulary of the specification *)

(** The five counters of a row, in the order the update assigns them. *)
Definition counter_names : list string :=
  ["goals"; "assists"; "player_of_match"; "yellow_cards"; "red_cards"].

Definition player_stat_values (s : PlayerStat.t) : list Z :=
  [PlayerStat.goals s; PlayerStat.assists s; PlayerStat.player_of_match s;
   PlayerStat.yellow_cards s; PlayerStat.red_cards s].

Definition season_stat_values (s : SeasonStat.t) : list Z :=
  [SeasonStat.goals s; SeasonStat.assists s; SeasonStat.player_of_match s;
   SeasonStat.yellow_cards s; SeasonStat.red_cards s].

(** What a submission holds for the counters of the row with key suffix
    [suffix]: the parsed value, or [None] for a non-numeric one. *)
Definition submitted (form : params) (suffix : string) : list (option Z) :=
  (fun name => form_int form (name +:+ "_" +:+ suffix)) <$> counter_names.

(** "The counters before the first non-numeric field take the submitted
    values, the others keep their prior values." *)
Fixpoint until_error (vals : list (option Z)) (prior : list Z) : list Z :=
  match vals, prior with
  | Some v :: vals', _ :: prior' => v :: until_error vals' prior'
  | _, _ => prior
  end.

(** The update block applied to a row of the 2025 table (its fields are
    named after the row's key) and to a row of the 2026 table (named after
    the player's key). *)
Definition assign_player_row (form : params) (s : PlayerStat.t) : PlayerStat.t :=
  assign_counters form (pretty (PlayerStat.id s)) player_stat_counters s.
Definition assign_season_row (form : params) (s : SeasonStat.t) : SeasonStat.t :=
  assign_counters form (pretty (SeasonStat.player_id s)) season_stat_counters s.

(** The season rows the loop over the players is handed by the mapping. *)
Definition season_targets (all_players : list PlayerInfo.t)
    (season_stats_by_player_id : list (Z * Z)) : list Z :=
  omap (fun p => Dict.get (PlayerInfo.id p) season_stats_by_player_id) all_players.

(** The mapping hands every player a season row of its own. *)
Definition covers (all_players : list PlayerInfo.t)
    (season_stats_by_player_id : list (Z * Z)) (table : list SeasonStat.t) : Prop :=
  forall p, p ∈ all_players ->
    exists k, Dict.get (PlayerInfo.id p) season_stats_by_player_id = Some k /\
              forall r, r ∈ table -> SeasonStat.id r = k ->
                        SeasonStat.player_id r = PlayerInfo.id p.

(** The attributes of a season row that no statistics code assigns to. *)
Definition season_keys (s : SeasonStat.t) : Z * Z * Z :=
  (SeasonStat.id s, SeasonStat.player_id s, SeasonStat.season_year s).

(** The state the loop of ensure-season is in: [keys] are the keys in use,
    [d] the mapping, [missing] the rows created so far, for the season
    table [table] and the players [ids]. *)
Record season_loop_inv (year : Z) (ids : list Z) (table : list SeasonStat.t)
    (keys : list Z) (d : list (Z * Z)) (missing : list SeasonStat.t) : Prop :=
  mk_season_loop_inv {
    sl_keys : Permutation keys (SeasonStat.id <$> (table ++ missing));
    sl_keys_nodup : NoDup keys;
    sl_valid :
      Forall (fun e => exists row, row ∈ (table ++ missing) /\
                         SeasonStat.id row = e.2 /\
                         SeasonStat.player_id row = e.1 /\
                         SeasonStat.season_year row = year) d;
    sl_complete :
      forall row, row ∈ (table ++ missing) ->
        SeasonStat.season_year row = year -> SeasonStat.player_id row ∈ ids ->
        is_Some (Dict.get (SeasonStat.player_id row) d);
    sl_pairs : NoDup (SeasonStat.pair <$> (table ++ missing));
    sl_new :
      Forall (fun r => r = SeasonStat.new (SeasonStat.id r) (SeasonStat.player_id r) year
                       /\ SeasonStat.player_id r ∈ ids) missing
  }.

(** A counter parameter that is present in the form but does not parse. *)
Definition non_numeric (form : params) (key : string) : Prop :=
  exists v, form !! key = Some v /\ Py.int_of_str v = None.


(** ** Sample data *)


Definition zed_stat : PlayerStat.t := PlayerStat.new 1 "Zed".
Definition ann_stat : PlayerStat.t := PlayerStat.new 2 "Ann".
Definition mid_stat : PlayerStat.t := PlayerStat.new 3 "mid".

(** A submission whose fields for row 1 are goals "7", assists "x" (not a
    number) and red cards "2", and whose only field for row 2 is goals "4". *)
Definition demo_form : params :=
  <["goals_1" := "7"]> (<["assists_1" := "x"]> (<["red_cards_1" := "2"]>
    (<["goals_2" := "4"]> ∅))).

Definition demo_stats : list PlayerStat.t :=
  [PlayerStat.mk 1 "Ann" 3 1 0 0 0 0; PlayerStat.mk 2 "Bob" 5 5 5 5 5 5].

Definition demo_season : list SeasonStat.t :=
  [SeasonStat.mk 10 1 2026 3 1 0 0 0; SeasonStat.mk 11 2 2026 5 5 5 5 5].

Definition demo_roster : list PlayerInfo.t :=
  [PlayerInfo.new 1 "Ann"; PlayerInfo.new 2 "Bob"].

Definition admin : session_t := mk_session true false.

(** Ann and Bob with their aggregate rows and their 2026 rows. *)
Definition demo_db : DB := mkDB demo_roster demo_stats demo_season.


(** Ann has an aggregate row and a 2026 row whose counters were edited
    since; Bob joined the roster later and has no 2026 row yet. *)
Definition late_joiner_db : DB :=
  mkDB [PlayerInfo.new 1 "Ann"; PlayerInfo.new 2 "Bob"]
       [PlayerStat.mk 1 "Ann" 3 1 0 0 0 0; PlayerStat.mk 2 "Bob" 0 0 0 0 0 0]
       [SeasonStat.mk 1 1 2026 5 2 1 0 0].


(** Ann with her aggregate row and her 2026 row. *)
Definition one_player_db : DB :=
  mkDB [PlayerInfo.new 1 "Ann"]
       [PlayerStat.mk 1 "Ann" 3 1 0 0 0 0]
       [SeasonStat.mk 1 1 2026 5 2 1 0 0].

Definition ann_row : PlayerStat.t := PlayerStat.new 1 "Ann".
Definition zed_row : PlayerStat.t := PlayerStat.new 2 "Zed".


(** ** Vocabulary of the further properties *)

(** What every item of the media listing satisfies: its name has an
    allowed extension and no directory part. *)
Definition listed_name_ok (it : MediaItem.t) : Prop :=
  allowed_media_file (MediaItem.name it) = true /\
  "/"%char ∉ list_ascii_of_string (MediaItem.name it).

(** The key a sort helper compares the rows by: the case-folded name for
    the field ["player"], the counter of that name otherwise. *)
Definition player_sort_key (field : string) (stat : PlayerStat.t) : string + Z :=
  if String.eqb field "player" then inl (Py.lower (PlayerStat.player stat))
  else inr (PlayerStat.getattr stat field 0).

Definition season_sort_key (players : list PlayerInfo.t) (field : string)
    (stat : SeasonStat.t) : string + Z :=
  if String.eqb field "player" then
    inl (match season_player players stat with
         | Some p => Py.lower (PlayerInfo.name p)
         | None => ""
         end)
  else inr (SeasonStat.getattr stat field 0).

(** Row [i] of the goal-scorer or assist rows of the result form is
    filled in and [entry] is what it reads as. *)
Definition counted_row (form : params) (player_key count_key label : string)
    (i : Z) (entry : json) : Prop :=
  exists player count n,
    form !! (player_key +:+ pretty i) = Some player /\ player <> "" /\
    form !! (count_key +:+ pretty i) = Some count /\ count <> "" /\
    Py.int_of_str count = Some n /\
    entry = JDict [("player", JStr player); (label, JInt n)].

(** Row [i] of the card rows names a player. *)
Definition card_row (form : params) (key : string) (i : Z) (entry : json) : Prop :=
  exists player,
    form !! (key +:+ pretty i) = Some player /\ player <> "" /\
    entry = JStr player.

(** The fields of the result form that are read whatever the counts. *)
Definition result_header_fields : list string :=
  ["home_score"; "away_score"; "num_goal_scorers"; "num_assists";
   "num_yellow_cards"; "num_red_cards"].

(** The state of the site satisfies the declared constraints, and every
    event is a match. *)
Definition site_ok (st : site) : Prop :=
  consistent (tables st) /\ consistent_events (events st) /\
  Forall (fun e => Event.type e = "match") (events st).

(** An aggregate row as the reconciler creates it: every counter zero. *)
Definition zero_row (r : PlayerStat.t) : Prop :=
  r = PlayerStat.new (PlayerStat.id r) (PlayerStat.player r).

(** The request is a login submission that carries the configured
    credentials. *)
Definition presents_credentials (cfg : admin_config) (a : action) : Prop :=
  exists form, a = a_login POST form /\
               form !! "username" = ADMIN_USERNAME cfg /\
               form !! "password" = ADMIN_PASSWORD cfg.

(** What requests without the admin flag preserve, from the state [st] to
    the state [st']: the roster, the rows of the aggregate table (rows
    with zero counters may have been appended), and everything of the
    events but their results. *)
Definition kept_without_admin (st st' : site) : Prop :=
  player_info (tables st') = player_info (tables st) /\
  (exists new_rows,
     player_stat (tables st') = player_stat (tables st) ++ new_rows /\
     Forall zero_row new_rows) /\
  event_schedule <$> events st' = event_schedule <$> events st.

(** What the roster form makes of a player: the submitted name if there
    is one, and the other fields read from the form, an absent field
    reading as empty text and an empty or unparsable date as no date. *)
Definition submitted_player (strptime_date : string -> option date)
    (form : params) (p : PlayerInfo.t) : PlayerInfo.t :=
  let suffix := pretty (PlayerInfo.id p) in
  let date_str := get_str form ("beer_duty_date_" +:+ suffix) "" in
  PlayerInfo.mk (PlayerInfo.id p)
    (get_str form ("name_" +:+ suffix) (PlayerInfo.name p))
    (Some (get_str form ("preferred_position_" +:+ suffix) ""))
    (Some (get_str form ("shirt_" +:+ suffix) ""))
    (if String.eqb date_str "" then None else strptime_date date_str)
    (Some (get_str form ("support_offered_" +:+ suffix) "")).

(** Sample data for the properties beyond the specification. *)

(** [DATABASE_URL] is set but empty, [POSTGRES_URL] holds a legacy
    address, and a later candidate is set as well. *)
Definition demo_environ : gmap string string :=
  <["DATABASE_URL" := ""]>
    (<["POSTGRES_URL" := "postgres://club@db.example/team"]>
       (<["PRISMA_DATABASE_URL" := "prisma+postgres://other/team"]> ∅)).

(** A blob store that lists one photo and one text file for each year. *)
Definition demo_blob_config : blob_config :=
  mk_blob_config (Some "t") "images"
    (Some (fun _ _ =>
       Responded 200 (Some (JDict [("blobs",
         JList [JDict [("pathname", JStr "images/2025/a.PNG");
                       ("url", JStr "https://blob/a.PNG");
                       ("uploadedAt", JStr "2025-01-01")];
                JDict [("pathname", JStr "images/2025/notes.txt");
                       ("url", JStr "https://blob/notes.txt")]])])))).

(** Three events of two years, stored out of date order. *)
Definition demo_events : list Event.t :=
  [Event.mk 1 (2026, 3, 14) "10:00" "Field 1" (Some "Rovers") "match" []
            empty_result;
   Event.mk 2 (2025, 5, 3) "14:30" "Field 2" (Some "United") "match" []
            empty_result;
   Event.mk 3 (2026, 2, 1) "09:00" "Field 1" (Some "") "match" []
            new_event_result].

(** A session that holds the guest flag only. *)
Definition visitor : session_t := mk_session false true.

(** A date parser for the text ["2026-04-05"] alone. *)
Definition demo_strptime (s : string) : option date :=
  if String.eqb s "2026-04-05" then Some (2026, 4, 5) else None.

(** A complete submission of the new-event form. *)
Definition demo_event_form : params :=
  <["date" := "2026-04-05"]> (<["time" := "11:00"]> (<["field" := "Field 3"]> ∅)).

(** A result submission: 2-1, two scorer rows of which the second has no
    count, one assist, one yellow card, and a stray third scorer row
    beyond the submitted count. *)
Definition demo_result_form : params :=
  <["home_score" := "2"]> (<["away_score" := "1"]>
  (<["num_goal_scorers" := "2"]>
  (<["goal_scorer_1" := "Ann"]> (<["goal_count_1" := "2"]>
  (<["goal_scorer_2" := "Bob"]>
  (<["goal_scorer_3" := "Cy"]> (<["goal_count_3" := "1"]>
  (<["num_assists" := "1"]>
  (<["assist_player_1" := "Bob"]> (<["assist_count_1" := "1"]>
  (<["num_yellow_cards" := "1"]> (<["yellow_card_1" := "Ann"]> ∅)))))))))))).

(** The same submission with a goal count that is not a number. *)
Definition bad_result_form : params :=
  <["goal_count_1" := "two"]> demo_result_form.

(** A submission that has scorer rows but none of the scores and counts. *)
Definition stray_result_form : params :=
  <["goal_scorer_1" := "Ann"]> (<["goal_count_1" := "2"]> ∅).

(** The site with the roster of Ann and Bob and the three events, and the
    admin credentials of the examples. *)
Definition demo_site : site := mk_site late_joiner_db demo_events.

Definition demo_admin_config : admin_config :=
  mk_admin_config (Some "coach") (Some "secret").

Definition anonymous : session_t := mk_session false false.

(** What a visitor may send: enter as guest, view the statistics, try to
    log in with a wrong password, try to add and to delete a player, try
    to add an event, and record a result. *)
Definition visitor_actions : list action :=
  [a_guest;
   a_stats POST ∅ (<["goals_1" := "9"]> ∅);
   a_login POST (<["username" := "coach"]> (<["password" := "guess"]> ∅));
   a_add_player (<["new_player_name" := "Cy"]> ∅);
   a_delete_player 1;
   a_schedule POST demo_event_form;
   a_edit_result 1 POST demo_result_form].
(** ** Properties *)

(** *** Python primitives *)

Example int_of_str_examples :
  Py.int_of_str "12" = Some 12 /\ Py.int_of_str " -7 " = Some (-7) /\
  Py.int_of_str "1_000" = Some 1000 /\ Py.int_of_str "007" = Some 7 /\
  Py.int_of_str "" = None /\ Py.int_of_str "abc" = None /\
  Py.int_of_str "1__0" = None /\ Py.int_of_str "- 5" = None /\
  Py.int_of_str "3.5" = None /\ Py.int_of_str "+" = None.
Proof. repeat split; reflexivity. Qed.

(** The separator with code 28 is removed by [str.strip()] and is not
    skipped by [int()]; a run of 4300 digits is converted, one of 4301 is
    not. *)
Example int_of_str_limits :
  Py.int_of_str (String (ascii_of_nat 28) "5") = None /\
  str_strip (String (ascii_of_nat 28) "5") = "5" /\
  Py.int_of_str (string_of_list_ascii (List.repeat "0"%char 4300)) = Some 0 /\
  Py.int_of_str (string_of_list_ascii (List.repeat "0"%char 4301)) = None.
Proof. repeat split; vm_compute; reflexivity. Qed.

Example lower_example : Py.lower "Zed A-z" = "zed a-z".
Proof. reflexivity. Qed.

Section SortFacts.
Context {A K : Type} (key : A -> K) (lt : K -> K -> bool).

Lemma insert_stable_perm (x : A) (l : list A) :
  Permutation (Py.insert_stable key lt x l) (x :: l).
Proof.
  induction l as [|y l IH]; simpl; [reflexivity|].
  destruct (lt (key y) (key x)); [|reflexivity].
  rewrite IH. apply perm_swap.
Qed.

Lemma sort_stable_perm (l : list A) : Permutation (Py.sort_stable key lt l) l.
Proof.
  induction l as [|x l IH]; simpl; [reflexivity|].
  rewrite insert_stable_perm. by constructor.
Qed.

Lemma sorted_perm (reverse : bool) (l : list A) :
  Permutation (Py.sorted key lt reverse l) l.
Proof.
  unfold Py.sorted. destruct reverse; [|apply sort_stable_perm].
  rewrite <- Permutation_rev, sort_stable_perm. symmetry. apply Permutation_rev.
Qed.

(** Equal keys everywhere: the stable sort returns its input. *)
Lemma sort_stable_flat (l : list A) :
  (forall a b, lt (key a) (key b) = false) -> Py.sort_stable key lt l = l.
Proof.
  intros Hflat. induction l as [|x l IH]; simpl; [reflexivity|].
  rewrite IH. destruct l as [|y l]; simpl; [reflexivity|].
  by rewrite Hflat.
Qed.

Lemma sorted_flat (reverse : bool) (l : list A) :
  (forall a b, lt (key a) (key b) = false) -> Py.sorted key lt reverse l = l.
Proof.
  intros Hflat. unfold Py.sorted. destruct reverse.
  - rewrite sort_stable_flat by assumption. apply rev_involutive.
  - by apply sort_stable_flat.
Qed.

Hypothesis lt_asym : forall a b, lt a b = true -> lt b a = false.

Lemma insert_stable_hd (x y : A) (l : list A) :
  HdRel (Py.ascending key lt) y l -> lt (key y) (key x) = true ->
  HdRel (Py.ascending key lt) y (Py.insert_stable key lt x l).
Proof.
  intros Hhd Hyx. destruct l as [|z l]; simpl.
  - constructor. by apply lt_asym.
  - inversion Hhd; subst. destruct (lt (key z) (key x)); constructor;
      [assumption | by apply lt_asym].
Qed.

Lemma insert_stable_sorted (x : A) (l : list A) :
  Sorted (Py.ascending key lt) l ->
  Sorted (Py.ascending key lt) (Py.insert_stable key lt x l).
Proof.
  induction 1 as [|y l Hs IH Hhd]; simpl.
  - repeat constructor.
  - destruct (lt (key y) (key x)) eqn:Hyx.
    + constructor; [assumption | by apply insert_stable_hd].
    + constructor; [by constructor | by constructor].
Qed.

Lemma sort_stable_sorted (l : list A) :
  Sorted (Py.ascending key lt) (Py.sort_stable key lt l).
Proof.
  induction l; simpl; [constructor | by apply insert_stable_sorted].
Qed.

Lemma sorted_snoc (R : A -> A -> Prop) (l : list A) (x : A) :
  Sorted R l -> (forall y, last l = Some y -> R y x) -> Sorted R (l ++ [x]).
Proof.
  induction 1 as [|y l Hs IH Hhd]; intros Hlast; simpl.
  - repeat constructor.
  - constructor.
    + apply IH. intros z Hz. apply Hlast.
      destruct l; [discriminate | exact Hz].
    + destruct l as [|z l]; simpl.
      * constructor. by apply Hlast.
      * inversion Hhd; subst. by constructor.
Qed.

Lemma sorted_rev (R : A -> A -> Prop) (l : list A) :
  Sorted R l -> Sorted (fun a b => R b a) (rev l).
Proof.
  induction 1 as [|y l Hs IH Hhd]; simpl; [constructor|].
  apply sorted_snoc; [assumption|].
  intros z Hz. destruct l as [|w l]; [discriminate|].
  simpl in Hz. rewrite last_snoc in Hz.
  inversion Hz; subst. by inversion Hhd.
Qed.

Lemma sorted_ordered (l : list A) :
  Sorted (Py.ascending key lt) (Py.sorted key lt false l) /\
  Sorted (Py.descending key lt) (Py.sorted key lt true l).
Proof.
  split; unfold Py.sorted.
  - apply sort_stable_sorted.
  - apply (sorted_rev (Py.ascending key lt)), sort_stable_sorted.
Qed.
End SortFacts.

Lemma str_lt_asym (a b : string) : Py.str_lt a b = true -> Py.str_lt b a = false.
Proof.
  unfold Py.str_lt, String.ltb. rewrite (String.compare_antisym a b).
  by destruct (String.compare b a).
Qed.

(** *** Stat presenter *)





(** Sorting by a name that is not an attribute of the rows, such as
    "bogus", compares equal keys only, so the helper hands the rows back
    in their input order. *)
Lemma sort_player_stats_unknown_field (stats : list PlayerStat.t)
    (descending : bool) :
  _sort_player_stats stats "bogus" descending = stats.
Proof.
  unfold _sort_player_stats. simpl. apply sorted_flat. intros a b.
  apply Z.ltb_irrefl.
Qed.

Lemma bogus_not_allowed : "bogus" ∉ allowed_fields.
Proof.
  unfold allowed_fields. intros H.
  repeat (apply elem_of_cons in H as [H|H]; [discriminate H|]).
  by apply elem_of_nil in H.
Qed.

(** C3, as stated, fails: with the direction "desc" the stats view sorts
    an unknown field by player name descending, not ascending; and the
    helper on its own leaves the rows in input order. *)
Lemma sort_fallback_not_ascending :
  ("bogus" ∉ allowed_fields) /\
  sort_2025 (<["sort" := "bogus"]> (<["order" := "desc"]> ∅)) [ann_row; zed_row]
    <> sort_2025 (<["sort" := "player"]> (<["order" := "asc"]> ∅))
                 [ann_row; zed_row] /\
  _sort_player_stats [zed_row; ann_row] "bogus" false
    <> _sort_player_stats [zed_row; ann_row] "player" false.
Proof.
  split; [apply bogus_not_allowed|].
  split; vm_compute; discriminate.
Qed.

(** C3 (amended): in the stats view a sort field outside the allow-list
    is replaced by "player" and the rows are sorted by case-folded player
    name in the requested direction, descending when the order parameter
    is "desc" and ascending otherwise; this holds for both tables and the
    sort never fails. *)
Theorem sort_fallback_keeps_direction
    (args : params) (field : string) (player_stats : list PlayerStat.t)
    (players : list PlayerInfo.t) (season_stats_2026 : list SeasonStat.t) :
  field ∉ allowed_fields ->
  sort_2025 (<["sort" := field]> args) player_stats
    = _sort_player_stats player_stats "player"
        (String.eqb (get_str args "order" "asc") "desc") /\
  sort_2026 (<["season_sort" := field]> args) players season_stats_2026
    = _sort_season_stats players season_stats_2026 "player"
        (String.eqb (get_str args "season_order" "asc") "desc") /\
  sort_2025 (<["sort" := field]> args) player_stats
    = sort_2025 (<["sort" := "player"]> args) player_stats /\
  sort_2026 (<["season_sort" := field]> args) players season_stats_2026
    = sort_2026 (<["season_sort" := "player"]> args) players season_stats_2026.
Proof.
  intros Hf.
  assert (H25 : forall f, f ∉ allowed_fields \/ f = "player" ->
    sort_2025 (<["sort" := f]> args) player_stats
    = _sort_player_stats player_stats "player"
        (String.eqb (get_str args "order" "asc") "desc")).
  { intros f Hcase. unfold sort_2025, get_str.
    rewrite lookup_insert_eq, lookup_insert_ne by discriminate.
    destruct Hcase as [Hn | ->]; [|reflexivity].
    by rewrite bool_decide_eq_false_2. }
  assert (H26 : forall f, f ∉ allowed_fields \/ f = "player" ->
    sort_2026 (<["season_sort" := f]> args) players season_stats_2026
    = _sort_season_stats players season_stats_2026 "player"
        (String.eqb (get_str args "season_order" "asc") "desc")).
  { intros f Hcase. unfold sort_2026, get_str.
    rewrite lookup_insert_eq, lookup_insert_ne by discriminate.
    destruct Hcase as [Hn | ->]; [|reflexivity].
    by rewrite bool_decide_eq_false_2. }
  rewrite !H25, !H26 by auto. done.
Qed.

Lemma sort_fallback_keeps_direction_witness :
  sort_2025 (<["sort" := "bogus"]> (<["order" := "desc"]> ∅)) [ann_row; zed_row]
    = _sort_player_stats [ann_row; zed_row] "player" true.
Proof.
  pose proof (sort_fallback_keeps_direction (<["order" := "desc"]> ∅) "bogus"
                [ann_row; zed_row] [] [] bogus_not_allowed)
    as [H _].
  exact H.
Defined.


(** *** Bulk counter update *)




Lemma until_error_all (vals : list Z) (prior : list Z) :
  length vals = length prior -> until_error (Some <$> vals) prior = vals.
Proof.
  revert prior. induction vals as [|v vals IH]; intros [|p prior] Hlen;
    try discriminate; simpl; [reflexivity|].
  f_equal. apply IH. by injection Hlen.
Qed.

Lemma until_error_first (vals : list (option Z)) (prior : list Z) :
  until_error (None :: vals) prior = prior.
Proof. by destruct prior. Qed.

(** The [try] block on an aggregate row. *)
Lemma assign_player_stat (form : params) (suffix : string) (s : PlayerStat.t) :
  let s' := assign_counters form suffix player_stat_counters s in
  player_stat_values s' = until_error (submitted form suffix) (player_stat_values s) /\
  PlayerStat.id s' = PlayerStat.id s /\
  PlayerStat.player s' = PlayerStat.player s /\
  PlayerStat.clean_sheets s' = PlayerStat.clean_sheets s.
Proof.
  unfold submitted, counter_names, player_stat_counters, assign_counters.
  cbn [fmap list_fmap].
  destruct (form_int form ("goals" +:+ "_" +:+ suffix));
    [|by destruct s].
  destruct (form_int form ("assists" +:+ "_" +:+ suffix));
    [|by destruct s].
  destruct (form_int form ("player_of_match" +:+ "_" +:+ suffix));
    [|by destruct s].
  destruct (form_int form ("yellow_cards" +:+ "_" +:+ suffix));
    [|by destruct s].
  destruct (form_int form ("red_cards" +:+ "_" +:+ suffix)); by destruct s.
Qed.

(** The [try] block on a season row. *)
Lemma assign_season_stat (form : params) (suffix : string) (s : SeasonStat.t) :
  let s' := assign_counters form suffix season_stat_counters s in
  season_stat_values s' = until_error (submitted form suffix) (season_stat_values s) /\
  SeasonStat.id s' = SeasonStat.id s /\
  SeasonStat.player_id s' = SeasonStat.player_id s /\
  SeasonStat.season_year s' = SeasonStat.season_year s.
Proof.
  unfold submitted, counter_names, season_stat_counters, assign_counters.
  cbn [fmap list_fmap].
  destruct (form_int form ("goals" +:+ "_" +:+ suffix));
    [|by destruct s].
  destruct (form_int form ("assists" +:+ "_" +:+ suffix));
    [|by destruct s].
  destruct (form_int form ("player_of_match" +:+ "_" +:+ suffix));
    [|by destruct s].
  destruct (form_int form ("yellow_cards" +:+ "_" +:+ suffix));
    [|by destruct s].
  destruct (form_int form ("red_cards" +:+ "_" +:+ suffix)); by destruct s.
Qed.

(** Running the block a second time on its own result changes nothing. *)
Lemma assign_player_stat_idem (form : params) (suffix : string) (s : PlayerStat.t) :
  assign_counters form suffix player_stat_counters
    (assign_counters form suffix player_stat_counters s)
  = assign_counters form suffix player_stat_counters s.
Proof.
  unfold player_stat_counters, assign_counters.
  destruct (form_int form ("goals" +:+ "_" +:+ suffix)); [|reflexivity].
  destruct (form_int form ("assists" +:+ "_" +:+ suffix)); [|reflexivity].
  destruct (form_int form ("player_of_match" +:+ "_" +:+ suffix)); [|reflexivity].
  destruct (form_int form ("yellow_cards" +:+ "_" +:+ suffix)); [|reflexivity].
  destruct (form_int form ("red_cards" +:+ "_" +:+ suffix)); reflexivity.
Qed.

Lemma assign_season_stat_idem (form : params) (suffix : string) (s : SeasonStat.t) :
  assign_counters form suffix season_stat_counters
    (assign_counters form suffix season_stat_counters s)
  = assign_counters form suffix season_stat_counters s.
Proof.
  unfold season_stat_counters, assign_counters.
  destruct (form_int form ("goals" +:+ "_" +:+ suffix)); [|reflexivity].
  destruct (form_int form ("assists" +:+ "_" +:+ suffix)); [|reflexivity].
  destruct (form_int form ("player_of_match" +:+ "_" +:+ suffix)); [|reflexivity].
  destruct (form_int form ("yellow_cards" +:+ "_" +:+ suffix)); [|reflexivity].
  destruct (form_int form ("red_cards" +:+ "_" +:+ suffix)); reflexivity.
Qed.

(** Two passes of "apply [F] to the rows whose key is selected". *)
Lemma update_id_twice {A : Type} (key : A -> Z) (F : A -> A) (k : Z)
    (ks : list Z) (table : list A) :
  (forall r, key (F r) = key r) -> (forall r, F (F r) = F r) ->
  (fun r => if bool_decide (key r ∈ ks) then F r else r) <$>
     update_id key k F table
  = (fun r => if bool_decide (key r ∈ k :: ks) then F r else r) <$> table.
Proof.
  intros Hkey Hidem. unfold update_id. rewrite <- list_fmap_compose.
  apply list_fmap_ext. intros _ r _. simpl.
  destruct (decide (key r = k)) as [Hk|Hk].
  - rewrite Hkey, Hidem, (bool_decide_eq_true_2 (key r ∈ k :: ks))
      by (rewrite Hk; left).
    by destruct (bool_decide (key r ∈ ks)).
  - destruct (decide (key r ∈ ks)) as [Hin|Hin].
    + by rewrite !bool_decide_eq_true_2 by (by try right).
    + rewrite !bool_decide_eq_false_2; [done| |done].
      intros [?|?]%elem_of_cons; contradiction.
Qed.

Lemma assign_player_row_id (form : params) (r : PlayerStat.t) :
  PlayerStat.id (assign_player_row form r) = PlayerStat.id r.
Proof. apply assign_player_stat. Qed.

Lemma assign_player_row_idem (form : params) (r : PlayerStat.t) :
  assign_player_row form (assign_player_row form r) = assign_player_row form r.
Proof.
  unfold assign_player_row at 1. rewrite assign_player_row_id.
  apply assign_player_stat_idem.
Qed.

Lemma assign_season_row_keys (form : params) (r : SeasonStat.t) :
  SeasonStat.id (assign_season_row form r) = SeasonStat.id r /\
  SeasonStat.player_id (assign_season_row form r) = SeasonStat.player_id r.
Proof. split; apply assign_season_stat. Qed.

Lemma assign_season_row_idem (form : params) (r : SeasonStat.t) :
  assign_season_row form (assign_season_row form r) = assign_season_row form r.
Proof.
  unfold assign_season_row at 1.
  rewrite (proj2 (assign_season_row_keys form r)).
  apply assign_season_stat_idem.
Qed.

(** The loop over the 2025 table rewrites exactly the submitted rows. *)
Lemma update_2025_rows (form : params) (player_stats table : list PlayerStat.t) :
  update_2025 form player_stats table
  = (fun r => if bool_decide (PlayerStat.id r ∈ PlayerStat.id <$> player_stats)
              then assign_player_row form r else r) <$> table.
Proof.
  revert table. induction player_stats as [|stat rest IH]; intros table; simpl.
  - rewrite <- (list_fmap_id table) at 1. apply list_fmap_ext. by intros _ r _.
  - rewrite IH.
    rewrite <- (update_id_twice PlayerStat.id (assign_player_row form))
      by (apply assign_player_row_id || apply assign_player_row_idem).
    f_equal. unfold update_id. apply list_fmap_ext. intros _ r _.
    destruct (decide (PlayerStat.id r = PlayerStat.id stat)) as [<-|]; reflexivity.
Qed.

(** The loop over the players does not raise when the mapping covers them,
    and rewrites exactly the rows it is handed. *)
Lemma update_2026_rows (form : params) (all_players : list PlayerInfo.t)
    (d : list (Z * Z)) (table : list SeasonStat.t) :
  covers all_players d table ->
  update_2026 form all_players d table
  = Some ((fun r => if bool_decide (SeasonStat.id r ∈ season_targets all_players d)
                    then assign_season_row form r else r) <$> table).
Proof.
  revert table. induction all_players as [|p rest IH]; intros table Hcov;
    cbn [update_2026].
  - f_equal. rewrite <- (list_fmap_id table) at 1.
    apply list_fmap_ext. by intros _ r _.
  - destruct (Hcov p) as (k & Hk & Hrow); [left|].
    unfold season_targets. cbn [omap list_omap]. rewrite Hk.
    fold (season_targets rest d).
    assert (Hstep : update_id SeasonStat.id k
                      (assign_counters form (pretty (PlayerInfo.id p))
                                       season_stat_counters) table
                    = update_id SeasonStat.id k (assign_season_row form) table).
    { unfold update_id. apply list_fmap_ext. intros i r Hi.
      destruct (decide (SeasonStat.id r = k)) as [Hr|]; [|reflexivity].
      unfold assign_season_row. rewrite (Hrow r); [reflexivity| |exact Hr].
      by apply list_elem_of_lookup_2 in Hi. }
    rewrite Hstep, IH.
    + f_equal. apply update_id_twice.
      * intros r. apply assign_season_row_keys.
      * apply assign_season_row_idem.
    + intros q Hq. destruct (Hcov q) as (kq & Hkq & Hrowq); [by right|].
      exists kq. split; [exact Hkq|].
      intros r Hr Hid. unfold update_id in Hr.
      apply list_elem_of_fmap in Hr as (r0 & -> & Hr0).
      destruct (decide (SeasonStat.id r0 = k)).
      * destruct (assign_season_row_keys form r0) as [E1 E2].
        rewrite E2. apply Hrowq; [exact Hr0|]. by rewrite <- E1.
      * by apply Hrowq.
Qed.

(** *** Remote media listing *)

(** A decoded document that is not an object has no [get]. *)
Lemma json_get_not_dict (j : json) (key : string) (default : json) :
  (forall entries, j <> JDict entries) -> json_get j key default = None.
Proof. intros H. destruct j; try reflexivity. by destruct (H entries). Qed.

(** C9: for every year and configuration, the media listing returns the
    empty list when the read token is not configured (absent or empty),
    when the HTTP client is missing, when the request fails (connection
    error, timeout), when the status is an error status, when the body is
    not JSON, and when any statement of the listing raises on a malformed
    document (for instance a body that is not an object); no error is
    propagated, the listing being a total function. *)
Theorem media_listing_degrades_to_empty (cfg : blob_config) (year : Z) :
  (VERCEL_BLOB_READ_TOKEN cfg = None \/ VERCEL_BLOB_READ_TOKEN cfg = Some "" \/
   app_requests cfg = None \/
   exists token get,
     VERCEL_BLOB_READ_TOKEN cfg = Some token /\ app_requests cfg = Some get /\
     let outcome := get (BLOB_PREFIX cfg +:+ "/" +:+ pretty year +:+ "/") token in
     outcome = ConnectionFailed \/ outcome = TimedOut \/
     (exists status body, outcome = Responded status body /\
        (400 <= status < 600 \/ body = None \/
         (exists data, body = Some data /\ forall entries, data <> JDict entries) \/
         blobs_of_response outcome = None))) ->
  _list_vercel_blobs_for_year cfg year = [].
Proof.
  unfold _list_vercel_blobs_for_year.
  intros [-> | [-> | [Hreq | (token & get & -> & -> & Hout)]]].
  - reflexivity.
  - by destruct (app_requests cfg).
  - rewrite Hreq. by destruct (VERCEL_BLOB_READ_TOKEN cfg).
  - destruct (String.eqb token ""); [reflexivity|].
    simpl in Hout.
    destruct Hout as [-> | [-> | (status & body & -> & Hfail)]]; try reflexivity.
    destruct Hfail as [Hst | [-> | [(data & -> & Hdata) | ->]]]; try reflexivity.
    + unfold blobs_of_response.
      assert ((400 <=? status)%Z && (status <? 600)%Z = true) as ->; [|reflexivity].
      apply andb_true_intro. split; [apply Z.leb_le | apply Z.ltb_lt]; lia.
    + unfold blobs_of_response. by destruct ((400 <=? status)%Z && (status <? 600)%Z).
    + unfold blobs_of_response.
      destruct ((400 <=? status)%Z && (status <? 600)%Z); [reflexivity|].
      simpl. by rewrite (json_get_not_dict data "blobs" (JList []) Hdata).
Qed.

Lemma media_listing_degrades_to_empty_witness :
  _list_vercel_blobs_for_year
    (mk_blob_config (Some "secret") "images"
       (Some (fun _ _ => Responded 200 (Some (JList [JStr "a.png"]))))) 2025 = [].
Proof.
  apply media_listing_degrades_to_empty.
  right. right. right. exists "secret", (fun _ _ => Responded 200 (Some (JList [JStr "a.png"]))).
  split; [reflexivity|]. split; [reflexivity|].
  right. right. exists 200, (Some (JList [JStr "a.png"])).
  split; [reflexivity|]. right. right. left.
  exists (JList [JStr "a.png"]). split; [reflexivity|]. discriminate.
Defined.

(** Shapes of malformed documents on which the listing raises, and a
    well-formed one on which it does not. *)
Example media_listing_examples :
  let get j := fun (_ _ : string) => Responded 200 (Some j) in
  let cfg j := mk_blob_config (Some "t") "images" (Some (get j)) in
  _list_vercel_blobs_for_year (cfg (JDict [("blobs", JInt 5)])) 2025 = [] /\
  _list_vercel_blobs_for_year (cfg (JDict [("blobs", JList [JStr "x.png"])])) 2025 = [] /\
  _list_vercel_blobs_for_year
    (cfg (JDict [("blobs", JList [JDict [("pathname", JInt 7)]])])) 2025 = [] /\
  _list_vercel_blobs_for_year
    (cfg (JDict [("blobs",
            JList [JDict [("pathname", JStr "images/2025/a.PNG");
                          ("url", JStr "https://blob/a.PNG");
                          ("uploadedAt", JStr "2025-01-01")];
                   JDict [("pathname", JStr "images/2025/notes.txt")]])])) 2025
  = [MediaItem.mk "a.PNG" (JStr "https://blob/a.PNG") (JStr "2025-01-01")].
Proof. repeat split; vm_compute; reflexivity. Qed.

(** *** Season backfill *)

Ltac decide_consistent :=
  apply (bool_decide_unpack _); vm_compute; exact I.

(** C1: the claim fails on the code.  Viewing the statistics after Bob has
    joined creates his 2026 row, and the backfill then copies the aggregate
    counters into every 2026 row of the mapping: Ann's row, which existed
    before the call with counters 5/2/1/0/0, comes out with her aggregate
    counters 3/1/0/0/0. *)
Example backfill_overwrites_existing_season_rows :
  consistent late_joiner_db /\
  lookup_id SeasonStat.id 1 (season_stat late_joiner_db)
    = Some (SeasonStat.mk 1 1 2026 5 2 1 0 0) /\
  (fst <$> stats admin GET ∅ ∅ late_joiner_db)
    = Some (mkDB [PlayerInfo.new 1 "Ann"; PlayerInfo.new 2 "Bob"]
                 [PlayerStat.mk 1 "Ann" 3 1 0 0 0 0;
                  PlayerStat.mk 2 "Bob" 0 0 0 0 0 0]
                 [SeasonStat.mk 1 1 2026 3 1 0 0 0;
                  SeasonStat.mk 2 2 2026 0 0 0 0 0]).
Proof.
  split; [decide_consistent|]. split; vm_compute; reflexivity.
Qed.

(** *** Deleting a player *)

(** C6: the claim fails on the code.  Ann has a 2026 row; deleting her
    writes the deletion of the player row when the aggregate row is looked
    up, while her season row still references it, so the request ends in an
    integrity error and nothing is removed. *)
Example delete_player_with_season_row_fails :
  consistent one_player_db /\
  delete_player admin 1 one_player_db = None /\
  handle (fun _ => None) (ReqDeletePlayer admin 1) one_player_db
    = (one_player_db, ServerError).
Proof.
  split; [decide_consistent|]. split; vm_compute; reflexivity.
Qed.

(** *** Objects, keys and dictionaries *)

Section Objects.
Context {A : Type} (key : A -> Z).

Lemma lookup_id_Some (k : Z) (table : list A) (r : A) :
  lookup_id key k table = Some r -> r ∈ table /\ key r = k.
Proof.
  unfold lookup_id. intros [Hin Hk]%find_some.
  split; [exact (proj2 (list_elem_of_In _ _) Hin)|].
  simpl in Hk. by apply bool_decide_eq_true in Hk.
Qed.

Lemma lookup_id_None (k : Z) (table : list A) :
  lookup_id key k table = None <-> k ∉ key <$> table.
Proof.
  unfold lookup_id. split.
  - intros Hnone [r [-> Hr]]%list_elem_of_fmap_1.
    apply list_elem_of_In in Hr.
    pose proof (find_none _ _ Hnone r Hr) as H. simpl in H.
    by apply bool_decide_eq_false in H.
  - intros Hk. destruct (List.find _ table) as [r|] eqn:E; [|reflexivity].
    apply find_some in E as [Hin Hr]. apply bool_decide_eq_true in Hr.
    destruct Hk. rewrite <- Hr. apply list_elem_of_fmap_2.
    exact (proj2 (list_elem_of_In _ _) Hin).
Qed.

Lemma lookup_id_is_Some (k : Z) (table : list A) :
  k ∈ key <$> table -> is_Some (lookup_id key k table).
Proof.
  intros Hk. destruct (lookup_id key k table) eqn:E; [by eexists|].
  by apply lookup_id_None in E.
Qed.

Lemma lookup_id_elem (table : list A) (r : A) :
  NoDup (key <$> table) -> r ∈ table -> lookup_id key (key r) table = Some r.
Proof.
  induction table as [|x table IH]; intros Hnd Hr; [by apply elem_of_nil in Hr|].
  simpl in Hnd. apply NoDup_cons in Hnd as [Hx Hnd].
  unfold lookup_id. simpl. destruct (bool_decide (key x = key r)) eqn:E.
  - apply bool_decide_eq_true in E.
    apply elem_of_cons in Hr as [->|Hr]; [reflexivity|].
    destruct Hx. rewrite E. by apply list_elem_of_fmap_2.
  - apply bool_decide_eq_false in E.
    apply elem_of_cons in Hr as [->|Hr]; [done|]. by apply IH.
Qed.

Lemma lookup_id_app (k : Z) (t1 t2 : list A) :
  lookup_id key k (t1 ++ t2)
  = match lookup_id key k t1 with
    | Some r => Some r
    | None => lookup_id key k t2
    end.
Proof.
  unfold lookup_id. induction t1 as [|x t1 IH]; simpl; [reflexivity|].
  by destruct (bool_decide (key x = k)).
Qed.

Lemma lookup_id_update (k k' : Z) (f : A -> A) (table : list A) :
  (forall r, key (f r) = key r) ->
  lookup_id key k (update_id key k' f table)
  = (if decide (k = k') then f else id) <$> lookup_id key k table.
Proof.
  intros Hkey. unfold lookup_id, update_id.
  induction table as [|x table IH]; simpl; [reflexivity|].
  destruct (decide (key x = k')) as [Hx|Hx].
  - rewrite Hkey. destruct (bool_decide (key x = k)) eqn:E; [|exact IH].
    apply bool_decide_eq_true in E. simpl.
    by rewrite decide_True by congruence.
  - destruct (bool_decide (key x = k)) eqn:E; [|exact IH].
    apply bool_decide_eq_true in E. simpl.
    by rewrite decide_False by congruence.
Qed.

Lemma update_id_fmap {B : Type} (g : A -> B) (k : Z) (f : A -> A) (table : list A) :
  (forall r, g (f r) = g r) -> g <$> update_id key k f table = g <$> table.
Proof.
  intros Hg. unfold update_id. rewrite <- list_fmap_compose.
  apply list_fmap_ext. intros _ r _. simpl.
  by destruct (decide (key r = k)).
Qed.

Lemma update_id_elem (k : Z) (f : A -> A) (table : list A) (r : A) :
  r ∈ update_id key k f table ->
  exists r0, r0 ∈ table /\ (r = r0 \/ (key r0 = k /\ r = f r0)).
Proof.
  unfold update_id. intros (r0 & -> & Hr0)%list_elem_of_fmap_1.
  exists r0. split; [exact Hr0|]. destruct (decide (key r0 = k)); auto.
Qed.

Lemma update_id_other (k : Z) (f : A -> A) (table : list A) (r : A) :
  r ∈ table -> key r <> k -> r ∈ update_id key k f table.
Proof.
  intros Hr Hk. unfold update_id.
  apply list_elem_of_fmap. exists r. by rewrite decide_False.
Qed.

Lemma delete_id_elem (k : Z) (table : list A) (r : A) :
  r ∈ delete_id key k table <-> key r <> k /\ r ∈ table.
Proof. unfold delete_id. by rewrite list_elem_of_filter. Qed.

Lemma delete_id_lookup (k : Z) (table : list A) :
  lookup_id key k (delete_id key k table) = None.
Proof.
  apply lookup_id_None. intros (r & Hk & Hr)%list_elem_of_fmap_1.
  apply delete_id_elem in Hr as [Hne _]. congruence.
Qed.

Lemma NoDup_fmap_filter {B : Type} (g : A -> B) (P : A -> Prop)
    `{forall x, Decision (P x)} (table : list A) :
  NoDup (g <$> table) -> NoDup (g <$> filter P table).
Proof.
  induction table as [|x table IH]; [done|].
  simpl. intros [Hx Hnd]%NoDup_cons. rewrite filter_cons.
  destruct (decide (P x)); [|by apply IH].
  simpl. apply NoDup_cons. split; [|by apply IH].
  intros (y & Hy & Hin)%list_elem_of_fmap_1.
  apply list_elem_of_filter in Hin as [_ Hin].
  apply Hx. rewrite Hy. by apply list_elem_of_fmap_2.
Qed.

Lemma delete_id_absent (k : Z) (table : list A) :
  k ∉ key <$> table -> delete_id key k table = table.
Proof.
  intros Hk. unfold delete_id. induction table as [|x table IH]; [done|].
  rewrite filter_cons. simpl in Hk.
  apply not_elem_of_cons in Hk as [Hx Hk].
  rewrite decide_True by congruence. f_equal. by apply IH.
Qed.
End Objects.

Lemma NoDup_fmap_inj_on {A B : Type} (f : A -> B) (l : list A) (x y : A) :
  NoDup (f <$> l) -> x ∈ l -> y ∈ l -> f x = f y -> x = y.
Proof.
  induction l as [|a l IH]; intros Hnd Hx Hy Hf; [by apply elem_of_nil in Hx|].
  simpl in Hnd. apply NoDup_cons in Hnd as [Ha Hnd].
  apply elem_of_cons in Hx as [->|Hx]; apply elem_of_cons in Hy as [->|Hy].
  - reflexivity.
  - destruct Ha. rewrite Hf. by apply list_elem_of_fmap_2.
  - destruct Ha. rewrite <- Hf. by apply list_elem_of_fmap_2.
  - by apply IH.
Qed.

Lemma fresh_id_gt (keys : list Z) (k : Z) : k ∈ keys -> k < fresh_id keys.
Proof.
  unfold fresh_id. induction keys as [|x keys IH]; intros Hk;
    [by apply elem_of_nil in Hk|].
  simpl. apply elem_of_cons in Hk as [->|Hk]; [lia|].
  specialize (IH Hk). lia.
Qed.

Lemma fresh_id_notin (keys : list Z) : fresh_id keys ∉ keys.
Proof. intros H%fresh_id_gt. lia. Qed.

Section DictFacts.
Context {K V : Type} `{EqDecision K}.

Lemma dict_get_set (k k' : K) (v : V) (d : list (K * V)) :
  Dict.get k (Dict.set k' v d)
  = if decide (k = k') then Some v else Dict.get k d.
Proof.
  induction d as [|[k0 v0] d IH]; simpl.
  - by destruct (decide (k = k')).
  - destruct (decide (k' = k0)) as [->|Hne]; simpl.
    + by destruct (decide (k = k0)).
    + destruct (decide (k = k0)) as [->|]; [|exact IH].
      by rewrite decide_False by congruence.
Qed.

Lemma dict_get_elem (k : K) (v : V) (d : list (K * V)) :
  Dict.get k d = Some v -> (k, v) ∈ d.
Proof.
  induction d as [|[k0 v0] d IH]; simpl; [discriminate|].
  destruct (decide (k = k0)) as [->|].
  - intros [= ->]. left.
  - intros H. right. by apply IH.
Qed.

Lemma dict_set_Forall (P : K * V -> Prop) (k : K) (v : V) (d : list (K * V)) :
  P (k, v) -> Forall P d -> Forall P (Dict.set k v d).
Proof.
  intros Hkv. induction 1 as [|[k0 v0] d Hx Hd IH]; simpl.
  - by repeat constructor.
  - destruct (decide (k = k0)); constructor; auto.
Qed.

Lemma dict_get_keys (k : K) (d : list (K * V)) :
  Dict.get k d = None <-> k ∉ Dict.keys d.
Proof.
  unfold Dict.keys. induction d as [|[k0 v0] d IH]; simpl.
  - split; [intros _; apply not_elem_of_nil | done].
  - destruct (decide (k = k0)) as [->|Hne].
    + split; [discriminate|]. intros H. destruct H. left.
    + rewrite IH. rewrite not_elem_of_cons. tauto.
Qed.

Lemma dict_set_keys_NoDup (k : K) (v : V) (d : list (K * V)) :
  NoDup (Dict.keys d) -> NoDup (Dict.keys (Dict.set k v d)).
Proof.
  unfold Dict.keys. induction d as [|[k0 v0] d IH]; simpl; intros Hnd.
  - apply NoDup_singleton.
  - destruct (decide (k = k0)) as [->|Hne]; [exact Hnd|].
    simpl. apply NoDup_cons in Hnd as [Hk0 Hnd]. apply NoDup_cons. split; [|auto].
    intros Hin. apply Hk0. clear IH Hnd Hk0.
    induction d as [|[k1 v1] d IH]; simpl in *.
    + apply list_elem_of_singleton in Hin. congruence.
    + destruct (decide (k = k1)) as [->|]; simpl in *; [exact Hin|].
      apply elem_of_cons in Hin as [->|Hin]; [left | right; auto].
Qed.
End DictFacts.

Section IndexRows.
Context {A K : Type} `{EqDecision K} (key : A -> K) (ref : A -> Z).

Lemma index_rows_get_None (k : K) (rows : list A) (d : list (K * Z)) :
  Dict.get k (index_rows key ref rows d) = None
  <-> (k ∉ key <$> rows) /\ Dict.get k d = None.
Proof.
  revert d. induction rows as [|row rows IH]; intros d; simpl.
  - split; [intros H; split; [apply not_elem_of_nil | exact H] | tauto].
  - rewrite IH, dict_get_set, not_elem_of_cons.
    destruct (decide (k = key row)); split; intros H; try tauto.
    destruct H as [_ H]; discriminate H.
Qed.

Lemma index_rows_Forall (P : K * Z -> Prop) (rows : list A) (d : list (K * Z)) :
  Forall P d -> Forall (fun row => P (key row, ref row)) rows ->
  Forall P (index_rows key ref rows d).
Proof.
  revert d. induction rows as [|row rows IH]; intros d Hd Hrows; simpl; [exact Hd|].
  apply Forall_cons in Hrows as [Hrow Hrows].
  apply IH; [|exact Hrows]. by apply dict_set_Forall.
Qed.

Lemma index_rows_keys_NoDup (rows : list A) (d : list (K * Z)) :
  NoDup (Dict.keys d) -> NoDup (Dict.keys (index_rows key ref rows d)).
Proof.
  revert d. induction rows as [|row rows IH]; intros d Hd; simpl; [exact Hd|].
  apply IH. by apply dict_set_keys_NoDup.
Qed.
End IndexRows.

(** *** Consistency of a rewritten table *)

Lemma consistent_with_player_stat (db : DB) (table : list PlayerStat.t) :
  consistent db ->
  NoDup (PlayerStat.id <$> table) -> NoDup (PlayerStat.player <$> table) ->
  consistent (with_player_stat table db).
Proof. intros []. by constructor. Qed.

Lemma consistent_with_season_stat (db : DB) (table : list SeasonStat.t) :
  consistent db ->
  NoDup (SeasonStat.id <$> table) -> NoDup (SeasonStat.pair <$> table) ->
  Forall (fun s => SeasonStat.player_id s ∈ (PlayerInfo.id <$> player_info db)) table ->
  consistent (with_season_stat table db).
Proof. intros []. by constructor. Qed.

Lemma flush_consistent (db : DB) : consistent db -> flush db = Some db.
Proof. intros H. unfold flush. by rewrite decide_True. Qed.

Lemma flush_Some (db db' : DB) : flush db = Some db' -> db' = db /\ consistent db.
Proof. unfold flush. destruct (decide (consistent db)); [|discriminate]. by intros [= <-]. Qed.

(** *** Ensure-aggregate *)

Lemma new_player_stats_names (keys : list Z) (names : list string) :
  PlayerStat.player <$> new_player_stats keys names = names.
Proof.
  revert keys. induction names as [|nm rest IH]; intros keys; simpl; [done|].
  by rewrite IH.
Qed.

Lemma new_player_stats_zero (keys : list Z) (names : list string) :
  Forall (fun r => r = PlayerStat.new (PlayerStat.id r) (PlayerStat.player r))
         (new_player_stats keys names).
Proof.
  revert keys. induction names as [|nm rest IH]; intros keys; simpl;
    constructor; [reflexivity | apply IH].
Qed.

Lemma new_player_stats_keys (keys : list Z) (names : list string) :
  NoDup keys -> NoDup (keys ++ (PlayerStat.id <$> new_player_stats keys names)).
Proof.
  revert keys. induction names as [|nm rest IH]; intros keys Hnd; simpl.
  - by rewrite app_nil_r.
  - rewrite <- Permutation_middle.
    assert (Hk : NoDup (fresh_id keys :: keys)).
    { apply NoDup_cons. split; [apply fresh_id_notin | exact Hnd]. }
    exact (IH _ Hk).
Qed.

Lemma new_player_stats_nil (keys : list Z) (names : list string) :
  new_player_stats keys names = [] <-> names = [].
Proof. destruct names; simpl; split; intros; done. Qed.

(** What one call of ensure-aggregate does on a consistent database. *)
Lemma ensure_player_spec (players : list PlayerInfo.t) (db : DB) :
  consistent db -> NoDup (PlayerInfo.name <$> players) ->
  let absent := filter (fun nm => nm ∉ (PlayerStat.player <$> player_stat db))
                       (PlayerInfo.name <$> players) in
  exists db' m new_rows,
    _ensure_player_stat_rows players db
      = Some (db', m, negb (bool_decide (absent = []))) /\
    db' = with_player_stat (player_stat db ++ new_rows) db /\
    PlayerStat.player <$> new_rows = absent /\
    Forall (fun r => r = PlayerStat.new (PlayerStat.id r) (PlayerStat.player r))
           new_rows /\
    consistent db' /\
    Forall (fun e => exists row,
                lookup_id PlayerStat.id e.2 (player_stat db') = Some row /\
                PlayerStat.player row = e.1) m /\
    (forall nm, nm ∈ (PlayerInfo.name <$> players) -> is_Some (Dict.get nm m)).
Proof.
  intros Hdb Hnames absent. unfold _ensure_player_stat_rows. cbv zeta.
  set (table := player_stat db).
  set (idx := index_rows PlayerStat.player PlayerStat.id table []).
  assert (Hidx : forall nm, Dict.get nm idx = None
                            <-> nm ∉ (PlayerStat.player <$> table)).
  { intros nm. unfold idx. rewrite index_rows_get_None. simpl. tauto. }
  assert (Habsent : filter (fun nm => Dict.get nm idx = None)
                           (PlayerInfo.name <$> players) = absent)
    by apply list_filter_iff, Hidx.
  rewrite Habsent.
  set (new_rows := new_player_stats (PlayerStat.id <$> table) absent).
  assert (Hcreated : bool_decide (new_rows = []) = bool_decide (absent = [])).
  { apply bool_decide_ext, new_player_stats_nil. }
  rewrite Hcreated.
  assert (Hcons : consistent (with_player_stat (table ++ new_rows) db)).
  { apply consistent_with_player_stat; [exact Hdb| |].
    - rewrite fmap_app. apply new_player_stats_keys, Hdb.
    - rewrite fmap_app. unfold new_rows. rewrite new_player_stats_names.
      apply NoDup_app. split; [apply Hdb|]. split.
      + intros nm Hin Habs. unfold absent in Habs.
        apply list_elem_of_filter in Habs as [Habs _]. by apply Habs.
      + unfold absent. by apply NoDup_filter. }
  assert (Hvalid : forall (rows : list PlayerStat.t) d,
    Forall (fun e => exists row,
       lookup_id PlayerStat.id e.2 (table ++ new_rows) = Some row /\
       PlayerStat.player row = e.1) d ->
    (forall r, r ∈ rows -> r ∈ (table ++ new_rows)) ->
    Forall (fun e => exists row,
       lookup_id PlayerStat.id e.2 (table ++ new_rows) = Some row /\
       PlayerStat.player row = e.1)
      (index_rows PlayerStat.player PlayerStat.id rows d)).
  { intros rows d Hd Hsub. apply index_rows_Forall; [exact Hd|].
    apply Forall_forall. intros r Hr. exists r. simpl. split; [|reflexivity].
    apply lookup_id_elem; [apply Hcons | by apply Hsub]. }
  assert (Hidx_valid : Forall (fun e => exists row,
       lookup_id PlayerStat.id e.2 (table ++ new_rows) = Some row /\
       PlayerStat.player row = e.1) idx).
  { apply Hvalid; [constructor|]. intros r Hr. apply elem_of_app. by left. }
  destruct (bool_decide (absent = [])) eqn:Habs; simpl.
  - apply bool_decide_eq_true in Habs.
    assert (Hnew : new_rows = []) by (by apply new_player_stats_nil).
    exists db, idx, []. rewrite Hnew in *. rewrite app_nil_r in *.
    assert (Hdb' : db = with_player_stat table db) by (by destruct db).
    split_and!; try done.
    intros nm Hnm. destruct (Dict.get nm idx) eqn:E; [by eexists|].
    apply Hidx in E. exfalso.
    eapply (filter_nil_not_elem_of _ _ nm Habs); [exact E | exact Hnm].
  - rewrite (flush_consistent _ Hcons). simpl.
    exists (with_player_stat (table ++ new_rows) db),
           (index_rows PlayerStat.player PlayerStat.id new_rows idx), new_rows.
    split_and!; try done.
    + apply new_player_stats_names.
    + apply new_player_stats_zero.
    + simpl. apply Hvalid; [exact Hidx_valid|].
      intros r Hr. apply elem_of_app. by right.
    + intros nm Hnm.
      destruct (Dict.get nm (index_rows PlayerStat.player PlayerStat.id new_rows idx))
        eqn:E; [by eexists|].
      apply index_rows_get_None in E as [E1 E2]. apply Hidx in E2.
      exfalso. apply E1. unfold new_rows. rewrite new_player_stats_names.
      unfold absent. apply list_elem_of_filter. by split.
Qed.

Lemma filter_none {A : Type} (P : A -> Prop) `{forall x, Decision (P x)}
    (l : list A) :
  (forall x, x ∈ l -> ~ P x) -> filter P l = [].
Proof.
  induction l as [|x l IH]; intros Hl; [reflexivity|].
  rewrite filter_cons, decide_False by (apply Hl; left).
  apply IH. intros y Hy. apply Hl. by right.
Qed.




(** *** Ensure-season *)

Lemma dict_get_set_is_Some {K V : Type} `{EqDecision K} (k k' : K) (v : V)
    (d : list (K * V)) :
  is_Some (Dict.get k d) -> is_Some (Dict.get k (Dict.set k' v d)).
Proof.
  intros H. rewrite dict_get_set. by destruct (decide (k = k')).
Qed.

(** One more row keeps the loop invariant. *)
Lemma season_loop_step (year : Z) (ids : list Z) (table : list SeasonStat.t)
    (keys : list Z) (d : list (Z * Z)) (missing : list SeasonStat.t) (pid : Z) :
  season_loop_inv year ids table keys d missing ->
  pid ∈ ids -> Dict.get pid d = None ->
  season_loop_inv year ids table (fresh_id keys :: keys)
    (Dict.set pid (fresh_id keys) d)
    (missing ++ [SeasonStat.new (fresh_id keys) pid year]).
Proof.
  intros [Hkeys Hnd Hvalid Hcomp Hpairs Hnew] Hpid Hnone.
  set (k := fresh_id keys). set (stat := SeasonStat.new k pid year).
  assert (Hsub : forall row, row ∈ (table ++ missing) ->
                             row ∈ (table ++ missing ++ [stat])).
  { intros row Hrow. rewrite app_assoc. apply elem_of_app. by left. }
  assert (Hstat : stat ∈ (table ++ missing ++ [stat])).
  { rewrite app_assoc. apply elem_of_app. right. left. }
  constructor.
  - rewrite app_assoc, fmap_app. simpl.
    rewrite <- Permutation_cons_append. by constructor.
  - apply NoDup_cons. split; [apply fresh_id_notin | exact Hnd].
  - apply dict_set_Forall.
    + exists stat. by split_and!.
    + eapply Forall_impl; [exact Hvalid|].
      intros e (row & Hrow & Hrest). exists row. split; [by apply Hsub | exact Hrest].
  - intros row Hrow Hyear Hin. rewrite dict_get_set.
    destruct (decide (SeasonStat.player_id row = pid)); [by eexists|].
    rewrite app_assoc in Hrow. apply elem_of_app in Hrow as [Hrow|Hrow].
    + by apply Hcomp.
    + apply list_elem_of_singleton in Hrow. subst row. done.
  - rewrite app_assoc, fmap_app. simpl.
    apply NoDup_app. split; [exact Hpairs|]. split; [|apply NoDup_singleton].
    intros pr Hpr Hstat'. apply list_elem_of_singleton in Hstat'. subst pr.
    apply list_elem_of_fmap_1 in Hpr as (row & Hpair & Hrow).
    unfold SeasonStat.pair in Hpair. simpl in Hpair. injection Hpair as Hp Hy.
    destruct (Hcomp row Hrow) as [v Hv]; [done | by rewrite <- Hp |].
    rewrite <- Hp in Hv. congruence.
  - apply Forall_app. split; [exact Hnew|]. by repeat constructor.
Qed.

(** The loop establishes the invariant for its result and covers every
    player it went through. *)
Lemma season_missing_inv (year : Z) (ids : list Z) (table : list SeasonStat.t)
    (players : list PlayerInfo.t) (keys : list Z) (d : list (Z * Z))
    (missing : list SeasonStat.t) :
  season_loop_inv year ids table keys d missing ->
  (forall p, p ∈ players -> PlayerInfo.id p ∈ ids) ->
  let r := season_missing year players keys d missing in
  (exists keys', season_loop_inv year ids table keys' r.1 r.2) /\
  (forall k, is_Some (Dict.get k d) -> is_Some (Dict.get k r.1)) /\
  (forall p, p ∈ players -> is_Some (Dict.get (PlayerInfo.id p) r.1)) /\
  (exists more, r.2 = missing ++ more).
Proof.
  revert keys d missing. induction players as [|p rest IH];
    intros keys d missing Hinv Hids; simpl.
  - split_and!; [by exists keys | done | | exists []; by rewrite app_nil_r].
    intros p Hp. by apply elem_of_nil in Hp.
  - destruct (Dict.get (PlayerInfo.id p) d) as [v|] eqn:Hget.
    + destruct (IH keys d missing Hinv) as (Hinv' & Hmono & Hcov & Hmore).
      { intros q Hq. apply Hids. by right. }
      split_and!; try done.
      intros q [->|Hq]%elem_of_cons; [|by apply Hcov].
      apply Hmono. rewrite Hget. by eexists.
    + pose proof (season_loop_step year ids table keys d missing
                    (PlayerInfo.id p) Hinv (Hids p ltac:(left)) Hget) as Hstep.
      destruct (IH _ _ _ Hstep) as (Hinv' & Hmono & Hcov & Hmore).
      { intros q Hq. apply Hids. by right. }
      split_and!; try done.
      * intros k Hk. by apply Hmono, dict_get_set_is_Some.
      * intros q [->|Hq]%elem_of_cons; [|by apply Hcov].
        apply Hmono. rewrite dict_get_set, decide_True by done. by eexists.
      * destruct Hmore as [more Hmore]. exists (SeasonStat.new (fresh_id keys) (PlayerInfo.id p) year :: more).
        rewrite Hmore. by rewrite <- app_assoc.
Qed.

(** What one call of ensure-season does on a consistent database, for
    players of its roster. *)
Lemma ensure_season_spec (players : list PlayerInfo.t) (year : Z) (db : DB) :
  consistent db -> (forall p, p ∈ players -> p ∈ player_info db) ->
  exists db' m new_rows,
    _ensure_season_stat_rows players year db
      = Some (db', m, negb (bool_decide (new_rows = []))) /\
    db' = with_season_stat (season_stat db ++ new_rows) db /\
    consistent db' /\
    Forall (fun r => r = SeasonStat.new (SeasonStat.id r) (SeasonStat.player_id r) year
                     /\ SeasonStat.player_id r ∈ (PlayerInfo.id <$> players))
           new_rows /\
    Forall (fun e => exists row,
                lookup_id SeasonStat.id e.2 (season_stat db') = Some row /\
                SeasonStat.player_id row = e.1 /\
                SeasonStat.season_year row = year) m /\
    (forall p, p ∈ players -> is_Some (Dict.get (PlayerInfo.id p) m)).
Proof.
  intros Hdb Hsub. unfold _ensure_season_stat_rows.
  assert (Hself : db = with_season_stat (season_stat db ++ []) db).
  { rewrite app_nil_r. by destruct db. }
  destruct (bool_decide (players = [])) eqn:Hnil.
  - apply bool_decide_eq_true in Hnil. subst players.
    exists db, [], []. split_and!; try done.
    intros p Hp. by apply elem_of_nil in Hp.
  - cbv zeta.
    set (ids := PlayerInfo.id <$> players).
    set (table := season_stat db).
    set (existing := filter _ table).
    set (d0 := index_rows SeasonStat.player_id SeasonStat.id existing []).
    assert (Hexisting : forall row, row ∈ existing <->
              (SeasonStat.season_year row = year /\ SeasonStat.player_id row ∈ ids)
              /\ row ∈ table).
    { intros row. unfold existing. by rewrite list_elem_of_filter. }
    assert (Hinit : season_loop_inv year ids table (SeasonStat.id <$> table) d0 []).
    { constructor.
      - by rewrite app_nil_r.
      - apply Hdb.
      - apply index_rows_Forall; [constructor|].
        apply Forall_forall. intros row Hrow. apply Hexisting in Hrow as [[Hy _] Hin].
        exists row. rewrite app_nil_r. by split_and!.
      - intros row Hrow Hy Hin. rewrite app_nil_r in Hrow.
        destruct (Dict.get (SeasonStat.player_id row) d0) eqn:E; [by eexists|].
        apply index_rows_get_None in E as [E _]. destruct E.
        apply list_elem_of_fmap_2. by apply Hexisting.
      - rewrite app_nil_r. apply Hdb.
      - constructor. }
    destruct (season_missing_inv year ids table players _ _ _ Hinit)
      as ((keys' & Hinv) & _ & Hcov & _).
    { intros p Hp. by apply list_elem_of_fmap_2. }
    destruct (season_missing year players (SeasonStat.id <$> table) d0 [])
      as [d missing] eqn:Hloop.
    simpl in Hinv, Hcov.
    destruct Hinv as [Hkeys Hnd Hvalid Hcomp Hpairs Hnew].
    assert (Hcons : consistent (with_season_stat (table ++ missing) db)).
    { apply consistent_with_season_stat; [exact Hdb| | exact Hpairs |].
      - by rewrite <- Hkeys.
      - apply Forall_app. split; [apply Hdb|].
        eapply Forall_impl; [exact Hnew|]. intros r [_ Hr]. simpl in Hr.
        apply list_elem_of_fmap_1 in Hr as (p & -> & Hp).
        by apply list_elem_of_fmap_2, Hsub. }
    assert (Hlook : Forall (fun e => exists row,
                lookup_id SeasonStat.id e.2 (table ++ missing) = Some row /\
                SeasonStat.player_id row = e.1 /\
                SeasonStat.season_year row = year) d).
    { eapply Forall_impl; [exact Hvalid|].
      intros e (row & Hrow & Hid & Hrest). exists row. split; [|exact Hrest].
      rewrite <- Hid. apply lookup_id_elem; [|exact Hrow]. by rewrite <- Hkeys. }
    destruct (bool_decide (missing = [])) eqn:Hmiss; simpl.
    + apply bool_decide_eq_true in Hmiss. subst missing.
      exists db, d, []. rewrite app_nil_r in *. split_and!; try done.
    + rewrite (flush_consistent _ Hcons). simpl.
      exists (with_season_stat (table ++ missing) db), d, missing.
      rewrite Hmiss. split_and!; done.
Qed.

(** *** Rewriting counters keeps the constraints *)

Lemma season_keys_lists (t t' : list SeasonStat.t) :
  season_keys <$> t' = season_keys <$> t ->
  SeasonStat.id <$> t' = SeasonStat.id <$> t /\
  SeasonStat.pair <$> t' = SeasonStat.pair <$> t /\
  SeasonStat.player_id <$> t' = SeasonStat.player_id <$> t.
Proof.
  intros H.
  assert (Hg : forall {B} (g : Z * Z * Z -> B) (u : list SeasonStat.t),
             (g ∘ season_keys) <$> u = g <$> (season_keys <$> u))
    by (intros; apply list_fmap_compose).
  split_and!.
  - change SeasonStat.id with ((fun k : Z * Z * Z => k.1.1) ∘ season_keys).
    by rewrite !Hg, H.
  - change SeasonStat.pair with ((fun k : Z * Z * Z => (k.1.2, k.2)) ∘ season_keys).
    by rewrite !Hg, H.
  - change SeasonStat.player_id with ((fun k : Z * Z * Z => k.1.2) ∘ season_keys).
    by rewrite !Hg, H.
Qed.

Lemma consistent_season_keys (db : DB) (t' : list SeasonStat.t) :
  consistent db -> season_keys <$> t' = season_keys <$> season_stat db ->
  consistent (with_season_stat t' db).
Proof.
  intros Hdb H. destruct (season_keys_lists _ _ H) as (Hid & Hpair & Hpid).
  apply consistent_with_season_stat; [exact Hdb| | |].
  - rewrite Hid. apply Hdb.
  - rewrite Hpair. apply Hdb.
  - pose proof (fk_season_player db Hdb) as Hfk.
    apply (Forall_fmap SeasonStat.player_id
             (fun pid => pid ∈ (PlayerInfo.id <$> player_info db))).
    rewrite Hpid. by apply Forall_fmap.
Qed.

Lemma consistent_player_keys (db : DB) (t' : list PlayerStat.t) :
  consistent db ->
  PlayerStat.id <$> t' = PlayerStat.id <$> player_stat db ->
  PlayerStat.player <$> t' = PlayerStat.player <$> player_stat db ->
  consistent (with_player_stat t' db).
Proof.
  intros Hdb Hid Hp. apply consistent_with_player_stat; [exact Hdb| |].
  - rewrite Hid. apply Hdb.
  - rewrite Hp. apply Hdb.
Qed.

Lemma copy_counters_keys (base : PlayerStat.t) (s : SeasonStat.t) :
  season_keys (copy_counters base s) = season_keys s.
Proof. reflexivity. Qed.

Lemma assign_season_row_season_keys (form : params) (s : SeasonStat.t) :
  season_keys (assign_season_row form s) = season_keys s.
Proof.
  destruct (assign_season_stat form (pretty (SeasonStat.player_id s)) s)
    as (_ & H1 & H2 & H3).
  unfold season_keys, assign_season_row. by rewrite H1, H2, H3.
Qed.

Lemma season_player_is_Some (players : list PlayerInfo.t) (stat : SeasonStat.t) :
  SeasonStat.player_id stat ∈ (PlayerInfo.id <$> players) ->
  is_Some (season_player players stat).
Proof. apply (lookup_id_is_Some PlayerInfo.id). Qed.

(** *** The backfill loop does not raise *)

Lemma backfill_ok (m_agg : list (string * Z)) (refs : list Z) (db : DB) :
  consistent db ->
  Forall (fun e => is_Some (lookup_id PlayerStat.id e.2 (player_stat db))) m_agg ->
  (forall k, k ∈ refs -> k ∈ (SeasonStat.id <$> season_stat db)) ->
  exists db', backfill m_agg refs db = Some db' /\
              player_info db' = player_info db /\
              player_stat db' = player_stat db /\
              season_keys <$> season_stat db' = season_keys <$> season_stat db.
Proof.
  revert db. induction refs as [|k rest IH]; intros db Hdb Hagg Hrefs; simpl.
  - by exists db.
  - destruct (lookup_id_is_Some SeasonStat.id k (season_stat db)) as [stat Hstat];
      [apply Hrefs; left|].
    rewrite Hstat. simpl.
    destruct (season_player_is_Some (player_info db) stat) as [player Hplayer].
    { pose proof (fk_season_player db Hdb) as Hfk. rewrite Forall_forall in Hfk.
      apply Hfk. by apply lookup_id_Some in Hstat as [? _]. }
    rewrite Hplayer. simpl.
    assert (Hrest : forall db1,
      consistent db1 -> player_info db1 = player_info db ->
      player_stat db1 = player_stat db ->
      season_keys <$> season_stat db1 = season_keys <$> season_stat db ->
      exists db', backfill m_agg rest db1 = Some db' /\
                  player_info db' = player_info db /\
                  player_stat db' = player_stat db /\
                  season_keys <$> season_stat db' = season_keys <$> season_stat db).
    { intros db1 Hdb1 Hpi Hps Hkeys.
      destruct (IH db1 Hdb1) as (db' & Hrun & H1 & H2 & H3).
      - by rewrite Hps.
      - intros k' Hk'. rewrite (proj1 (season_keys_lists _ _ Hkeys)).
        apply Hrefs. by right.
      - exists db'. split; [exact Hrun|]. by rewrite H1, H2, H3. }
    destruct (Dict.get (PlayerInfo.name player) m_agg) as [b|] eqn:Hb.
    + rewrite Forall_forall in Hagg.
      destruct (Hagg _ (dict_get_elem _ _ _ Hb)) as [base Hbase].
      simpl in Hbase. rewrite Hbase. simpl.
      assert (Hk : season_keys <$>
                     update_id SeasonStat.id k (copy_counters base) (season_stat db)
                   = season_keys <$> season_stat db)
        by (apply update_id_fmap; intros; apply copy_counters_keys).
      apply Hrest; [by apply consistent_season_keys | done | done | exact Hk].
    + by apply Hrest.
Qed.

Lemma deref_ok {A : Type} (key : A -> Z) (refs : list Z) (table : list A) :
  (forall k, k ∈ refs -> k ∈ (key <$> table)) ->
  exists rows, deref key refs table = Some rows /\ key <$> rows = refs /\
               (forall r, r ∈ rows -> r ∈ table).
Proof.
  induction refs as [|k rest IH]; intros Hrefs; simpl.
  - exists []. split_and!; [done | done |]. intros r Hr. by apply elem_of_nil in Hr.
  - destruct (lookup_id_is_Some key k table) as [r Hr]; [apply Hrefs; left|].
    destruct IH as (rows & Hrows & Hkeys & Hin); [intros; apply Hrefs; by right|].
    rewrite Hr, Hrows. simpl. exists (r :: rows).
    apply lookup_id_Some in Hr as [Hr1 Hr2]. split_and!; [done | |].
    + by rewrite fmap_cons, Hr2, Hkeys.
    + intros x [->|Hx]%elem_of_cons; auto.
Qed.

Lemma dict_values_elem {K V : Type} (v : V) (d : list (K * V)) :
  v ∈ Dict.values d -> exists k, (k, v) ∈ d.
Proof.
  unfold Dict.values. intros ([k v'] & -> & Hin)%list_elem_of_fmap_1. by exists k.
Qed.

Lemma lookup_season_keys (t t' : list SeasonStat.t) (k : Z) (row : SeasonStat.t) :
  season_keys <$> t' = season_keys <$> t ->
  lookup_id SeasonStat.id k t = Some row ->
  exists row', lookup_id SeasonStat.id k t' = Some row' /\
               season_keys row' = season_keys row.
Proof.
  revert t'. induction t as [|x t IH]; intros [|x' t'] Hkeys Hrow;
    try discriminate Hkeys; try discriminate Hrow.
  rewrite !fmap_cons in Hkeys.
  assert (Hx : season_keys x' = season_keys x) by congruence.
  assert (Ht : season_keys <$> t' = season_keys <$> t) by congruence.
  specialize (IH t' Ht).
  unfold lookup_id in *. simpl in *.
  assert (Hid : SeasonStat.id x' = SeasonStat.id x)
    by (unfold season_keys in Hx; congruence).
  rewrite Hid. destruct (bool_decide (SeasonStat.id x = k)).
  - injection Hrow as <-. by exists x'.
  - by apply IH.
Qed.

Lemma players_by_name_perm (db : DB) :
  Permutation (players_by_name db) (player_info db).
Proof. apply sorted_perm. Qed.

Lemma players_by_name_elem (db : DB) (p : PlayerInfo.t) :
  p ∈ players_by_name db <-> p ∈ player_info db.
Proof. by rewrite players_by_name_perm. Qed.

(** *** Viewing the statistics never raises on a consistent database *)

Lemma stats_setup_ok (db : DB) :
  consistent db ->
  exists db' m_agg m_season changed,
    stats_setup db = Some (db', players_by_name db, m_agg, m_season, changed) /\
    consistent db' /\
    player_info db' = player_info db /\
    Forall (fun e => is_Some (lookup_id PlayerStat.id e.2 (player_stat db'))) m_agg /\
    Forall (fun e => exists row,
                lookup_id SeasonStat.id e.2 (season_stat db') = Some row /\
                SeasonStat.player_id row = e.1) m_season /\
    (forall p, p ∈ players_by_name db -> is_Some (Dict.get (PlayerInfo.id p) m_season)).
Proof.
  intros Hdb. unfold stats_setup. cbv zeta.
  destruct (ensure_player_spec (players_by_name db) db Hdb)
    as (db1 & m_agg & new1 & Hrun1 & Hdb1 & _ & _ & Hcons1 & Hvalid1 & _).
  { rewrite players_by_name_perm. apply Hdb. }
  rewrite Hrun1. simpl.
  assert (Hpi1 : player_info db1 = player_info db) by (by subst db1).
  destruct (ensure_season_spec (players_by_name db) 2026 db1 Hcons1)
    as (db2 & m_season & new2 & Hrun2 & Hdb2 & Hcons2 & _ & Hvalid2 & Hcov2).
  { intros p Hp. rewrite Hpi1. by apply players_by_name_elem. }
  rewrite Hrun2. simpl.
  assert (Hpi2 : player_info db2 = player_info db) by (by subst db2).
  assert (Hps2 : player_stat db2 = player_stat db1) by (by subst db2).
  assert (Hagg : Forall (fun e => is_Some (lookup_id PlayerStat.id e.2 (player_stat db2)))
                        m_agg).
  { rewrite Hps2. eapply Forall_impl; [exact Hvalid1|].
    intros e (row & Hrow & _). by eexists. }
  assert (Hseason : Forall (fun e => exists row,
                lookup_id SeasonStat.id e.2 (season_stat db2) = Some row /\
                SeasonStat.player_id row = e.1) m_season).
  { eapply Forall_impl; [exact Hvalid2|]. intros e (row & Hrow & Hp & _). by exists row. }
  destruct (negb (bool_decide (new2 = []))) eqn:Hcreated.
  - destruct (backfill_ok m_agg (Dict.values m_season) db2 Hcons2 Hagg)
      as (db3 & Hrun3 & Hpi3 & Hps3 & Hkeys3).
    { intros k [pid Hk]%dict_values_elem. rewrite Forall_forall in Hseason.
      destruct (Hseason _ Hk) as (row & Hrow & _). simpl in Hrow.
      apply lookup_id_Some in Hrow as [Hin <-]. by apply list_elem_of_fmap_2. }
    rewrite Hrun3. simpl. exists db3, m_agg, m_season, true.
    split_and!; try done.
    + assert (db3 = with_season_stat (season_stat db3) db2) as ->.
      { destruct db3, db2. simpl in *. by subst. }
      by apply consistent_season_keys.
    + by rewrite Hpi3.
    + by rewrite Hps3.
    + eapply Forall_impl; [exact Hseason|]. intros e (row & Hrow & Hp).
      destruct (lookup_season_keys _ _ _ _ Hkeys3 Hrow) as (row' & Hrow' & Hk').
      exists row'. split; [exact Hrow'|]. unfold season_keys in Hk'. congruence.
  - eexists db2, m_agg, m_season, _. split_and!; done.
Qed.

Lemma covers_of_valid (players : list PlayerInfo.t) (m : list (Z * Z))
    (table : list SeasonStat.t) :
  NoDup (SeasonStat.id <$> table) ->
  Forall (fun e => exists row,
              lookup_id SeasonStat.id e.2 table = Some row /\
              SeasonStat.player_id row = e.1) m ->
  (forall p, p ∈ players -> is_Some (Dict.get (PlayerInfo.id p) m)) ->
  covers players m table.
Proof.
  intros Hnd Hvalid Hcov p Hp. destruct (Hcov p Hp) as [k Hk]. exists k.
  split; [exact Hk|]. intros r Hr Hid.
  rewrite Forall_forall in Hvalid.
  destruct (Hvalid _ (dict_get_elem _ _ _ Hk)) as (row & Hrow & Hpid).
  simpl in *. apply lookup_id_Some in Hrow as [Hin Hrk].
  assert (r = row) as -> by (eapply (NoDup_fmap_inj_on SeasonStat.id); eauto; congruence).
  exact Hpid.
Qed.

(** The view is rendered for every request but an admin's POST. *)
Theorem stats_view_total (session : session_t) (meth : method)
    (args form : params) (db : DB) :
  consistent db -> (meth = POST -> logged_in session = false) ->
  exists db' resp, stats session meth args form db = Some (db', resp) /\
                   consistent db'.
Proof.
  intros Hdb Hview. unfold stats.
  destruct (negb (logged_in session || guest session)); [by exists db, RedirectLogin|].
  destruct (stats_setup_ok db Hdb)
    as (db1 & m_agg & m_season & changed & Hsetup & Hcons & Hpi & Hagg & Hseason & Hcov).
  rewrite Hsetup. simpl.
  destruct (deref_ok PlayerStat.id (Dict.values m_agg) (player_stat db1))
    as (prows & Hprows & _ & _).
  { intros k [nm Hk]%dict_values_elem. rewrite Forall_forall in Hagg.
    destruct (Hagg _ Hk) as [row Hrow]. simpl in Hrow.
    apply lookup_id_Some in Hrow as [Hin <-]. by apply list_elem_of_fmap_2. }
  destruct (deref_ok SeasonStat.id (Dict.values m_season) (season_stat db1))
    as (srows & Hsrows & _ & _).
  { intros k [pid Hk]%dict_values_elem. rewrite Forall_forall in Hseason.
    destruct (Hseason _ Hk) as (row & Hrow & _). simpl in Hrow.
    apply lookup_id_Some in Hrow as [Hin <-]. by apply list_elem_of_fmap_2. }
  rewrite Hprows, Hsrows. simpl.
  assert (Hrender : exists db' resp,
    (db ← (if changed then commit db1 else Some db1);
     Some (db, RenderStats (sort_2025 args prows)
                 (sort_2026 args (player_info db1) srows)
                 (preferred_year_of args))) = Some (db', resp) /\ consistent db').
  { unfold commit. destruct changed; [rewrite (flush_consistent _ Hcons)|];
      simpl; by eexists _, _. }
  destruct meth; [exact Hrender|].
  rewrite (Hview eq_refl). exact Hrender.
Qed.

(** *** Every request leaves the constraints in force *)

Lemma commit_Some (db db' : DB) : commit db = Some db' -> db' = db /\ consistent db.
Proof. apply flush_Some. Qed.

(** An answered statistics request ends on a consistent database: an
    admin's submission is committed, and the view commits what it created. *)
Lemma stats_consistent (session : session_t) (meth : method)
    (args form : params) (db db' : DB) (resp : response) :
  consistent db -> stats session meth args form db = Some (db', resp) ->
  consistent db'.
Proof.
  intros Hdb H.
  assert (Hview : (meth = POST -> logged_in session = false) -> consistent db').
  { intros Hview.
    destruct (stats_view_total session meth args form db Hdb Hview)
      as (d & r & Hrun & Hc).
    rewrite Hrun in H. by injection H as <- _. }
  destruct meth; [by apply Hview|].
  destruct (logged_in session) eqn:Hadmin; [|by apply Hview].
  unfold stats in H. rewrite Hadmin in H. simpl in H.
  destruct (stats_setup db) as [[[[[db1 ap] m_agg] m_season] ch]|];
    [simpl in H|discriminate].
  destruct (deref PlayerStat.id _ _); [simpl in H|discriminate].
  destruct (deref SeasonStat.id _ _); [simpl in H|discriminate].
  destruct (String.eqb _ "2026").
  - destruct (update_2026 _ _ _ _); [simpl in H|discriminate].
    destruct (commit _) as [d|] eqn:Hc; [simpl in H|discriminate].
    injection H as <- _. by apply commit_Some in Hc as [-> ?].
  - destruct (commit _) as [d|] eqn:Hc; [simpl in H|discriminate].
    injection H as <- _. by apply commit_Some in Hc as [-> ?].
Qed.

Section RosterFacts.
Variable strptime_date : string -> option date.

Lemma players_consistent (session : session_t) (meth : method) (form : params)
    (db db' : DB) (resp : response) :
  consistent db ->
  players strptime_date session meth form db = Some (db', resp) ->
  consistent db'.
Proof.
  intros Hdb H. unfold players in H.
  destruct (negb _); [by injection H as <- _|].
  destruct meth; [by injection H as <- _|].
  destruct (logged_in session); [|by injection H as <- _].
  destruct (players_loop _ _ _ _) as [db1|]; [|discriminate]. simpl in H.
  destruct (commit db1) as [db2|] eqn:Hc; [|discriminate]. simpl in H.
  injection H as <- _. by apply commit_Some in Hc as [-> ?].
Qed.

Lemma add_player_consistent (session : session_t) (form : params)
    (db db' : DB) (resp : response) :
  consistent db ->
  add_player session form db = Some (db', resp) ->
  consistent db'.
Proof.
  intros Hdb H. unfold add_player in H.
  destruct (negb _); [by injection H as <- _|].
  destruct (form !! "new_player_name") as [raw|]; [|discriminate]. simpl in H.
  destruct (_ && _); [|by injection H as <- _].
  destruct (commit _) as [db2|] eqn:Hc; [|discriminate]. simpl in H.
  injection H as <- _. by apply commit_Some in Hc as [-> ?].
Qed.

Lemma delete_player_consistent (session : session_t) (player_id : Z)
    (db db' : DB) (resp : response) :
  consistent db ->
  delete_player session player_id db = Some (db', resp) ->
  consistent db'.
Proof.
  intros Hdb H. unfold delete_player in H.
  destruct (negb _); [by injection H as <- _|].
  destruct (lookup_id _ _ _) as [player|]; [|by injection H as <- _].
  destruct (flush _) as [db1|]; [|discriminate]. simpl in H.
  destruct (flush _) as [db2|]; [|discriminate]. simpl in H.
  destruct (commit _) as [db3|] eqn:Hc; [|discriminate]. simpl in H.
  injection H as <- _. by apply commit_Some in Hc as [-> ?].
Qed.

Lemma route_consistent (req : request) (db db' : DB) (resp : response) :
  consistent db -> route strptime_date req db = Some (db', resp) -> consistent db'.
Proof.
  intros Hdb H. destruct req; simpl in H.
  - by eapply stats_consistent.
  - by eapply players_consistent.
  - by eapply add_player_consistent.
  - by eapply delete_player_consistent.
Qed.
End RosterFacts.

(** C5: every request of the application that reads or writes the roster
    and statistics tables, started on a database that satisfies the declared
    constraints, ends on one that satisfies them: at most one aggregate row
    per player name and at most one season row per (player, season year)
    pair.  A request that raises commits nothing; viewing the statistics,
    which is what creates the missing rows, never raises. *)
Theorem requests_preserve_uniqueness (strptime_date : string -> option date)
    (req : request) (db : DB) :
  consistent db ->
  consistent (handle strptime_date req db).1 /\
  NoDup (PlayerStat.player <$> player_stat (handle strptime_date req db).1) /\
  NoDup (SeasonStat.pair <$> season_stat (handle strptime_date req db).1) /\
  (forall session args form, is_Some (stats session GET args form db)).
Proof.
  intros Hdb.
  assert (Hc : consistent (handle strptime_date req db).1).
  { unfold handle. destruct (route strptime_date req db) as [[db' resp]|] eqn:Hr;
      [|exact Hdb].
    simpl. by eapply route_consistent. }
  split_and!; [exact Hc | apply Hc | apply Hc |].
  intros session args form.
  destruct (stats_view_total session GET args form db Hdb) as (d & r & Hrun & _);
    [discriminate|].
  rewrite Hrun. by eexists.
Qed.

Lemma requests_preserve_uniqueness_witness :
  NoDup (PlayerStat.player <$>
           player_stat (handle (fun _ => None) (ReqStats admin GET ∅ ∅)
                               late_joiner_db).1) /\
  NoDup (SeasonStat.pair <$>
           season_stat (handle (fun _ => None) (ReqStats admin GET ∅ ∅)
                               late_joiner_db).1).
Proof.
  destruct (requests_preserve_uniqueness (fun _ => None)
              (ReqStats admin GET ∅ ∅) late_joiner_db) as (_ & H1 & H2 & _).
  - decide_consistent.
  - by split.
Defined.

(** *** Bulk counter update: the submission as a whole *)

Section IndexRowsGet.
Context {A K : Type} `{EqDecision K} (key : A -> K) (ref : A -> Z).

Lemma index_rows_get_other (k : K) (rows : list A) (d : list (K * Z)) :
  k ∉ key <$> rows -> Dict.get k (index_rows key ref rows d) = Dict.get k d.
Proof.
  revert d. induction rows as [|row rows IH]; intros d Hk; simpl; [reflexivity|].
  rewrite fmap_cons, not_elem_of_cons in Hk. destruct Hk as [Hne Hk].
  rewrite IH by exact Hk. rewrite dict_get_set. by rewrite decide_False.
Qed.

(** Rows with distinct keys are each found under their own key. *)
Lemma index_rows_get_Some (rows : list A) (d : list (K * Z)) (r : A) :
  NoDup (key <$> rows) -> r ∈ rows ->
  Dict.get (key r) (index_rows key ref rows d) = Some (ref r).
Proof.
  revert d. induction rows as [|row rows IH]; intros d Hnd Hr;
    [by apply elem_of_nil in Hr|].
  rewrite fmap_cons in Hnd. apply NoDup_cons in Hnd as [Hrow Hnd]. simpl.
  apply elem_of_cons in Hr as [->|Hr].
  - rewrite index_rows_get_other by exact Hrow.
    rewrite dict_get_set. by rewrite decide_True.
  - by apply IH.
Qed.
End IndexRowsGet.

(** The mapping ensure-aggregate returns holds every row of the table:
    [PlayerStat.query.all()] is not restricted to the roster. *)
Lemma ensure_player_targets (players : list PlayerInfo.t) (db db1 : DB)
    (m : list (string * Z)) (created : bool) :
  consistent db ->
  _ensure_player_stat_rows players db = Some (db1, m, created) ->
  forall r, r ∈ player_stat db1 ->
            Dict.get (PlayerStat.player r) m = Some (PlayerStat.id r).
Proof.
  intros Hdb H. unfold _ensure_player_stat_rows in H. cbv zeta in H.
  destruct (negb _).
  - destruct (flush _) as [d|] eqn:Hf; [simpl in H|discriminate].
    injection H as <- <- _. apply flush_Some in Hf as [-> Hc].
    pose proof (uq_stat_player _ Hc) as Hnames. simpl in Hnames.
    rewrite fmap_app in Hnames. apply NoDup_app in Hnames as (_ & Hdisj & Hnew).
    intros r Hr. simpl in Hr. apply elem_of_app in Hr as [Hr|Hr].
    + rewrite index_rows_get_other
        by (apply Hdisj; by apply list_elem_of_fmap_2).
      apply index_rows_get_Some; [apply Hdb | exact Hr].
    + by apply index_rows_get_Some.
  - injection H as <- <- _. intros r Hr.
    apply index_rows_get_Some; [apply Hdb | exact Hr].
Qed.

(** What the first part of the statistics view hands to the update loops:
    every aggregate row, and the 2026 row of every player. *)
Lemma stats_setup_targets (db db1 : DB) (all_players : list PlayerInfo.t)
    (m_agg : list (string * Z)) (m_season : list (Z * Z)) (changed : bool) :
  consistent db ->
  stats_setup db = Some (db1, all_players, m_agg, m_season, changed) ->
  consistent db1 /\
  player_info db1 = player_info db /\
  Forall (fun e => is_Some (lookup_id PlayerStat.id e.2 (player_stat db1))) m_agg /\
  Forall (fun e => is_Some (lookup_id SeasonStat.id e.2 (season_stat db1))) m_season /\
  (forall r, r ∈ player_stat db1 -> PlayerStat.id r ∈ Dict.values m_agg) /\
  covers all_players m_season (season_stat db1) /\
  (forall r, r ∈ season_stat db1 ->
     SeasonStat.id r ∈ season_targets all_players m_season
     <-> SeasonStat.season_year r = 2026).
Proof.
  intros Hdb H. unfold stats_setup in H. cbv zeta in H.
  destruct (ensure_player_spec (players_by_name db) db Hdb)
    as (dbA & m1 & new1 & HA & HdbA & _ & _ & HconsA & HvalidA & _).
  { rewrite players_by_name_perm. apply Hdb. }
  pose proof (ensure_player_targets _ _ _ _ _ Hdb HA) as HtargetsA.
  rewrite HA in H. simpl in H.
  assert (HpiA : player_info dbA = player_info db) by (by subst dbA).
  destruct (ensure_season_spec (players_by_name db) 2026 dbA HconsA)
    as (dbB & m2 & new2 & HB & HdbB & HconsB & _ & HvalidB & HcovB).
  { intros p Hp. rewrite HpiA. by apply players_by_name_elem. }
  rewrite HB in H. simpl in H.
  assert (HpiB : player_info dbB = player_info db) by (by subst dbB).
  assert (HpsB : player_stat dbB = player_stat dbA) by (by subst dbB).
  assert (HaggB : Forall (fun e => is_Some (lookup_id PlayerStat.id e.2
                                              (player_stat dbB))) m1).
  { rewrite HpsB. eapply Forall_impl; [exact HvalidA|].
    intros e (row & Hrow & _). by eexists. }
  (* the state the loops start from: [dbB], or [dbB] with seeded counters *)
  assert (Hfinal : season_keys <$> season_stat db1 = season_keys <$> season_stat dbB /\
                   player_stat db1 = player_stat dbB /\
                   player_info db1 = player_info dbB /\
                   all_players = players_by_name db /\ m_agg = m1 /\ m_season = m2).
  { destruct (negb (bool_decide (new2 = []))).
    - destruct (backfill_ok m1 (Dict.values m2) dbB HconsB HaggB)
        as (dbC & HC & Hpi3 & Hps3 & Hkeys3).
      { intros k [pid Hk]%dict_values_elem. rewrite Forall_forall in HvalidB.
        destruct (HvalidB _ Hk) as (row & Hrow & _). simpl in Hrow.
        apply lookup_id_Some in Hrow as [Hin <-]. by apply list_elem_of_fmap_2. }
      rewrite HC in H. simpl in H. injection H as <- <- <- <- _. by split_and!.
    - injection H as <- <- <- <- _. by split_and!. }
  destruct Hfinal as (Hkeys & Hps & Hpi & -> & -> & ->).
  assert (Hcons : consistent db1).
  { assert (db1 = with_season_stat (season_stat db1) dbB) as ->.
    { destruct db1, dbB. simpl in *. by subst. }
    by apply consistent_season_keys. }
  assert (Hvalid : Forall (fun e => exists row,
              lookup_id SeasonStat.id e.2 (season_stat db1) = Some row /\
              SeasonStat.player_id row = e.1 /\
              SeasonStat.season_year row = 2026) m2).
  { eapply Forall_impl; [exact HvalidB|]. intros e (row & Hrow & Hp & Hy).
    destruct (lookup_season_keys _ _ _ _ Hkeys Hrow) as (row' & Hrow' & Hk').
    exists row'. split; [exact Hrow'|]. unfold season_keys in Hk'.
    split; congruence. }
  assert (Hcovers : covers (players_by_name db) m2 (season_stat db1)).
  { apply covers_of_valid; [apply Hcons| |exact HcovB].
    eapply Forall_impl; [exact Hvalid|]. intros e (row & Hrow & Hp & _).
    by exists row. }
  split_and!.
  - exact Hcons.
  - by rewrite Hpi.
  - by rewrite Hps.
  - eapply Forall_impl; [exact Hvalid|]. intros e (row & Hrow & _). by eexists.
  - intros r Hr. rewrite Hps, HpsB in Hr.
    unfold Dict.values. apply list_elem_of_fmap.
    exists (PlayerStat.player r, PlayerStat.id r). split; [reflexivity|].
    apply dict_get_elem. by apply HtargetsA.
  - exact Hcovers.
  - intros r Hr. rewrite Forall_forall in Hvalid. split.
    + unfold season_targets. intros (p & Hp & Hget)%list_elem_of_omap.
      destruct (Hvalid _ (dict_get_elem _ _ _ Hget)) as (row & Hrow & _ & Hy).
      simpl in *. apply lookup_id_Some in Hrow as [Hin Hid].
      assert (row = r) as <-; [|exact Hy].
      eapply (NoDup_fmap_inj_on SeasonStat.id); eauto. apply Hcons.
    + intros Hy.
      pose proof (fk_season_player _ Hcons) as Hfk. rewrite Forall_forall in Hfk.
      apply Hfk in Hr as Hpid.
      apply list_elem_of_fmap_1 in Hpid as (p & Hpid & Hp).
      rewrite Hpi, HpiB in Hp. apply players_by_name_elem in Hp.
      destruct (HcovB p Hp) as [k Hget].
      destruct (Hvalid _ (dict_get_elem _ _ _ Hget)) as (row & Hrow & Hrp & Hry).
      simpl in *. apply lookup_id_Some in Hrow as [Hin Hid].
      assert (row = r) as ->.
      { eapply (NoDup_fmap_inj_on SeasonStat.pair); eauto; [apply Hcons|].
        unfold SeasonStat.pair. congruence. }
      unfold season_targets. apply list_elem_of_omap. exists p.
      split; [exact Hp|]. by rewrite Hget, Hid.
Qed.

Lemma sort_2025_perm (args : params) (player_stats : list PlayerStat.t) :
  Permutation (sort_2025 args player_stats) player_stats.
Proof.
  unfold sort_2025, _sort_player_stats. cbv zeta.
  destruct (String.eqb _ "player"); apply sorted_perm.
Qed.

(** What an admin's submission stores when it is answered: the update
    block is applied to every aggregate row (season "2025", or any season
    other than "2026") or to every 2026 row (season "2026"), on the tables
    as the first part of the view leaves them; nothing else changes. *)
Lemma stats_post_rows (session : session_t) (args form : params)
    (db db' : DB) (resp : response) :
  consistent db -> logged_in session = true ->
  stats session POST args form db = Some (db', resp) ->
  exists db1 all_players m_agg m_season changed,
    stats_setup db = Some (db1, all_players, m_agg, m_season, changed) /\
    consistent db1 /\
    player_info db' = player_info db1 /\
    if String.eqb (get_str form "season_year" "2025") "2026" then
      resp = RedirectStats "2026" /\
      player_stat db' = player_stat db1 /\
      season_stat db'
        = (fun r => if bool_decide (SeasonStat.season_year r = 2026)
                    then assign_season_row form r else r) <$> season_stat db1
    else
      resp = RedirectStats (get_str form "season_year" "2025") /\
      season_stat db' = season_stat db1 /\
      player_stat db' = assign_player_row form <$> player_stat db1.
Proof.
  intros Hdb Hadmin H. unfold stats in H. rewrite Hadmin in H. simpl in H.
  destruct (stats_setup db) as [[[[[db1 ap] m_agg] m_season] ch]|] eqn:Hsetup;
    [simpl in H|discriminate].
  exists db1, ap, m_agg, m_season, ch. split; [reflexivity|].
  destruct (stats_setup_targets _ _ _ _ _ _ Hdb Hsetup)
    as (Hcons & Hpi & Hagg & Hseason & Hall & Hcov & Htargets).
  split; [exact Hcons|].
  destruct (deref_ok PlayerStat.id (Dict.values m_agg) (player_stat db1))
    as (prows & Hprows & Hpids & _).
  { intros k [nm Hk]%dict_values_elem. rewrite Forall_forall in Hagg.
    destruct (Hagg _ Hk) as [row Hrow]. simpl in Hrow.
    apply lookup_id_Some in Hrow as [Hin <-]. by apply list_elem_of_fmap_2. }
  rewrite Hprows in H. simpl in H.
  destruct (deref SeasonStat.id _ _); [simpl in H|discriminate].
  destruct (String.eqb (get_str form "season_year" "2025") "2026").
  - rewrite (update_2026_rows form _ m_season (season_stat db1) Hcov) in H.
    simpl in H.
    destruct (commit _) as [d|] eqn:Hc; [simpl in H|discriminate].
    apply commit_Some in Hc as [-> _]. injection H as <- <-.
    split_and!; try reflexivity. simpl.
    apply list_fmap_ext. intros i r Hi. apply list_elem_of_lookup_2 in Hi.
    by rewrite (bool_decide_ext _ _ (Htargets r Hi)).
  - rewrite update_2025_rows in H.
    destruct (commit _) as [d|] eqn:Hc; [simpl in H|discriminate].
    apply commit_Some in Hc as [-> _]. injection H as <- <-.
    split_and!; try reflexivity. simpl.
    apply list_fmap_ext. intros i r Hi. apply list_elem_of_lookup_2 in Hi.
    rewrite bool_decide_eq_true_2; [reflexivity|].
    rewrite sort_2025_perm, Hpids. by apply Hall.
Qed.


(** C2: the claim fails on the code.  In the submission the assists field
    of row 1 is not a number; the goals counter of that row, assigned
    before it, is stored all the same (7 in place of 3), the counters from
    assists on keep their values, and the red cards field "2" of the row is
    never read.  Row 2, whose only field is goals "4", takes 4 and the
    default 0 for the counters it has no field for.  The same holds of the
    2026 table when the submission is for season 2026. *)
Example bulk_update_half_updates_row :
  consistent demo_db /\
  non_numeric demo_form "assists_1" /\
  stats admin POST ∅ demo_form demo_db
    = Some (mkDB demo_roster
                 [PlayerStat.mk 1 "Ann" 7 1 0 0 0 0;
                  PlayerStat.mk 2 "Bob" 4 0 0 5 0 0]
                 demo_season,
            RedirectStats "2025") /\
  stats admin POST ∅ (<["season_year" := "2026"]> demo_form) demo_db
    = Some (mkDB demo_roster demo_stats
                 [SeasonStat.mk 10 1 2026 7 1 0 0 0;
                  SeasonStat.mk 11 2 2026 4 0 0 0 0],
            RedirectStats "2026").
Proof.
  split; [decide_consistent|].
  split; [exists "x"; split; reflexivity|].
  split; vm_compute; reflexivity.
Qed.

(** In general, an answered submission leaves in every row of the table
    it addresses the submitted values up to the first field that is not a
    number, and the prior values from there on. *)
Lemma bulk_update_stops_at_first_bad_field (session : session_t)
    (args form : params) (db db' : DB) (resp : response) :
  consistent db -> logged_in session = true ->
  stats session POST args form db = Some (db', resp) ->
  exists db1 all_players m_agg m_season changed,
    stats_setup db = Some (db1, all_players, m_agg, m_season, changed) /\
    (get_str form "season_year" "2025" <> "2026" ->
     player_stat_values <$> player_stat db'
     = (fun r => until_error (submitted form (pretty (PlayerStat.id r)))
                             (player_stat_values r)) <$> player_stat db1) /\
    (get_str form "season_year" "2025" = "2026" ->
     season_stat_values <$> season_stat db'
     = (fun r => if bool_decide (SeasonStat.season_year r = 2026)
                 then until_error (submitted form (pretty (SeasonStat.player_id r)))
                                  (season_stat_values r)
                 else season_stat_values r) <$> season_stat db1).
Proof.
  intros Hdb Hadmin H.
  destruct (stats_post_rows _ _ _ _ _ _ Hdb Hadmin H)
    as (db1 & ap & m_agg & m_season & ch & Hsetup & Hcons & Hpi & Hrows).
  exists db1, ap, m_agg, m_season, ch. split; [exact Hsetup|]. split.
  - intros Hyear. apply String.eqb_neq in Hyear. rewrite Hyear in Hrows.
    destruct Hrows as (_ & _ & ->). rewrite <- list_fmap_compose.
    apply list_fmap_ext. intros _ r _. simpl.
    apply (assign_player_stat form (pretty (PlayerStat.id r)) r).
  - intros Hyear. apply String.eqb_eq in Hyear. rewrite Hyear in Hrows.
    destruct Hrows as (_ & _ & ->). rewrite <- list_fmap_compose.
    apply list_fmap_ext. intros _ r _. simpl.
    destruct (bool_decide _); [|reflexivity].
    apply (assign_season_stat form (pretty (SeasonStat.player_id r)) r).
Qed.

(** *** Absent counter parameters *)





(** *** Renaming a player *)

Section Rename.
Variable strptime_date : string -> option date.
Variable form : params.

(** What one iteration of the loop of [players] does. *)
Lemma players_step_inv (q : PlayerInfo.t) (db db1 : DB) :
  players_step strptime_date form q db = Some db1 ->
  let new_name :=
    get_str form ("name_" +:+ pretty (PlayerInfo.id q)) (PlayerInfo.name q) in
  exists (F : PlayerInfo.t -> PlayerInfo.t) (stats' : list PlayerStat.t),
    (forall x, PlayerInfo.id (F x) = PlayerInfo.id x /\
               PlayerInfo.name (F x) = new_name) /\
    player_info db1 = update_id PlayerInfo.id (PlayerInfo.id q) F (player_info db) /\
    player_stat db1 = stats' /\
    season_stat db1 = season_stat db /\
    (new_name = PlayerInfo.name q -> stats' = player_stat db) /\
    (new_name <> PlayerInfo.name q ->
       consistent db /\
       match List.find (fun s => bool_decide (PlayerStat.player s = PlayerInfo.name q))
                       (player_stat db) with
       | Some r0 => stats' = update_id PlayerStat.id (PlayerStat.id r0)
                               (PlayerStat.set_player new_name) (player_stat db)
       | None => stats' = player_stat db
       end).
Proof.
  unfold players_step. cbv zeta.
  set (new_name := get_str form _ (PlayerInfo.name q)).
  intros H.
  destruct (decide (new_name = PlayerInfo.name q)) as [Heq|Hne].
  - simpl in H. injection H as <-.
    eexists _, (player_stat db). split_and!; try done.
    intros x. by split.
  - destruct (flush db) as [db0|] eqn:Hf; [|discriminate]. simpl in H.
    apply flush_Some in Hf as [-> Hc].
    destruct (List.find _ (player_stat db)) as [r0|] eqn:Hfind;
      simpl in H; injection H as <-.
    + eexists _, _. split_and!; try done. intros x. by split.
    + eexists _, (player_stat db). split_and!; try done. intros x. by split.
Qed.

(** The loop never touches the season table, and changes nothing but the
    name key in the aggregate table. *)
Lemma players_loop_frame (objs : list PlayerInfo.t) (db db' : DB) :
  players_loop strptime_date form objs db = Some db' ->
  season_stat db' = season_stat db /\
  PlayerStat.set_player "" <$> player_stat db'
    = PlayerStat.set_player "" <$> player_stat db.
Proof.
  revert db. induction objs as [|q rest IH]; intros db H; simpl in H.
  - by injection H as <-.
  - destruct (players_step strptime_date form q db) as [db1|] eqn:Hstep;
      [|discriminate]. simpl in H.
    destruct (IH _ H) as [Hs Hp]. rewrite Hs, Hp.
    destruct (players_step_inv _ _ _ Hstep)
      as (F & stats' & _ & _ & Hst & Hseason & Hsame & Hren).
    split; [exact Hseason|]. rewrite Hst.
    destruct (decide (get_str form ("name_" +:+ pretty (PlayerInfo.id q))
                              (PlayerInfo.name q) = PlayerInfo.name q)) as [Heq|Hne].
    + by rewrite (Hsame Heq).
    + destruct (Hren Hne) as [_ Hcase].
      destruct (List.find _ (player_stat db)); rewrite Hcase; [|done].
      by apply update_id_fmap.
Qed.


End Rename.



(** *** Deleting a player: what the route does in general *)

Lemma flush_inconsistent (db : DB) : ~ consistent db -> flush db = None.
Proof. intros H. unfold flush. by rewrite decide_False. Qed.

(** A player that has a season row cannot be deleted: the deletion of the
    player row is written before the season rows are removed. *)
Lemma delete_player_blocked (session : session_t) (pid : Z) (db : DB)
    (p : PlayerInfo.t) (s : SeasonStat.t) :
  logged_in session = true ->
  lookup_id PlayerInfo.id pid (player_info db) = Some p ->
  s ∈ season_stat db -> SeasonStat.player_id s = pid ->
  delete_player session pid db = None.
Proof.
  intros Hadmin Hp Hs Hpid. unfold delete_player. rewrite Hadmin, Hp. simpl.
  apply lookup_id_Some in Hp as [_ Hp]. rewrite Hp.
  rewrite (flush_inconsistent
             (with_player_info (delete_id PlayerInfo.id pid (player_info db)) db));
    [reflexivity|].
  intros Hc. pose proof (fk_season_player _ Hc) as Hfk. simpl in Hfk.
  rewrite Forall_forall in Hfk. specialize (Hfk s Hs).
  apply list_elem_of_fmap_1 in Hfk as (r & Hr & Hin).
  apply delete_id_elem in Hin as [Hne _]. congruence.
Qed.

(** A player without season rows is deleted together with its aggregate
    row, and a second request for the same identity is answered with
    not-found and changes nothing. *)
Lemma delete_player_without_season_rows (session : session_t) (pid : Z)
    (db : DB) (p : PlayerInfo.t) :
  logged_in session = true -> consistent db ->
  lookup_id PlayerInfo.id pid (player_info db) = Some p ->
  (forall s, s ∈ season_stat db -> SeasonStat.player_id s <> pid) ->
  exists db',
    delete_player session pid db = Some (db', RedirectPlayers) /\
    lookup_id PlayerInfo.id pid (player_info db') = None /\
    (PlayerInfo.name p ∉ (PlayerStat.player <$> player_stat db')) /\
    season_stat db' = season_stat db /\
    delete_player session pid db' = Some (db', NotFound).
Proof.
  intros Hadmin Hdb Hp Hnone. unfold delete_player at 1. rewrite Hadmin, Hp. simpl.
  pose proof (lookup_id_Some _ _ _ _ Hp) as [Hpin Hpid]. rewrite Hpid.
  set (db1 := with_player_info (delete_id PlayerInfo.id pid (player_info db)) db).
  assert (Hc1 : consistent db1).
  { destruct Hdb. constructor; simpl; try done.
    - by apply NoDup_fmap_filter.
    - by apply NoDup_fmap_filter.
    - rewrite Forall_forall in *. intros s Hs.
      destruct (list_elem_of_fmap_1 _ _ _ (fk_season_player0 s Hs)) as (r & Hr & Hin).
      rewrite Hr. apply list_elem_of_fmap_2, delete_id_elem. split; [|done].
      rewrite <- Hr. by apply Hnone. }
  rewrite (flush_consistent _ Hc1). simpl.
  set (db2 := match List.find _ (player_stat db) with
              | Some r0 => with_player_stat _ db1
              | None => db1
              end).
  assert (Hc2 : consistent db2 /\ player_info db2 = player_info db1 /\
                season_stat db2 = season_stat db /\
                (PlayerInfo.name p ∉ (PlayerStat.player <$> player_stat db2))).
  { unfold db2. destruct (List.find _ (player_stat db)) as [r0|] eqn:Hfind.
    - apply find_some in Hfind as [Hin Hr0]. simpl in Hr0.
      apply bool_decide_eq_true in Hr0. apply (proj2 (list_elem_of_In _ _)) in Hin.
      split_and!; try done.
      + apply consistent_with_player_stat; [exact Hc1| |]; simpl;
          apply NoDup_fmap_filter; apply Hdb.
      + simpl. intros (r & Hr & Hrin)%list_elem_of_fmap_1.
        apply delete_id_elem in Hrin as [Hne Hrin]. apply Hne. f_equal.
        eapply (NoDup_fmap_inj_on PlayerStat.player); [apply Hdb | done | done | congruence].
    - split_and!; try done. simpl.
      intros (r & Hr & Hrin)%list_elem_of_fmap_1.
      pose proof (find_none _ _ Hfind r (proj1 (list_elem_of_In _ _) Hrin)) as Hf.
      simpl in Hf. apply bool_decide_eq_false in Hf. congruence. }
  destruct Hc2 as (Hc2 & Hpi2 & Hss2 & Hgone).
  rewrite (flush_consistent _ Hc2). simpl.
  assert (Hsame : with_season_stat
                    (delete_id SeasonStat.player_id pid (season_stat db2)) db2 = db2).
  { rewrite delete_id_absent; [by destruct db2|].
    rewrite Hss2. intros (s & Hs & Hin)%list_elem_of_fmap_1.
    by apply (Hnone s Hin). }
  rewrite Hsame. unfold commit. rewrite (flush_consistent _ Hc2). simpl.
  exists db2. split_and!; try done.
  - rewrite Hpi2. simpl. apply delete_id_lookup.
  - unfold delete_player. rewrite Hadmin. simpl.
    rewrite Hpi2. simpl. by rewrite delete_id_lookup.
Qed.

(** * Further properties of the code *)

(** ** Database connection string *)

Lemma replace_first_prefix (old new s : string) :
  String.prefix old s = true ->
  replace_first old new s = new +:+ string_drop (String.length old) s.
Proof. intros H. destruct s; cbn [replace_first]; by rewrite H. Qed.

Lemma eqb_empty_false (s : string) : s <> "" -> String.eqb s "" = false.
Proof. intros H. by apply String.eqb_neq. Qed.

Lemma normalize_database_url_nonempty (raw_url : string) :
  raw_url <> "" -> _normalize_database_url raw_url <> "".
Proof.
  intros Hne. unfold _normalize_database_url, startswith.
  rewrite (eqb_empty_false _ Hne).
  destruct (String.prefix "prisma+postgres://" raw_url) eqn:H1;
    [by rewrite replace_first_prefix|].
  destruct (String.prefix "postgres://" raw_url) eqn:H2;
    [by rewrite replace_first_prefix|].
  destruct (String.prefix "postgresql://" raw_url) eqn:H3;
    [by rewrite replace_first_prefix|].
  exact Hne.
Qed.

(** X1: a connection string that begins with one of the legacy schemes
    [prisma+postgres://], [postgres://] or [postgresql://] is rewritten to
    the [postgresql+psycopg://] scheme, and everything after the scheme is
    kept as it is. *)
Theorem normalize_database_url_rewrites_scheme (scheme rest : string) :
  scheme ∈ legacy_schemes ->
  _normalize_database_url (scheme +:+ rest) = "postgresql+psycopg://" +:+ rest.
Proof.
  unfold legacy_schemes. rewrite !elem_of_cons, elem_of_nil.
  intros [->|[->|[->|[]]]]; by destruct rest.
Qed.

Lemma normalize_database_url_rewrites_scheme_witness :
  "postgres://" ∈ legacy_schemes /\
  _normalize_database_url ("postgres://" +:+ "user:pw@db.example/team")
  = "postgresql+psycopg://" +:+ "user:pw@db.example/team".
Proof.
  split.
  - unfold legacy_schemes. rewrite !elem_of_cons. auto.
  - apply (normalize_database_url_rewrites_scheme "postgres://").
    unfold legacy_schemes. rewrite !elem_of_cons. auto.
Defined.

(** X2: a normalised connection string never begins with a legacy scheme,
    and normalising it again changes nothing. *)
Theorem normalize_database_url_idempotent (raw_url : string) :
  Forall (fun scheme => startswith (_normalize_database_url raw_url) scheme = false)
         legacy_schemes /\
  _normalize_database_url (_normalize_database_url raw_url)
  = _normalize_database_url raw_url.
Proof.
  assert (Hcases :
    (exists rest, _normalize_database_url raw_url = "postgresql+psycopg://" +:+ rest) \/
    (_normalize_database_url raw_url = raw_url /\
     (raw_url = "" \/
      (startswith raw_url "prisma+postgres://" = false /\
       startswith raw_url "postgres://" = false /\
       startswith raw_url "postgresql://" = false)))).
  { unfold _normalize_database_url, startswith.
    destruct (String.eqb raw_url "") eqn:He.
    { right. apply String.eqb_eq in He. auto. }
    destruct (String.prefix "prisma+postgres://" raw_url) eqn:H1.
    { left. rewrite replace_first_prefix by assumption. by eexists. }
    destruct (String.prefix "postgres://" raw_url) eqn:H2.
    { left. rewrite replace_first_prefix by assumption. by eexists. }
    destruct (String.prefix "postgresql://" raw_url) eqn:H3.
    { left. rewrite replace_first_prefix by assumption. by eexists. }
    right. auto. }
  destruct Hcases as [[rest ->]|[Hid Hraw]].
  - split; [|reflexivity]. repeat constructor.
  - rewrite !Hid. split; [|reflexivity].
    destruct Hraw as [->|(H1 & H2 & H3)]; repeat constructor; assumption.
Qed.

Lemma first_database_url_None (keys : list string) (environ : gmap string string) :
  first_database_url keys environ = None <->
  Forall (fun key => environ !! key = None \/ environ !! key = Some "") keys.
Proof.
  induction keys as [|key rest IH]; simpl.
  - split; [constructor|done].
  - rewrite Forall_cons, <- IH.
    destruct (environ !! key) as [value|]; [|intuition].
    destruct (String.eqb value "") eqn:He; simpl.
    + apply String.eqb_eq in He as ->. intuition.
    + apply String.eqb_neq in He.
      rewrite (eqb_empty_false _ (normalize_database_url_nonempty _ He)). simpl.
      split; [done|]. intros [[|[=]] _]; congruence.
Qed.

(** X3: looking up the database address fails exactly when every one of
    the six candidate environment variables is unset or empty. *)
Theorem get_database_uri_fails_iff_unconfigured (environ : gmap string string) :
  _get_database_uri environ = None <->
  Forall (fun key => environ !! key = None \/ environ !! key = Some "")
         candidate_keys.
Proof. apply first_database_url_None. Qed.

Lemma first_database_url_skip (before rest : list string)
    (environ : gmap string string) :
  Forall (fun key => environ !! key = None \/ environ !! key = Some "") before ->
  first_database_url (before ++ rest) environ = first_database_url rest environ.
Proof.
  induction 1 as [|key before [Hk|Hk] _ IH]; simpl; [done|..];
    by rewrite Hk.
Qed.

(** X4: the database address is taken from the first candidate variable,
    in the order [DATABASE_URL], [POSTGRES_URL], ..., that is set to a
    non-empty value, and it is that value normalised; variables later in
    the order are not looked at. *)
Theorem get_database_uri_first_configured (environ : gmap string string)
    (before after : list string) (key value : string) :
  candidate_keys = before ++ key :: after ->
  Forall (fun k => environ !! k = None \/ environ !! k = Some "") before ->
  environ !! key = Some value -> value <> "" ->
  _get_database_uri environ = Some (_normalize_database_url value).
Proof.
  intros Hsplit Hbefore Hkey Hne. unfold _get_database_uri.
  rewrite Hsplit, first_database_url_skip by assumption. simpl.
  rewrite Hkey, (eqb_empty_false _ Hne). simpl.
  by rewrite (eqb_empty_false _ (normalize_database_url_nonempty _ Hne)).
Qed.

Lemma get_database_uri_first_configured_witness :
  _get_database_uri demo_environ
  = Some (_normalize_database_url "postgres://club@db.example/team").
Proof.
  apply (get_database_uri_first_configured demo_environ ["DATABASE_URL"]
           ["POSTGRES_URL_NON_POOLING"; "POSTGRES_URL_NO_SSL";
            "POSTGRES_PRISMA_URL"; "PRISMA_DATABASE_URL"] "POSTGRES_URL").
  - reflexivity.
  - constructor; [right; reflexivity|constructor].
  - reflexivity.
  - discriminate.
Defined.

(** ** Media files *)

Lemma after_last_None (sep : ascii) (s : string) :
  after_last sep s = None <-> sep ∉ list_ascii_of_string s.
Proof.
  induction s as [|c s IH]; simpl.
  - split; [intros _; apply not_elem_of_nil|done].
  - rewrite not_elem_of_cons, <- IH.
    destruct (after_last sep s) as [t|].
    + split; [done|]. by intros [_ ?].
    + destruct (Ascii.eqb_spec c sep) as [->|Hne].
      * split; [done|]. by intros [? _].
      * split; [|done]. intros _. split; [congruence|done].
Qed.

Lemma after_last_app (sep : ascii) (a b : string) :
  after_last sep b = None -> after_last sep (a +:+ String sep b) = Some b.
Proof.
  intros Hb. induction a as [|c a IH]; simpl.
  - by rewrite Hb, Ascii.eqb_refl.
  - by rewrite IH.
Qed.

Lemma after_last_Some (sep : ascii) (s t : string) :
  after_last sep s = Some t -> after_last sep t = None.
Proof.
  revert t. induction s as [|c s IH]; intros t; simpl; [done|].
  destruct (after_last sep s) as [u|] eqn:Hs.
  - intros [= <-]. by apply IH.
  - destruct (Ascii.eqb c sep); [|done]. by intros [= <-].
Qed.

(** X5: whether a file name is accepted depends only on the text after
    its last dot, compared without regard to case with the eight allowed
    extensions; whatever precedes the last dot, further dots included,
    plays no part, and a name without any dot is never accepted. *)
Theorem allowed_media_file_by_last_extension (stem ext : string) :
  "."%char ∉ list_ascii_of_string ext ->
  allowed_media_file (stem +:+ "." +:+ ext)
  = bool_decide (Py.lower ext ∈ ALLOWED_MEDIA_EXTENSIONS) /\
  allowed_media_file ext = false.
Proof.
  intros Hext. apply after_last_None in Hext. unfold allowed_media_file.
  change (stem +:+ "." +:+ ext) with (stem +:+ String "."%char ext).
  by rewrite after_last_app, Hext.
Qed.

Lemma allowed_media_file_by_last_extension_witness :
  allowed_media_file ("photo.tar" +:+ "." +:+ "JPG")
  = bool_decide (Py.lower "JPG" ∈ ALLOWED_MEDIA_EXTENSIONS) /\
  allowed_media_file "JPG" = false.
Proof.
  apply (allowed_media_file_by_last_extension "photo.tar" "JPG").
  apply (bool_decide_unpack _). vm_compute. exact I.
Defined.

Lemma basename_no_slash (p : string) :
  "/"%char ∉ list_ascii_of_string (basename p).
Proof.
  unfold basename. destruct (after_last "/" p) as [t|] eqn:Hp.
  - eapply after_last_None, after_last_Some, Hp.
  - by apply after_last_None.
Qed.

Lemma blob_entry_ok (it : json) (r : MediaItem.t) :
  blob_entry it = Some (Some r) -> listed_name_ok r.
Proof.
  unfold blob_entry. intros H.
  destruct (json_get it "url" JNull) as [url|]; [simpl in H|done].
  destruct (json_get it "pathname" JNull) as [p1|]; [simpl in H|done].
  destruct (json_get it "key" JNull) as [p2|]; [simpl in H|done].
  destruct (truthy (py_or (py_or p1 p2) (JStr ""))).
  - destruct (py_or (py_or p1 p2) (JStr "")) as [| | | |p| |]; try done.
    simpl in H.
    destruct (String.eqb (basename p) "" || negb (allowed_media_file (basename p)))
      eqn:Hskip; [done|].
    apply orb_false_elim in Hskip as [_ Hok%negb_false_iff].
    destruct (json_get it "uploadedAt" JNull); [simpl in H|done].
    destruct (json_get it "createdAt" JNull); [simpl in H|done].
    injection H as <-. split; [exact Hok|apply basename_no_slash].
  - simpl in H. done.
Qed.

Lemma blob_entries_ok (items : list json) (rs : list MediaItem.t) :
  blob_entries items = Some rs -> Forall listed_name_ok rs.
Proof.
  revert rs. induction items as [|it rest IH]; intros rs; simpl.
  - by intros [= <-].
  - destruct (blob_entry it) as [e|] eqn:He; [simpl|done].
    destruct (blob_entries rest) as [rs'|]; [simpl|done].
    intros [= <-]. destruct e as [r|]; [|by apply IH].
    constructor; [by eapply blob_entry_ok|by apply IH].
Qed.

Lemma listing_ok (cfg : blob_config) (year : Z) :
  Forall listed_name_ok (_list_vercel_blobs_for_year cfg year).
Proof.
  unfold _list_vercel_blobs_for_year.
  destruct (VERCEL_BLOB_READ_TOKEN cfg) as [token|]; [|constructor].
  destruct (app_requests cfg) as [get|]; [|constructor].
  destruct (String.eqb token ""); [constructor|].
  destruct (blobs_of_response _) as [results|] eqn:Hr; [|constructor].
  unfold blobs_of_response in Hr.
  destruct (get _ token) as [| |status body]; try done.
  destruct (_ && _); [done|].
  destruct body as [data|]; [simpl in Hr|done].
  destruct (json_get data "blobs" _) as [b|]; [simpl in Hr|done].
  destruct (json_get data "items" _) as [i|]; [simpl in Hr|done].
  destruct (py_or (py_or b i) (JList [])) as [| | | |s|l|entries]; try done.
  - destruct (String.eqb s ""); [|done]. injection Hr as <-. constructor.
  - by eapply blob_entries_ok.
  - destruct (bool_decide _); [|done]. injection Hr as <-. constructor.
Qed.

(** X6: every item of the remote media listing, whatever the remote
    service answers, has a name with an allowed extension and without a
    directory part. *)
Theorem media_listing_names_allowed (cfg : blob_config) (year : Z) :
  Forall (fun it =>
            allowed_media_file (MediaItem.name it) = true /\
            "/"%char ∉ list_ascii_of_string (MediaItem.name it))
         (_list_vercel_blobs_for_year cfg year).
Proof. apply listing_ok. Qed.

(** X7: the media view redirects only for the years 2025 and 2026 and
    only to the non-empty address of a listed item of that name; a file
    name with another extension or with a directory part is never
    redirected to the remote store. *)
Theorem gallery_media_redirects_only_listed_media (cfg : blob_config)
    (year : Z) (filename : string) (url : json) :
  gallery_media cfg year filename = MediaRedirect url ->
  (year ∈ [2025; 2026]) /\
  allowed_media_file filename = true /\
  ("/"%char ∉ list_ascii_of_string filename) /\
  truthy url = true /\
  exists it, it ∈ _list_vercel_blobs_for_year cfg year /\
             MediaItem.name it = filename /\ MediaItem.url it = url.
Proof.
  unfold gallery_media. intros H.
  destruct (bool_decide (year ∈ [2025; 2026])) eqn:Hy; [simpl in H|done].
  apply bool_decide_eq_true in Hy.
  destruct (List.find _ _) as [it|] eqn:Hf; [|done].
  injection H as <-.
  apply List.find_some in Hf as [Hin [Hname Hurl]%andb_prop].
  apply bool_decide_eq_true in Hname. apply list_elem_of_In in Hin.
  pose proof (listing_ok cfg year) as Hok. rewrite Forall_forall in Hok.
  destruct (Hok it Hin) as [Hallowed Hslash]. rewrite Hname in *.
  split_and!; try done. by exists it.
Qed.

Lemma gallery_media_redirects_only_listed_media_witness :
  allowed_media_file "a.PNG" = true /\
  truthy (JStr "https://blob/a.PNG") = true.
Proof.
  destruct (gallery_media_redirects_only_listed_media demo_blob_config 2025
              "a.PNG" (JStr "https://blob/a.PNG")) as (_ & H1 & _ & H2 & _).
  - reflexivity.
  - by split.
Defined.

(** ** Stat presenter: ordering by a counter, and ties *)

Lemma filter_rev {A : Type} (P : A -> Prop) `{forall x, Decision (P x)}
    (l : list A) :
  filter P (rev l) = rev (filter P l).
Proof.
  induction l as [|x l IH]; simpl; [reflexivity|].
  rewrite filter_app, IH, !filter_cons, filter_nil.
  destruct (decide (P x)); simpl; [reflexivity|by rewrite app_nil_r].
Qed.

Lemma Sorted_weaken {A : Type} (R S : A -> A -> Prop) (l : list A) :
  (forall a b, R a b -> S a b) -> Sorted R l -> Sorted S l.
Proof.
  intros HRS. induction 1 as [|x l _ IH Hhd]; constructor; [exact IH|].
  destruct Hhd; constructor. by apply HRS.
Qed.

Section SortStable.
Context {A K : Type} (key : A -> K) (lt : K -> K -> bool).
Context (P : A -> Prop) `{forall x, Decision (P x)}.
(** The rows selected by [P] compare as ties. *)
Hypothesis tied : forall a b, P a -> P b -> lt (key a) (key b) = false.

Lemma insert_stable_filter (x : A) (l : list A) :
  filter P (Py.insert_stable key lt x l) = filter P (x :: l).
Proof.
  induction l as [|y l IH]; simpl; [reflexivity|].
  destruct (lt (key y) (key x)) eqn:Hyx; [|reflexivity].
  rewrite (filter_cons _ y), IH, !(filter_cons _ x), (filter_cons _ y).
  destruct (decide (P y)) as [Hy|Hy], (decide (P x)) as [Hx|Hx];
    try reflexivity.
  by rewrite (tied y x Hy Hx) in Hyx.
Qed.

Lemma sort_stable_filter (l : list A) :
  filter P (Py.sort_stable key lt l) = filter P l.
Proof.
  induction l as [|x l IH]; simpl; [reflexivity|].
  by rewrite insert_stable_filter, !filter_cons, IH.
Qed.

Lemma sorted_filter (reverse : bool) (l : list A) :
  filter P (Py.sorted key lt reverse l) = filter P l.
Proof.
  unfold Py.sorted. destruct reverse; [|apply sort_stable_filter].
  by rewrite filter_rev, sort_stable_filter, filter_rev, rev_involutive.
Qed.
End SortStable.

Lemma str_lt_irrefl (a : string) : Py.str_lt a a = false.
Proof.
  destruct (Py.str_lt a a) eqn:H; [|reflexivity].
  by rewrite (str_lt_asym a a H) in H.
Qed.

Lemma Z_ltb_asym (a b : Z) : (a <? b) = true -> (b <? a) = false.
Proof. intros H%Z.ltb_lt. apply Z.ltb_ge. lia. Qed.

(** X8: sorting the aggregate rows or the season rows by one of the
    counters the statistics view admits as a sort field returns a
    rearrangement of the rows in which the counter never decreases from
    one row to the next (never increases, for the descending direction). *)
Theorem sort_by_counter_ordered (players : list PlayerInfo.t)
    (stats : list PlayerStat.t) (season : list SeasonStat.t)
    (field : string) (descending : bool) :
  field ∈ allowed_fields -> field <> "player" ->
  let in_order (a b : Z) := if descending then b <= a else a <= b in
  Permutation (_sort_player_stats stats field descending) stats /\
  Sorted (fun a b => in_order (PlayerStat.getattr a field 0)
                              (PlayerStat.getattr b field 0))
         (_sort_player_stats stats field descending) /\
  Permutation (_sort_season_stats players season field descending) season /\
  Sorted (fun a b => in_order (SeasonStat.getattr a field 0)
                              (SeasonStat.getattr b field 0))
         (_sort_season_stats players season field descending).
Proof.
  intros _ Hfield%String.eqb_neq. cbv zeta.
  unfold _sort_player_stats, _sort_season_stats. rewrite Hfield.
  split_and!; try apply sorted_perm.
  - destruct descending.
    + eapply Sorted_weaken; [|apply (sorted_ordered _ _ Z_ltb_asym)].
      unfold Py.descending. intros a b Hab%Z.ltb_ge. exact Hab.
    + eapply Sorted_weaken; [|apply (sorted_ordered _ _ Z_ltb_asym)].
      unfold Py.ascending. intros a b Hab%Z.ltb_ge. exact Hab.
  - destruct descending.
    + eapply Sorted_weaken; [|apply (sorted_ordered _ _ Z_ltb_asym)].
      unfold Py.descending. intros a b Hab%Z.ltb_ge. exact Hab.
    + eapply Sorted_weaken; [|apply (sorted_ordered _ _ Z_ltb_asym)].
      unfold Py.ascending. intros a b Hab%Z.ltb_ge. exact Hab.
Qed.

Lemma sort_by_counter_ordered_witness :
  Sorted (fun a b => PlayerStat.getattr b "goals" 0 <= PlayerStat.getattr a "goals" 0)
         (_sort_player_stats demo_stats "goals" true).
Proof.
  destruct (sort_by_counter_ordered [] demo_stats [] "goals" true)
    as (_ & H & _).
  - apply (bool_decide_unpack _). vm_compute. exact I.
  - discriminate.
  - exact H.
Defined.

(** X9: both sort helpers are stable in both directions, for every sort
    field the statistics view admits: the rows that share a sort key (the
    case-folded name for "player", the counter otherwise) come out in the
    order they went in. *)
Theorem sort_keeps_order_of_ties (players : list PlayerInfo.t)
    (stats : list PlayerStat.t) (season : list SeasonStat.t)
    (field : string) (descending : bool) (k : string + Z) :
  field ∈ allowed_fields ->
  filter (fun s => player_sort_key field s = k)
         (_sort_player_stats stats field descending)
  = filter (fun s => player_sort_key field s = k) stats /\
  filter (fun s => season_sort_key players field s = k)
         (_sort_season_stats players season field descending)
  = filter (fun s => season_sort_key players field s = k) season.
Proof.
  intros _.
  unfold _sort_player_stats, _sort_season_stats, player_sort_key,
    season_sort_key.
  destruct (String.eqb field "player"); split; apply sorted_filter;
    intros a b Ha Hb; rewrite <- Hb in Ha; injection Ha as ->;
    first [apply str_lt_irrefl | apply Z.ltb_irrefl].
Qed.

(** Two rows with the same number of goals keep their order when the rows
    are sorted by goals, descending. *)
Lemma sort_keeps_order_of_ties_witness :
  filter (fun s => player_sort_key "goals" s = inr 0)
         (_sort_player_stats [zed_stat; ann_stat; mid_stat] "goals" true)
  = [zed_stat; ann_stat; mid_stat].
Proof.
  refine (eq_trans (proj1 (sort_keeps_order_of_ties [] [zed_stat; ann_stat; mid_stat]
                             [] "goals" true (inr 0) _)) _).
  - apply (bool_decide_unpack _). vm_compute. exact I.
  - reflexivity.
Defined.

(** ** Schedule and results *)

Lemma date_lt_spec (a b : date) :
  date_lt a b = true <->
  a.1.1 < b.1.1 \/
  (a.1.1 = b.1.1 /\ (a.1.2 < b.1.2 \/ (a.1.2 = b.1.2 /\ a.2 < b.2))).
Proof.
  destruct a as [[y1 m1] d1], b as [[y2 m2] d2]. unfold date_lt. simpl.
  rewrite !orb_true_iff, !andb_true_iff, !orb_true_iff, !andb_true_iff,
    !Z.ltb_lt, !Z.eqb_eq.
  tauto.
Qed.

Lemma date_lt_false (a b : date) :
  date_lt a b = false <->
  b.1.1 < a.1.1 \/
  (a.1.1 = b.1.1 /\ (b.1.2 < a.1.2 \/ (a.1.2 = b.1.2 /\ b.2 <= a.2))).
Proof.
  rewrite <- not_true_iff_false, date_lt_spec. lia.
Qed.

Lemma date_lt_irrefl (a : date) : date_lt a a = false.
Proof. apply date_lt_false. lia. Qed.

Lemma date_lt_asym (a b : date) : date_lt a b = true -> date_lt b a = false.
Proof. rewrite date_lt_spec, date_lt_false. lia. Qed.

Lemma date_le_trans (a b c : date) :
  date_lt b a = false -> date_lt c b = false -> date_lt c a = false.
Proof. rewrite !date_lt_false. lia. Qed.

Lemma date_le_year (a b : date) :
  date_lt b a = false -> date_year a <= date_year b.
Proof. rewrite date_lt_false. unfold date_year. lia. Qed.

(** The rows in date order: each one is on or before all the later ones. *)
Lemma events_by_date_sorted (events : list Event.t) :
  StronglySorted (fun a b => date_lt (Event.date b) (Event.date a) = false)
                 (events_by_date events).
Proof.
  apply Sorted.Sorted_StronglySorted.
  - intros a b c Hab Hbc. by eapply date_le_trans.
  - apply (sort_stable_sorted Event.date date_lt date_lt_asym).
Qed.

Lemma events_by_date_perm (events : list Event.t) :
  Permutation (events_by_date events) events.
Proof. apply (sorted_perm Event.date date_lt false). Qed.

(** X10: the next match is an event of the table that is a match and is
    not before today, and no match of the table that is not before today
    is earlier than it; there is none exactly when every match of the
    table is before today. *)
Theorem next_match_is_earliest_upcoming (today : date) (events : list Event.t) :
  match get_next_match_event today events with
  | Some event =>
      event ∈ events /\ Event.type event = "match" /\
      date_lt (Event.date event) today = false /\
      forall e, e ∈ events -> Event.type e = "match" ->
                date_lt (Event.date e) today = false ->
                date_lt (Event.date e) (Event.date event) = false
  | None =>
      forall e, e ∈ events -> Event.type e = "match" ->
                date_lt (Event.date e) today = true
  end.
Proof.
  unfold get_next_match_event.
  set (upcoming := filter _ events).
  assert (Hup : forall e, e ∈ upcoming <->
            e ∈ events /\ Event.type e = "match" /\
            date_lt (Event.date e) today = false).
  { intros e. unfold upcoming. rewrite list_elem_of_filter. tauto. }
  pose proof (events_by_date_sorted upcoming) as Hs.
  pose proof (events_by_date_perm upcoming) as Hp.
  destruct (events_by_date upcoming) as [|event rest] eqn:Hsorted; simpl.
  - intros e He Hm. destruct (date_lt (Event.date e) today) eqn:Hd; [done|].
    assert (e ∈ upcoming) as Hin by (apply Hup; auto).
    rewrite <- Hp in Hin. by apply elem_of_nil in Hin.
  - assert (event ∈ upcoming) as Hin by (rewrite <- Hp; left).
    apply Hup in Hin as (Hin & Hm & Hd). split_and!; try done.
    intros e He Hme Hde.
    assert (e ∈ event :: rest) as [->|Hrest]%elem_of_cons
      by (rewrite Hp; apply Hup; auto).
    + apply date_lt_irrefl.
    + apply StronglySorted_inv in Hs as [_ Hall].
      rewrite Forall_forall in Hall. by apply Hall.
Qed.

Section GroupFacts.
Context {K V : Type} `{EqDecision K}.

Lemma dict_set_keys (k : K) (v : V) (d : list (K * V)) :
  Dict.keys (Dict.set k v d)
  = if decide (k ∈ Dict.keys d) then Dict.keys d else Dict.keys d ++ [k].
Proof.
  unfold Dict.keys. induction d as [|[k0 v0] d IH].
  - reflexivity.
  - cbn [Dict.set]. destruct (decide (k = k0)) as [->|Hne].
    + rewrite decide_True by (rewrite fmap_cons; left). reflexivity.
    + rewrite !fmap_cons. cbn [fst]. rewrite IH.
      destruct (decide (k ∈ d.*1)) as [Hin|Hin].
      * rewrite decide_True by (by right). reflexivity.
      * rewrite decide_False; [reflexivity|].
        rewrite not_elem_of_cons. auto.
Qed.
End GroupFacts.

Lemma group_by_year_get (events : list Event.t) (d : list (Z * list Event.t))
    (year : Z) :
  Dict.get year (group_by_year events d)
  = match filter (fun e => date_year (Event.date e) = year) events with
    | [] => Dict.get year d
    | g => Some (default [] (Dict.get year d) ++ g)
    end.
Proof.
  revert d. induction events as [|event rest IH]; intros d; simpl; [done|].
  rewrite IH, dict_get_set, filter_cons.
  destruct (decide (date_year (Event.date event) = year)) as [<-|Hne].
  - rewrite decide_True by done. simpl.
    destruct (filter _ rest) as [|e g].
    + destruct (Dict.get _ d); reflexivity.
    + destruct (Dict.get _ d); simpl; by rewrite <- ?app_assoc.
  - rewrite decide_False by done. reflexivity.
Qed.

Lemma StronglySorted_snoc {A : Type} (R : A -> A -> Prop) (l : list A) (y : A) :
  StronglySorted R l -> (forall x, x ∈ l -> R x y) -> StronglySorted R (l ++ [y]).
Proof.
  induction 1 as [|x l Hs IH Hall]; intros Hy; simpl.
  - repeat constructor.
  - constructor.
    + apply IH. intros z Hz. apply Hy. by right.
    + rewrite Forall_app. split; [exact Hall|].
      constructor; [|constructor]. apply Hy. left.
Qed.

Lemma group_by_year_keys (events : list Event.t) (d : list (Z * list Event.t)) :
  StronglySorted (fun a b => date_year (Event.date a) <= date_year (Event.date b))
                 events ->
  StronglySorted Z.lt (Dict.keys d) ->
  (forall k e, k ∈ Dict.keys d -> e ∈ events -> k <= date_year (Event.date e)) ->
  StronglySorted Z.lt (Dict.keys (group_by_year events d)).
Proof.
  revert d. induction events as [|event rest IH]; intros d Hev Hd Hle; simpl;
    [exact Hd|].
  apply StronglySorted_inv in Hev as [Hrest Hfirst].
  rewrite Forall_forall in Hfirst.
  apply IH; [exact Hrest|..]; rewrite dict_set_keys;
    destruct (decide (_ ∈ Dict.keys d)) as [Hin|Hin].
  - exact Hd.
  - apply StronglySorted_snoc; [exact Hd|]. intros k Hk.
    assert (k <= date_year (Event.date event)) by (apply Hle; [done|left]).
    assert (k <> date_year (Event.date event)) by congruence. lia.
  - intros k e Hk He. apply Hle; [done|by right].
  - intros k e [Hk| ->%list_elem_of_singleton]%elem_of_app He.
    + apply Hle; [done|by right].
    + by apply Hfirst.
Qed.

Lemma StronglySorted_weaken {A : Type} (R S : A -> A -> Prop) (l : list A) :
  (forall a b, R a b -> S a b) -> StronglySorted R l -> StronglySorted S l.
Proof.
  intros HRS. induction 1 as [|x l _ IH Hall]; constructor; [exact IH|].
  eapply Forall_impl; [exact Hall|]. intros b. apply HRS.
Qed.

Lemma group_by_year_spec (events : list Event.t) :
  StronglySorted Z.lt (Dict.keys (group_by_year (events_by_date events) [])) /\
  forall year,
    Dict.get year (group_by_year (events_by_date events) [])
    = match filter (fun e => date_year (Event.date e) = year)
                   (events_by_date events) with
      | [] => None
      | g => Some g
      end.
Proof.
  split.
  - apply group_by_year_keys.
    + eapply StronglySorted_weaken; [|apply events_by_date_sorted].
      intros a b. apply date_le_year.
    + constructor.
    + intros k e Hk. by apply elem_of_nil in Hk.
  - intros year. rewrite group_by_year_get. by destruct (filter _ _).
Qed.

(** X11: the schedule page writes nothing and shows every event of the
    table exactly once, in date order, and grouped by year: the years come
    in increasing order and each year's group holds the events of that
    year, in date order. *)
Theorem schedule_page_groups_events_by_year
    (strptime_date : string -> option date) (session : session_t)
    (form : params) (events : list Event.t) :
  signed_in session = true ->
  exists schedule_data events_by_year,
    schedule strptime_date session GET form events
    = Some (events, Render (schedule_html schedule_data events_by_year) None) /\
    Permutation schedule_data events /\
    StronglySorted (fun a b => date_lt (Event.date b) (Event.date a) = false)
                   schedule_data /\
    StronglySorted Z.lt (Dict.keys events_by_year) /\
    forall year,
      Dict.get year events_by_year
      = match filter (fun e => date_year (Event.date e) = year) schedule_data with
        | [] => None
        | g => Some g
        end.
Proof.
  intros Hs. unfold schedule. rewrite Hs. simpl.
  eexists _, _. split; [reflexivity|].
  split; [apply events_by_date_perm|].
  split; [apply events_by_date_sorted|].
  apply group_by_year_spec.
Qed.

Lemma schedule_page_groups_events_by_year_witness :
  exists schedule_data events_by_year,
    schedule demo_strptime visitor GET ∅ demo_events
    = Some (demo_events,
            Render (schedule_html schedule_data events_by_year) None) /\
    Permutation schedule_data demo_events /\
    StronglySorted (fun a b => date_lt (Event.date b) (Event.date a) = false)
                   schedule_data /\
    StronglySorted Z.lt (Dict.keys events_by_year) /\
    forall year,
      Dict.get year events_by_year
      = match filter (fun e => date_year (Event.date e) = year) schedule_data with
        | [] => None
        | g => Some g
        end.
Proof.
  apply (schedule_page_groups_events_by_year demo_strptime visitor ∅ demo_events).
  reflexivity.
Defined.

(** X12: the results page shows the events of type "match", each exactly
    once, in date order, grouped by year in the same way: increasing
    years, each group holding that year's matches in date order. *)
Theorem results_page_groups_matches_by_year (session : session_t)
    (events : list Event.t) :
  signed_in session = true ->
  exists match_events events_by_year,
    results session events
    = Render (results_html match_events events_by_year) None /\
    Permutation match_events
                (filter (fun e => Event.type e = "match") events) /\
    StronglySorted (fun a b => date_lt (Event.date b) (Event.date a) = false)
                   match_events /\
    StronglySorted Z.lt (Dict.keys events_by_year) /\
    forall year,
      Dict.get year events_by_year
      = match filter (fun e => date_year (Event.date e) = year) match_events with
        | [] => None
        | g => Some g
        end.
Proof.
  intros Hs. unfold results. rewrite Hs. simpl.
  eexists _, _. split; [reflexivity|].
  split; [apply events_by_date_perm|].
  split; [apply events_by_date_sorted|].
  apply group_by_year_spec.
Qed.

Lemma results_page_groups_matches_by_year_witness :
  exists match_events events_by_year,
    results visitor demo_events
    = Render (results_html match_events events_by_year) None /\
    Permutation match_events
                (filter (fun e => Event.type e = "match") demo_events) /\
    StronglySorted (fun a b => date_lt (Event.date b) (Event.date a) = false)
                   match_events /\
    StronglySorted Z.lt (Dict.keys events_by_year) /\
    forall year,
      Dict.get year events_by_year
      = match filter (fun e => date_year (Event.date e) = year) match_events with
        | [] => None
        | g => Some g
        end.
Proof.
  apply (results_page_groups_matches_by_year visitor demo_events).
  reflexivity.
Defined.

Lemma lookup_id_fresh {A : Type} (key : A -> Z) (table : list A) (r : A) :
  key r ∉ (key <$> table) -> lookup_id key (key r) (table ++ [r]) = Some r.
Proof.
  intros Hfresh. rewrite lookup_id_app.
  destruct (lookup_id key (key r) table) as [r'|] eqn:Hl.
  - apply lookup_id_Some in Hl as [Hin Hk]. destruct Hfresh.
    rewrite <- Hk. by apply list_elem_of_fmap_2.
  - unfold lookup_id. simpl. by rewrite bool_decide_eq_true_2.
Qed.

(** X13: a submission of the new-event form either adds nothing or
    appends exactly one event, of type "match", under a key no other event
    has: the events already stored are kept as they are, keys stay unique,
    the new key finds the new event, whose date, time and field are the
    submitted ones and whose lineup holds no player.  Only an admin
    submission adds an event. *)
Theorem schedule_post_appends_one_match
    (strptime_date : string -> option date) (session : session_t)
    (form : params) (events events' : list Event.t) (rep : reply) :
  consistent_events events ->
  schedule strptime_date session POST form events = Some (events', rep) ->
  events' = events \/
  exists new_event raw,
    events' = events ++ [new_event] /\
    logged_in session = true /\
    consistent_events events' /\
    lookup_id Event.id (Event.id new_event) events' = Some new_event /\
    Event.type new_event = "match" /\
    form !! "date" = Some raw /\
    strptime_date raw = Some (Event.date new_event) /\
    form !! "time" = Some (Event.time new_event) /\
    form !! "field" = Some (Event.field new_event) /\
    Forall (fun slot => slot.2 = "") (Event.lineup new_event).
Proof.
  intros Hc. unfold schedule.
  destruct (negb (signed_in session)); [intros [= <- _]; by left|].
  destruct (logged_in session); simpl; [|intros [= <- _]; by left].
  destruct (form !! "date") as [raw|]; [simpl|done].
  destruct (strptime_date raw) as [new_date|] eqn:Hd; [|intros [= <- _]; by left].
  destruct (form !! "time") as [time|]; [simpl|done].
  destruct (form !! "field") as [field|]; [simpl|done].
  intros [= <- _]. right. eexists _, raw.
  assert (Hfresh : fresh_id (Event.id <$> events) ∉ (Event.id <$> events))
    by apply fresh_id_notin.
  split_and!; try done.
  - unfold consistent_events. rewrite fmap_app. apply NoDup_app.
    split_and!; [exact Hc| |apply NoDup_singleton].
    intros k Hk ->%list_elem_of_singleton. by apply Hfresh.
  - by apply (lookup_id_fresh Event.id).
  - repeat constructor.
Qed.

Lemma schedule_post_appends_one_match_witness :
  exists events' rep,
    schedule demo_strptime admin POST demo_event_form demo_events
    = Some (events', rep) /\
    (events' = demo_events \/
     exists new_event raw,
       events' = demo_events ++ [new_event] /\
       logged_in admin = true /\
       consistent_events events' /\
       lookup_id Event.id (Event.id new_event) events' = Some new_event /\
       Event.type new_event = "match" /\
       demo_event_form !! "date" = Some raw /\
       demo_strptime raw = Some (Event.date new_event) /\
       demo_event_form !! "time" = Some (Event.time new_event) /\
       demo_event_form !! "field" = Some (Event.field new_event) /\
       Forall (fun slot => slot.2 = "") (Event.lineup new_event)).
Proof.
  eexists _, _. split; [reflexivity|].
  eapply (schedule_post_appends_one_match demo_strptime admin demo_event_form
            demo_events).
  - unfold consistent_events. apply (bool_decide_unpack _). vm_compute. exact I.
  - reflexivity.
Defined.

(** X14: a submission of the new-event form by an admin raises, and is
    answered by a server error rather than by a notice, when it has no
    [date] field at all, or has a date that parses but no [time] or no
    [field] field; a date that does not parse is answered by the notice
    and stores nothing. *)
Theorem schedule_post_fails_when_field_missing
    (strptime_date : string -> option date) (session : session_t)
    (form : params) (events : list Event.t) :
  logged_in session = true ->
  (form !! "date" = None ->
   schedule strptime_date session POST form events = None) /\
  (forall raw new_date,
     form !! "date" = Some raw -> strptime_date raw = Some new_date ->
     form !! "time" = None \/ form !! "field" = None ->
     schedule strptime_date session POST form events = None) /\
  (forall raw,
     form !! "date" = Some raw -> strptime_date raw = None ->
     schedule strptime_date session POST form events
     = Some (events,
             Redirect ep_schedule (Some "Invalid date format. Use YYYY-MM-DD."))).
Proof.
  intros Hl. unfold schedule, signed_in. rewrite Hl. simpl. split_and!.
  - by intros ->.
  - intros raw new_date -> Hd Hmissing. simpl. rewrite Hd.
    destruct Hmissing as [->| ->]; [reflexivity|].
    by destruct (form !! "time").
  - intros raw -> Hp. simpl. by rewrite Hp.
Qed.

Lemma schedule_post_fails_when_field_missing_witness :
  schedule demo_strptime admin POST ∅ demo_events = None /\
  schedule demo_strptime admin POST (<["date" := "2026-04-05"]> ∅) demo_events
  = None.
Proof.
  destruct (schedule_post_fails_when_field_missing demo_strptime admin ∅
              demo_events eq_refl) as (Hnone & _ & _).
  destruct (schedule_post_fails_when_field_missing demo_strptime admin
              (<["date" := "2026-04-05"]> ∅) demo_events eq_refl)
    as (_ & Htime & _).
  split; [by apply Hnone|].
  apply (Htime "2026-04-05" (2026, 4, 5)); [reflexivity | reflexivity | by left].
Defined.

(** *** Editing the lineup *)

Lemma lineup_loop_selected (form : params) (positions : list string)
    (d : list (string * string)) (sel : gset string) (name : string) :
  name ∈ (lineup_loop form positions d sel).2 <->
  name ∈ sel \/
  (name <> "" /\ exists pos, pos ∈ positions /\ get_str form pos "" = name).
Proof.
  revert d sel. induction positions as [|pos rest IH]; intros d sel; simpl.
  - split; [auto|]. intros [?|(_ & pos & Hpos & _)]; [done|].
    by apply elem_of_nil in Hpos.
  - rewrite IH. destruct (String.eqb_spec (get_str form pos "") "") as [He|Hne].
    + split.
      * intros [?|(Hn & p & Hp & Hv)]; [by left|].
        right. split; [done|]. exists p. split; [by right|done].
      * intros [?|(Hn & p & [->|Hp]%elem_of_cons & Hv)]; [by left|congruence|].
        right. split; [done|]. by exists p.
    + rewrite elem_of_union, elem_of_singleton. split.
      * intros [[->|?]|(Hn & p & Hp & Hv)].
        -- right. split; [done|]. exists pos. split; [left|done].
        -- by left.
        -- right. split; [done|]. exists p. split; [by right|done].
      * intros [?|(Hn & p & [->|Hp]%elem_of_cons & Hv)]; [auto|auto|].
        right. split; [done|]. by exists p.
Qed.

Lemma lineup_loop_get (form : params) (positions : list string)
    (d : list (string * string)) (sel : gset string) (pos : string) :
  Dict.get pos (lineup_loop form positions d sel).1
  = if decide (pos ∈ positions) then Some (get_str form pos "")
    else Dict.get pos d.
Proof.
  revert d sel. induction positions as [|p rest IH]; intros d sel; simpl.
  - reflexivity.
  - rewrite IH, dict_get_set.
    destruct (decide (pos ∈ rest)) as [Hin|Hin].
    + rewrite decide_True by (by right). reflexivity.
    + destruct (decide (pos = p)) as [->|Hne].
      * rewrite decide_True by left. reflexivity.
      * rewrite decide_False; [reflexivity|].
        rewrite not_elem_of_cons. auto.
Qed.

Lemma lineup_loop_keys (form : params) (positions : list string)
    (d : list (string * string)) (sel : gset string) :
  NoDup (Dict.keys d ++ positions) ->
  Dict.keys (lineup_loop form positions d sel).1 = Dict.keys d ++ positions.
Proof.
  revert d sel. induction positions as [|p rest IH]; intros d sel Hnd; simpl.
  - by rewrite app_nil_r.
  - assert (p ∉ Dict.keys d) as Hp.
    { apply NoDup_app in Hnd as (_ & Hd & _). intros Hin. apply (Hd p Hin). left. }
    rewrite IH; rewrite dict_set_keys, decide_False by done.
    + by rewrite <- app_assoc.
    + by rewrite <- app_assoc.
Qed.

(** X15: the lineup an edit stores has exactly the sixteen playing and
    substitute positions and "Beer Duty", in that order, followed by
    "Away"; each position holds what the form gives for it (nothing, when
    the field is missing); and "Away" holds, joined by commas and in the
    order of the given list, exactly the players named in no position.
    So every player of the list is either placed or away, never both. *)
Theorem edit_lineup_places_each_player_or_lists_away (form : params)
    (players : list PlayerInfo.t) :
  Dict.keys (submitted_lineup form players) = edit_positions ++ ["Away"] /\
  (forall pos, pos ∈ edit_positions ->
     Dict.get pos (submitted_lineup form players) = Some (get_str form pos "")) /\
  Dict.get "Away" (submitted_lineup form players)
  = Some (String.concat "," (away_players form players)) /\
  away_players form players
  = filter (fun name => name = "" \/
                        Forall (fun pos => get_str form pos "" <> name)
                               edit_positions)
           (PlayerInfo.name <$> players).
Proof.
  assert (Hnd : NoDup (edit_positions ++ ["Away"])).
  { apply (bool_decide_unpack _). vm_compute. exact I. }
  assert (Hkeys : Dict.keys (lineup_loop form edit_positions [] ∅).1
                  = edit_positions).
  { rewrite lineup_loop_keys; [reflexivity|].
    simpl. by apply NoDup_app in Hnd as (? & _). }
  assert (Haway : "Away" ∉ edit_positions).
  { apply NoDup_app in Hnd as (_ & H & _). intros Hin. apply (H _ Hin). left. }
  unfold submitted_lineup. cbv zeta. split_and!.
  - rewrite dict_set_keys, Hkeys. by rewrite decide_False.
  - intros pos Hpos. rewrite dict_get_set.
    rewrite decide_False by (intros ->; done).
    rewrite lineup_loop_get. by rewrite decide_True.
  - rewrite dict_get_set. by rewrite decide_True.
  - unfold away_players. cbv zeta. apply list_filter_iff. intros name.
    rewrite lineup_loop_selected, Forall_forall. split.
    + intros Hnot. destruct (decide (name = "")) as [->|Hne]; [by left|].
      right. intros pos Hpos Heq. apply Hnot. right. split; [done|]. by exists pos.
    + intros [->|Hall] [Hin|(Hne & pos & Hpos & Heq)].
      * by apply elem_of_empty in Hin.
      * done.
      * by apply elem_of_empty in Hin.
      * by apply (Hall pos).
Qed.

(** X16: editing an event of the schedule rewrites that event only: the
    keys and the recorded results of all events stay as they were, every
    other event is kept as it is, and a request that is not an admin's
    submission stores nothing.  After a successful edit the event has the
    submitted date and the lineup built from the form and the roster. *)
Theorem edit_schedule_rewrites_one_event
    (strptime_date : string -> option date) (session : session_t)
    (event_id : Z) (meth : method) (form : params) (db : DB)
    (events events' : list Event.t) (rep : reply) :
  edit_schedule strptime_date session event_id meth form db events
  = Some (events', rep) ->
  Event.id <$> events' = Event.id <$> events /\
  Event.result <$> events' = Event.result <$> events /\
  (forall e, e ∈ events -> Event.id e <> event_id -> e ∈ events') /\
  (logged_in session = false \/ meth = GET -> events' = events) /\
  (rep = Redirect ep_schedule (Some "Event updated successfully.") ->
   exists event raw,
     lookup_id Event.id event_id events' = Some event /\
     form !! "date" = Some raw /\
     strptime_date raw = Some (Event.date event) /\
     Event.lineup event = submitted_lineup form (players_by_name db)).
Proof.
  unfold edit_schedule.
  destruct (negb (signed_in session));
    [intros [= <- <-]; split_and!; done|].
  destruct (logged_in session); simpl;
    [|intros [= <- <-]; split_and!; done].
  destruct (lookup_id Event.id event_id events) as [event|] eqn:Hl;
    [|intros [= <- <-]; split_and!; done].
  destruct meth; [intros [= <- <-]; split_and!; done|].
  destruct (form !! "date") as [raw|]; [simpl|done].
  destruct (strptime_date raw) as [new_date|] eqn:Hd;
    [|intros [= <- <-]; split_and!; done].
  destruct (form !! "time") as [time|]; [simpl|done].
  destruct (form !! "field") as [field|]; [simpl|done].
  intros [= <- <-]. split_and!.
  - by apply update_id_fmap.
  - by apply update_id_fmap.
  - intros e He Hne. by apply update_id_other.
  - by intros [[=]|[=]].
  - intros _. eexists _, raw. split; [|split; [reflexivity|]].
    + rewrite lookup_id_update by done. rewrite Hl, decide_True by done.
      reflexivity.
    + by split.
Qed.

Lemma edit_schedule_rewrites_one_event_witness :
  exists events',
    edit_schedule demo_strptime admin 2 POST demo_event_form
                  (mkDB demo_roster [] []) demo_events
    = Some (events', Redirect ep_schedule (Some "Event updated successfully.")) /\
    Event.result <$> events' = Event.result <$> demo_events /\
    exists event,
      lookup_id Event.id 2 events' = Some event /\
      Event.date event = (2026, 4, 5).
Proof.
  eexists. split; [reflexivity|].
  destruct (edit_schedule_rewrites_one_event demo_strptime admin 2 POST
              demo_event_form (mkDB demo_roster [] []) demo_events _ _ eq_refl)
    as (_ & Hres & _ & _ & Hev).
  split; [exact Hres|].
  destruct (Hev eq_refl) as (event & raw & Hl & Hraw & Hd & _).
  exists event. split; [exact Hl|].
  injection Hraw as <-. by injection Hd as <-.
Defined.

(** X17: deleting an event as admin removes every row with that key and
    nothing else; the key then finds no event, so repeating the request
    is answered by not-found and changes nothing.  The first request is
    answered by not-found exactly when no event has the key. *)
Theorem delete_schedule_removes_that_event (session : session_t)
    (event_id : Z) (events : list Event.t) :
  logged_in session = true ->
  (delete_schedule session event_id events).1
  = filter (fun e => Event.id e <> event_id) events /\
  lookup_id Event.id event_id (delete_schedule session event_id events).1 = None /\
  delete_schedule session event_id (delete_schedule session event_id events).1
  = ((delete_schedule session event_id events).1, Abort404) /\
  ((delete_schedule session event_id events).2 = Abort404 <->
   event_id ∉ (Event.id <$> events)).
Proof.
  intros Hadmin.
  assert (Hrun : delete_schedule session event_id events
                 = (delete_id Event.id event_id events,
                    match lookup_id Event.id event_id events with
                    | Some _ =>
                        Redirect ep_schedule (Some "Event deleted successfully.")
                    | None => Abort404
                    end)).
  { unfold delete_schedule, signed_in. rewrite Hadmin. simpl.
    destruct (lookup_id Event.id event_id events) as [event|] eqn:Hl.
    - by apply lookup_id_Some in Hl as [_ ->].
    - by rewrite delete_id_absent by (by apply lookup_id_None). }
  rewrite Hrun. simpl. split_and!.
  - reflexivity.
  - apply delete_id_lookup.
  - unfold delete_schedule, signed_in. rewrite Hadmin. simpl.
    by rewrite delete_id_lookup.
  - rewrite <- lookup_id_None.
    destruct (lookup_id Event.id event_id events); split; done.
Qed.

Lemma delete_schedule_removes_that_event_witness :
  lookup_id Event.id 2 (delete_schedule admin 2 demo_events).1 = None /\
  (delete_schedule admin 2 demo_events).1
  = filter (fun e => Event.id e <> 2) demo_events.
Proof.
  destruct (delete_schedule_removes_that_event admin 2 demo_events)
    as (H1 & H2 & _).
  - reflexivity.
  - by split.
Defined.

(** *** Recording a result *)

Lemma get_str_nonempty (form : params) (key v : string) :
  get_str form key "" = v -> v <> "" -> form !! key = Some v.
Proof.
  unfold get_str. destruct (form !! key); [by intros ->|]. by intros <-.
Qed.

Lemma counted_entries_sound (form : params) (player_key count_key label : string)
    (indices : list Z) (entries : list json) :
  counted_entries form player_key count_key label indices = Some entries ->
  (length entries <= length indices)%nat /\
  Forall (fun entry => exists i, i ∈ indices /\
            counted_row form player_key count_key label i entry) entries.
Proof.
  revert entries. induction indices as [|i rest IH]; intros entries; simpl.
  - intros [= <-]. split; [done|constructor].
  - destruct (String.eqb_spec (get_str form (player_key +:+ pretty i) "") "")
      as [Hp|Hp]; simpl.
    { intros [Hlen Hall]%IH. split; [lia|].
      eapply Forall_impl; [exact Hall|]. intros e (j & Hj & Hrow).
      exists j. split; [by right|done]. }
    destruct (String.eqb_spec (get_str form (count_key +:+ pretty i) "") "")
      as [Hc|Hc]; simpl.
    { intros [Hlen Hall]%IH. split; [lia|].
      eapply Forall_impl; [exact Hall|]. intros e (j & Hj & Hrow).
      exists j. split; [by right|done]. }
    destruct (Py.int_of_str _) as [n|] eqn:Hn; [simpl|done].
    destruct (counted_entries _ _ _ _ rest) as [es|]; [simpl|done].
    intros [= <-]. destruct (IH es eq_refl) as [Hlen Hall].
    split; [simpl; lia|]. constructor.
    + exists i. split; [left|].
      exists (get_str form (player_key +:+ pretty i) ""),
             (get_str form (count_key +:+ pretty i) ""), n.
      split_and!; try done; by apply get_str_nonempty.
    + eapply Forall_impl; [exact Hall|]. intros e (j & Hj & Hrow).
      exists j. split; [by right|done].
Qed.

Lemma card_entries_sound (form : params) (key : string) (indices : list Z) :
  (length (card_entries form key indices) <= length indices)%nat /\
  Forall (fun entry => exists i, i ∈ indices /\ card_row form key i entry)
         (card_entries form key indices).
Proof.
  induction indices as [|i rest [Hlen Hall]]; simpl; [by split|].
  assert (Hrest : Forall (fun entry => exists j, j ∈ i :: rest /\
                            card_row form key j entry)
                         (card_entries form key rest)).
  { eapply Forall_impl; [exact Hall|]. intros e (j & Hj & Hrow).
    exists j. split; [by right|done]. }
  destruct (String.eqb_spec (get_str form (key +:+ pretty i) "") "")
    as [Hp|Hp]; simpl.
  - split; [lia|done].
  - split; [lia|]. constructor; [|done].
    exists i. split; [left|]. exists (get_str form (key +:+ pretty i) "").
    split_and!; try done. by apply get_str_nonempty.
Qed.

Lemma range_bounds (n : Z) (l : list json) (P : Z -> json -> Prop) :
  (length l <= length (seqZ 1 n))%nat /\
  Forall (fun entry => exists i, i ∈ seqZ 1 n /\ P i entry) l ->
  Z.of_nat (length l) <= Z.max 0 n /\
  Forall (fun entry => exists i, 1 <= i <= n /\ P i entry) l.
Proof.
  intros [Hlen Hall]. rewrite length_seqZ in Hlen. split; [lia|].
  eapply Forall_impl; [exact Hall|]. intros e (i & Hi%elem_of_seqZ & HP).
  exists i. split; [lia|done].
Qed.

(** X18: the result document a submission produces holds the two
    submitted scores and four lists read from the numbered rows of the
    form.  Each list has at most as many entries as its submitted count;
    every goal-scorer and assist entry comes from a row between 1 and the
    count whose player and count are both filled in, the count being an
    integer literal, and every card entry from such a row that names a
    player; rows beyond the count are not read. *)
Theorem submitted_result_follows_counts (form : params) (doc : json) :
  submitted_result form = Some doc ->
  exists num_goal_scorers num_assists num_yellow num_red
         goal_scorers assist_list yellow_cards red_cards,
    form_int form "num_goal_scorers" = Some num_goal_scorers /\
    form_int form "num_assists" = Some num_assists /\
    form_int form "num_yellow_cards" = Some num_yellow /\
    form_int form "num_red_cards" = Some num_red /\
    doc = JDict [("home_score", JStr (get_str form "home_score" ""));
                 ("away_score", JStr (get_str form "away_score" ""));
                 ("goal_scorers", JList goal_scorers);
                 ("assists", JList assist_list);
                 ("cards", JDict [("yellow", JList yellow_cards);
                                  ("red", JList red_cards)])] /\
    (Z.of_nat (length goal_scorers) <= Z.max 0 num_goal_scorers /\
     Forall (fun entry => exists i, 1 <= i <= num_goal_scorers /\
               counted_row form "goal_scorer_" "goal_count_" "goals" i entry)
            goal_scorers) /\
    (Z.of_nat (length assist_list) <= Z.max 0 num_assists /\
     Forall (fun entry => exists i, 1 <= i <= num_assists /\
               counted_row form "assist_player_" "assist_count_" "assists" i entry)
            assist_list) /\
    (Z.of_nat (length yellow_cards) <= Z.max 0 num_yellow /\
     Forall (fun entry => exists i, 1 <= i <= num_yellow /\
               card_row form "yellow_card_" i entry) yellow_cards) /\
    (Z.of_nat (length red_cards) <= Z.max 0 num_red /\
     Forall (fun entry => exists i, 1 <= i <= num_red /\
               card_row form "red_card_" i entry) red_cards).
Proof.
  unfold submitted_result. cbv zeta.
  destruct (form_int form "num_goal_scorers") as [n1|]; [simpl|done].
  destruct (counted_entries form "goal_scorer_" _ _ _) as [gs|] eqn:Hgs;
    [simpl|done].
  destruct (form_int form "num_assists") as [n2|]; [simpl|done].
  destruct (counted_entries form "assist_player_" _ _ _) as [as_|] eqn:Has;
    [simpl|done].
  destruct (form_int form "num_yellow_cards") as [n3|]; [simpl|done].
  destruct (form_int form "num_red_cards") as [n4|]; [simpl|done].
  intros [= <-]. eexists n1, n2, n3, n4, gs, as_, _, _.
  apply counted_entries_sound, range_bounds in Hgs.
  apply counted_entries_sound, range_bounds in Has.
  pose proof (range_bounds n3 _ _ (card_entries_sound form "yellow_card_"
                                                     (seqZ 1 n3))) as Hy.
  pose proof (range_bounds n4 _ _ (card_entries_sound form "red_card_"
                                                     (seqZ 1 n4))) as Hr.
  repeat (split; [done|]). done.
Qed.

Lemma submitted_result_follows_counts_witness :
  exists goal_scorers,
    form_int demo_result_form "num_goal_scorers" = Some 2 /\
    Z.of_nat (length goal_scorers) <= Z.max 0 2 /\
    Forall (fun entry => exists i, 1 <= i <= 2 /\
              counted_row demo_result_form "goal_scorer_" "goal_count_"
                          "goals" i entry)
           goal_scorers.
Proof.
  destruct (submitted_result_follows_counts demo_result_form _ eq_refl)
    as (n1 & n2 & n3 & n4 & gs & al & yc & rc & H1 & _ & _ & _ & _
        & [Hlen Hall] & _).
  exists gs. injection H1 as <-. by split_and!.
Defined.

Lemma counted_entries_bad_row (form : params)
    (player_key count_key label : string) (indices : list Z) (i : Z)
    (player count : string) :
  i ∈ indices ->
  form !! (player_key +:+ pretty i) = Some player -> player <> "" ->
  form !! (count_key +:+ pretty i) = Some count -> count <> "" ->
  Py.int_of_str count = None ->
  counted_entries form player_key count_key label indices = None.
Proof.
  intros Hi Hp Hpne Hc Hcne Hbad.
  induction indices as [|j rest IH]; [by apply elem_of_nil in Hi|]. simpl.
  destruct (decide (j = i)) as [->|Hne].
  - unfold get_str. rewrite Hp, Hc.
    rewrite (eqb_empty_false _ Hpne), (eqb_empty_false _ Hcne). simpl.
    by rewrite Hbad.
  - apply elem_of_cons in Hi as [?|Hi]; [congruence|].
    rewrite (IH Hi). destruct (_ && _); [|reflexivity].
    by destruct (Py.int_of_str (get_str form (count_key +:+ pretty j) "")).
Qed.

(** X19: a result submission is all or nothing.  If one of the goal-scorer
    rows within the submitted count names a player and has a count that is
    not an integer literal, the request raises and stores nothing, however
    valid the rest of the form is; the event keeps its previous result. *)
Theorem edit_result_rejects_non_numeric_count (session : session_t)
    (event_id : Z) (form : params) (db : DB) (events : list Event.t)
    (num_goal_scorers i : Z) (player count : string) :
  signed_in session = true ->
  event_id ∈ (Event.id <$> events) ->
  form_int form "num_goal_scorers" = Some num_goal_scorers ->
  1 <= i <= num_goal_scorers ->
  form !! ("goal_scorer_" +:+ pretty i) = Some player -> player <> "" ->
  form !! ("goal_count_" +:+ pretty i) = Some count -> count <> "" ->
  Py.int_of_str count = None ->
  edit_result session event_id POST form db events = None.
Proof.
  intros Hs Hid Hn Hi Hp Hpne Hc Hcne Hbad. unfold edit_result.
  rewrite Hs. simpl.
  destruct (lookup_id Event.id event_id events) as [event|] eqn:Hl.
  2: { apply lookup_id_None in Hl. contradiction. }
  unfold submitted_result. cbv zeta. rewrite Hn. simpl.
  rewrite (counted_entries_bad_row form _ _ _ _ i player count); try done.
  apply elem_of_seqZ. lia.
Qed.

Lemma edit_result_rejects_non_numeric_count_witness :
  edit_result visitor 1 POST bad_result_form (mkDB [] [] []) demo_events = None.
Proof.
  apply (edit_result_rejects_non_numeric_count visitor 1 bad_result_form
           (mkDB [] [] []) demo_events 2 1 "Ann" "two");
    try reflexivity; try discriminate; try lia.
  apply (bool_decide_unpack _). vm_compute. exact I.
Defined.

Lemma form_int_None (form : params) (key : string) :
  form !! key = None -> form_int form key = Some 0.
Proof. unfold form_int. by intros ->. Qed.

(** X20: a result submission that carries none of the two scores and none
    of the four counts stores the empty result, whatever numbered rows it
    carries besides: for an admin it leaves the events exactly as
    [delete_result] would. *)
Theorem edit_result_without_counts_clears_result (session : session_t)
    (event_id : Z) (form : params) (db : DB) (events : list Event.t) :
  logged_in session = true ->
  event_id ∈ (Event.id <$> events) ->
  Forall (fun key => form !! key = None) result_header_fields ->
  submitted_result form = Some empty_result /\
  edit_result session event_id POST form db events
  = Some ((delete_result session event_id events).1,
          Redirect ep_results (Some "Result updated successfully.")).
Proof.
  intros Hadmin Hid Hnone.
  assert (Hdoc : submitted_result form = Some empty_result).
  { unfold result_header_fields in Hnone.
    repeat (apply Forall_cons in Hnone as [? Hnone]).
    unfold submitted_result, get_str. cbv zeta.
    rewrite !form_int_None by done.
    by repeat match goal with H : form !! _ = None |- _ => rewrite H; clear H end. }
  split; [exact Hdoc|].
  unfold edit_result, delete_result, signed_in. rewrite Hadmin. simpl.
  destruct (lookup_id Event.id event_id events) as [event|] eqn:Hl.
  2: { apply lookup_id_None in Hl. contradiction. }
  by rewrite Hdoc.
Qed.

Lemma edit_result_without_counts_clears_result_witness :
  submitted_result stray_result_form = Some empty_result /\
  edit_result admin 3 POST stray_result_form (mkDB [] [] []) demo_events
  = Some ((delete_result admin 3 demo_events).1,
          Redirect ep_results (Some "Result updated successfully.")).
Proof.
  apply (edit_result_without_counts_clears_result admin 3 stray_result_form
           (mkDB [] [] []) demo_events).
  - reflexivity.
  - apply (bool_decide_unpack _). vm_compute. exact I.
  - apply (bool_decide_unpack _). vm_compute. exact I.
Defined.

(** X21: recording a result asks for a signed-in session only: a guest's
    submission is stored exactly as an admin's, whereas a guest's request
    to delete a result stores nothing.  Neither view ever changes anything
    of an event but its result. *)
Theorem edit_result_is_open_to_guests (s1 s2 : session_t) (event_id : Z)
    (meth : method) (form : params) (db : DB) (events : list Event.t) :
  signed_in s1 = true -> signed_in s2 = true ->
  edit_result s1 event_id meth form db events
  = edit_result s2 event_id meth form db events /\
  (logged_in s1 = false -> (delete_result s1 event_id events).1 = events) /\
  (forall events' rep,
     edit_result s1 event_id meth form db events = Some (events', rep) ->
     event_schedule <$> events' = event_schedule <$> events) /\
  event_schedule <$> (delete_result s1 event_id events).1
  = event_schedule <$> events.
Proof.
  intros H1 H2. split_and!.
  - unfold edit_result. by rewrite H1, H2.
  - intros Hl. unfold delete_result. rewrite H1, Hl. reflexivity.
  - intros events' rep. unfold edit_result. rewrite H1. simpl.
    destruct (lookup_id Event.id event_id events) as [event|];
      [|by intros [= <- _]].
    destruct meth; [by intros [= <- _]|].
    destruct (submitted_result form) as [doc|]; [simpl|done].
    intros [= <- _]. by apply update_id_fmap.
  - unfold delete_result. rewrite H1. simpl.
    destruct (logged_in s1); simpl; [|reflexivity].
    destruct (lookup_id Event.id event_id events); [|reflexivity].
    by apply update_id_fmap.
Qed.

Lemma edit_result_is_open_to_guests_witness :
  edit_result visitor 1 POST demo_result_form (mkDB [] [] []) demo_events
  = edit_result admin 1 POST demo_result_form (mkDB [] [] []) demo_events /\
  (delete_result visitor 1 demo_events).1 = demo_events.
Proof.
  destruct (edit_result_is_open_to_guests visitor admin 1 POST
              demo_result_form (mkDB [] [] []) demo_events) as (H1 & H2 & _).
  - reflexivity.
  - reflexivity.
  - split; [exact H1|]. by apply H2.
Defined.

(** ** Sessions and access *)

(** X22: with both admin credentials configured, a request to the login
    view sets the admin flag exactly when it is a submission whose
    [username] and [password] fields are both present and equal to them;
    it never clears a flag and never sets the guest flag.  With neither
    credential configured, a submission that carries neither field is
    accepted. *)
Theorem login_accepts_matching_submission_only (cfg : admin_config)
    (meth : method) (form : params) (session : session_t) :
  guest (login cfg meth form session).1 = guest session /\
  (forall username password,
     ADMIN_USERNAME cfg = Some username -> ADMIN_PASSWORD cfg = Some password ->
     (logged_in (login cfg meth form session).1 = true <->
      logged_in session = true \/
      (meth = POST /\ form !! "username" = Some username /\
       form !! "password" = Some password))) /\
  (ADMIN_USERNAME cfg = None -> ADMIN_PASSWORD cfg = None ->
   form !! "username" = None -> form !! "password" = None ->
   logged_in (login cfg POST form session).1 = true).
Proof.
  unfold login. split_and!.
  - destruct meth; [reflexivity|]. by destruct (_ && _).
  - intros username password -> ->. destruct meth; simpl.
    + split; [auto|]. by intros [?|[[=] _]].
    + destruct (bool_decide _ && bool_decide _) eqn:Hb; simpl.
      * apply andb_prop in Hb as [Hu%bool_decide_eq_true Hp%bool_decide_eq_true].
        split; auto.
      * split; [auto|]. intros [?|(_ & Hu & Hp)]; [done|].
        by rewrite Hu, Hp, !bool_decide_eq_true_2 in Hb.
  - intros -> -> -> ->. reflexivity.
Qed.



(** *** What a request without the admin flag leaves alone *)

Lemma ensure_player_frame (players : list PlayerInfo.t) (db db' : DB)
    (m : list (string * Z)) (created : bool) :
  _ensure_player_stat_rows players db = Some (db', m, created) ->
  player_info db' = player_info db /\
  season_stat db' = season_stat db /\
  exists new_rows, player_stat db' = player_stat db ++ new_rows /\
                   Forall zero_row new_rows.
Proof.
  unfold _ensure_player_stat_rows. cbv zeta.
  destruct (negb _).
  - destruct (flush _) as [db1|] eqn:Hf; [simpl|done].
    apply flush_Some in Hf as [-> _]. intros [= <- _ _].
    split_and!; try done. eexists. split; [reflexivity|].
    apply new_player_stats_zero.
  - intros [= <- _ _]. split_and!; try done.
    exists []. by rewrite app_nil_r.
Qed.

Lemma ensure_season_frame (players : list PlayerInfo.t) (year : Z)
    (db db' : DB) (m : list (Z * Z)) (created : bool) :
  _ensure_season_stat_rows players year db = Some (db', m, created) ->
  player_info db' = player_info db /\ player_stat db' = player_stat db.
Proof.
  unfold _ensure_season_stat_rows.
  destruct (bool_decide (players = [])); [by intros [= <- _ _]|].
  cbv zeta. destruct (season_missing _ _ _ _ _) as [d missing].
  destruct (negb _).
  - destruct (flush _) as [db1|] eqn:Hf; [simpl|done].
    apply flush_Some in Hf as [-> _]. by intros [= <- _ _].
  - by intros [= <- _ _].
Qed.

Lemma backfill_frame (m : list (string * Z)) (refs : list Z) (db db' : DB) :
  backfill m refs db = Some db' ->
  player_info db' = player_info db /\ player_stat db' = player_stat db.
Proof.
  revert db. induction refs as [|k rest IH]; intros db; simpl.
  - by intros [= <-].
  - destruct (lookup_id SeasonStat.id k (season_stat db)) as [stat|];
      [simpl|done].
    destruct (season_player (player_info db) stat) as [player|]; [simpl|done].
    destruct (Dict.get _ m) as [b|]; [|apply IH].
    destruct (lookup_id PlayerStat.id b (player_stat db)) as [base|];
      [simpl|done].
    intros [H1 H2]%IH. by rewrite H1, H2.
Qed.

Lemma stats_setup_frame (db db' : DB) (all_players : list PlayerInfo.t)
    (m_agg : list (string * Z)) (m_season : list (Z * Z)) (changed : bool) :
  stats_setup db = Some (db', all_players, m_agg, m_season, changed) ->
  player_info db' = player_info db /\
  exists new_rows, player_stat db' = player_stat db ++ new_rows /\
                   Forall zero_row new_rows.
Proof.
  unfold stats_setup. cbv zeta.
  destruct (_ensure_player_stat_rows _ db) as [[[db1 m1] c1]|] eqn:H1;
    [simpl|done].
  apply ensure_player_frame in H1 as (Hpi1 & _ & new_rows & Hps1 & Hzero).
  destruct (_ensure_season_stat_rows _ _ db1) as [[[db2 m2] c2]|] eqn:H2;
    [simpl|done].
  apply ensure_season_frame in H2 as (Hpi2 & Hps2).
  destruct c2.
  - destruct (backfill _ _ db2) as [db3|] eqn:H3; [simpl|done].
    apply backfill_frame in H3 as (Hpi3 & Hps3).
    intros [= <- _ _ _ _]. split; [congruence|].
    exists new_rows. split; [congruence|done].
  - intros [= <- _ _ _ _]. split; [congruence|].
    exists new_rows. split; [congruence|done].
Qed.

Lemma stats_without_admin (session : session_t) (meth : method)
    (args form : params) (db db' : DB) (resp : response) :
  logged_in session = false ->
  stats session meth args form db = Some (db', resp) ->
  player_info db' = player_info db /\
  exists new_rows, player_stat db' = player_stat db ++ new_rows /\
                   Forall zero_row new_rows.
Proof.
  intros Hl. unfold stats. rewrite Hl.
  assert (Hsame : player_info db = player_info db /\
            exists new_rows, player_stat db = player_stat db ++ new_rows /\
                             Forall zero_row new_rows).
  { split; [done|]. exists []. by rewrite app_nil_r. }
  destruct (negb _); [by intros [= <- _]|].
  destruct (stats_setup db) as [[[[[db1 ps] m1] m2] ch]|] eqn:Hsetup;
    [simpl|done].
  apply stats_setup_frame in Hsetup.
  destruct (deref PlayerStat.id _ _) as [rows1|]; [simpl|done].
  destruct (deref SeasonStat.id _ _) as [rows2|]; [simpl|done].
  assert (Hend : forall d, (if ch then commit db1 else Some db1) = Some d ->
                           d = db1).
  { intros d. destruct ch; [|by intros [= <-]].
    by intros [-> _]%commit_Some. }
  destruct meth; destruct (if ch then commit db1 else Some db1) as [d|] eqn:Hc;
    simpl; try done; intros [= <- _]; by rewrite (Hend d eq_refl).
Qed.

Lemma handle_without_admin (strptime_date : string -> option date)
    (req : request) (session : session_t) (db : DB) :
  logged_in session = false ->
  match req with
  | ReqStats s _ _ _ | ReqPlayers s _ _ | ReqAddPlayer s _
  | ReqDeletePlayer s _ => s = session
  end ->
  player_info (handle strptime_date req db).1 = player_info db /\
  exists new_rows,
    player_stat (handle strptime_date req db).1 = player_stat db ++ new_rows /\
    Forall zero_row new_rows.
Proof.
  intros Hl Hreq.
  assert (Hsame : player_info db = player_info db /\
            exists new_rows, player_stat db = player_stat db ++ new_rows /\
                             Forall zero_row new_rows).
  { split; [done|]. exists []. by rewrite app_nil_r. }
  unfold handle. destruct req; subst session0; simpl.
  - destruct (stats session meth args form db) as [[db' r]|] eqn:Hrun;
      [|exact Hsame].
    simpl. by eapply stats_without_admin.
  - unfold players. rewrite Hl.
    destruct (negb _); [exact Hsame|]. by destruct meth.
  - unfold add_player. by rewrite Hl.
  - unfold delete_player. by rewrite Hl.
Qed.

Lemma kept_without_admin_refl (st : site) : kept_without_admin st st.
Proof.
  split_and!; try done. exists []. by rewrite app_nil_r.
Qed.

Lemma kept_without_admin_trans (st1 st2 st3 : site) :
  kept_without_admin st1 st2 -> kept_without_admin st2 st3 ->
  kept_without_admin st1 st3.
Proof.
  intros (Hp1 & (n1 & Hs1 & Hz1) & He1) (Hp2 & (n2 & Hs2 & Hz2) & He2).
  split_and!; [congruence| |congruence].
  exists (n1 ++ n2). split.
  - by rewrite Hs2, Hs1, app_assoc.
  - by apply Forall_app.
Qed.

Lemma serve_without_admin (cfg : admin_config) (today : date)
    (strptime_date : string -> option date) (a : action)
    (session : session_t) (st : site) :
  logged_in session = false -> ~ presents_credentials cfg a ->
  logged_in (serve cfg today strptime_date a session st).1.1 = false /\
  kept_without_admin st (serve cfg today strptime_date a session st).1.2.
Proof.
  intros Hl Hcred. pose proof (kept_without_admin_refl st) as Hrefl.
  assert (Htables : forall req,
            match req with
            | ReqStats s _ _ _ | ReqPlayers s _ _ | ReqAddPlayer s _
            | ReqDeletePlayer s _ => s = session
            end ->
            logged_in (serve_tables strptime_date req session st).1.1 = false /\
            kept_without_admin st (serve_tables strptime_date req session st).1.2).
  { intros req Hreq. unfold serve_tables.
    destruct (handle_without_admin strptime_date req session (tables st) Hl Hreq)
      as (Hpi & Hps).
    destruct (handle strptime_date req (tables st)) as [db r]. simpl in *.
    by split_and!. }
  destruct a; simpl; try (by split); try (by apply Htables).
  - unfold login. destruct meth; [by split|].
    destruct (bool_decide _ && bool_decide _) eqn:Hb; [|by split].
    apply andb_prop in Hb as [Hu%bool_decide_eq_true Hp%bool_decide_eq_true].
    destruct Hcred. by exists form.
  - unfold schedule. rewrite Hl.
    destruct (negb _); [by split|]. by destruct meth.
  - unfold edit_schedule. rewrite Hl. by destruct (negb _).
  - unfold delete_schedule. rewrite Hl. by destruct (negb _).
  - unfold edit_result.
    destruct (negb _); [by split|].
    destruct (lookup_id Event.id event_id (events st)); [|by split].
    destruct meth; [by split|].
    destruct (submitted_result form) as [doc|]; [simpl|by split].
    split; [done|]. destruct Hrefl as (H1 & H2 & _).
    split_and!; try done. simpl. by apply update_id_fmap.
  - unfold delete_result. rewrite Hl. by destruct (negb _).
Qed.

(** X24: whatever sequence of requests a client sends, as long as its
    session does not hold the admin flag at the start and no request is a
    login submission that carries the configured credentials, the admin
    flag is never set, the roster stays as it is, the rows of the
    aggregate table keep their counters (rows with zero counters may be
    appended when statistics are viewed), and the date, time, field,
    opponent, type and lineup of every event stay as they are.  Nothing is
    said of event results and season rows, which such requests can
    change. *)
Theorem requests_without_admin_keep_roster_and_schedule (cfg : admin_config)
    (today : date) (strptime_date : string -> option date)
    (actions : list action) (session : session_t) (st : site) :
  logged_in session = false ->
  Forall (fun a => ~ presents_credentials cfg a) actions ->
  logged_in (serve_all cfg today strptime_date actions session st).1 = false /\
  kept_without_admin st (serve_all cfg today strptime_date actions session st).2.
Proof.
  intros Hl Hall. revert session st Hl.
  induction Hall as [|a rest Ha _ IH]; intros session st Hl; simpl.
  - split; [done|apply kept_without_admin_refl].
  - destruct (serve_without_admin cfg today strptime_date a session st Hl Ha)
      as [Hl1 Hk1].
    destruct (serve cfg today strptime_date a session st) as [[s1 st1] out].
    simpl in *. destruct (IH s1 st1 Hl1) as [Hl2 Hk2].
    split; [exact Hl2|]. by eapply kept_without_admin_trans.
Qed.

(** *** Constraints kept by every request *)

Lemma events_ok_update (event_id : Z) (f : Event.t -> Event.t)
    (events : list Event.t) :
  (forall e, Event.id (f e) = Event.id e) ->
  (forall e, Event.type (f e) = Event.type e) ->
  consistent_events events /\ Forall (fun e => Event.type e = "match") events ->
  consistent_events (update_id Event.id event_id f events) /\
  Forall (fun e => Event.type e = "match") (update_id Event.id event_id f events).
Proof.
  intros Hid Hty [Hc Hm]. split.
  - unfold consistent_events. by rewrite update_id_fmap.
  - rewrite Forall_forall in *. intros e (e0 & He0 & [->|[_ ->]])%update_id_elem;
      [auto|]. rewrite Hty. auto.
Qed.

Lemma filter_all {A : Type} (P : A -> Prop) `{forall x, Decision (P x)}
    (l : list A) :
  Forall P l -> filter P l = l.
Proof.
  induction 1 as [|x l Hx _ IH]; [done|].
  by rewrite filter_cons, decide_True, IH.
Qed.

Lemma serve_site_ok (cfg : admin_config) (today : date)
    (strptime_date : string -> option date) (a : action)
    (session : session_t) (st : site) :
  site_ok st -> site_ok (serve cfg today strptime_date a session st).1.2.
Proof.
  intros (Hdb & Hev & Hm).
  assert (Hst : site_ok st) by done.
  assert (Htables : forall req,
            site_ok (serve_tables strptime_date req session st).1.2).
  { intros req. unfold serve_tables, handle.
    destruct (route strptime_date req (tables st)) as [[db r]|] eqn:Hr;
      [|exact Hst].
    split_and!; try done. simpl. by eapply route_consistent. }
  assert (Hevents : forall r,
            (forall evs rep, r = Some (evs, rep) ->
               consistent_events evs /\
               Forall (fun e => Event.type e = "match") evs) ->
            site_ok (serve_events r session st).1.2).
  { intros [[evs rep]|] Hr; simpl; [|exact Hst].
    destruct (Hr evs rep eq_refl). by split_and!. }
  destruct a; cbn [serve]; try exact Hst; try apply Htables;
    [by destruct (login cfg meth form session)|..]; apply Hevents;
    intros evs rep.
  - unfold schedule. destruct (negb _); [by intros [= <- _]|].
    destruct meth; [by intros [= <- _]|].
    destruct (negb _); [by intros [= <- _]|].
    destruct (form !! "date") as [raw|]; [simpl|done].
    destruct (strptime_date raw); [|by intros [= <- _]].
    destruct (form !! "time"); [simpl|done].
    destruct (form !! "field"); [simpl|done].
    intros [= <- _]. split.
    + unfold consistent_events. rewrite fmap_app. apply NoDup_app.
      split_and!; [exact Hev| |apply NoDup_singleton].
      intros k Hk ->%list_elem_of_singleton.
      by apply (fresh_id_notin (Event.id <$> events st)).
    + apply Forall_app. split; [exact Hm|]. by repeat constructor.
  - unfold edit_schedule. destruct (negb _); [by intros [= <- _]|].
    destruct (negb _); [by intros [= <- _]|].
    destruct (lookup_id _ _ _); [|by intros [= <- _]].
    destruct meth; [by intros [= <- _]|].
    destruct (form !! "date") as [raw|]; [simpl|done].
    destruct (strptime_date raw); [|by intros [= <- _]].
    destruct (form !! "time"); [simpl|done].
    destruct (form !! "field"); [simpl|done].
    intros [= <- _]. by apply events_ok_update.
  - intros [= Hd]. revert Hd. unfold delete_schedule.
    destruct (negb _); [by intros [= <- _]|].
    destruct (negb _); [by intros [= <- _]|].
    destruct (lookup_id _ _ _); [|by intros [= <- _]].
    intros [= <- _]. split.
    + unfold consistent_events, delete_id. by apply NoDup_fmap_filter.
    + rewrite Forall_forall in *.
      intros e [_ He]%delete_id_elem. auto.
  - unfold edit_result. destruct (negb _); [by intros [= <- _]|].
    destruct (lookup_id _ _ _); [|by intros [= <- _]].
    destruct meth; [by intros [= <- _]|].
    destruct (submitted_result form); [simpl|done].
    intros [= <- _]. by apply events_ok_update.
  - intros [= Hd]. revert Hd. unfold delete_result.
    destruct (negb _); [by intros [= <- _]|].
    destruct (negb _); [by intros [= <- _]|].
    destruct (lookup_id _ _ _); [|by intros [= <- _]].
    intros [= <- _]. by apply events_ok_update.
Qed.

(** X25: the declared constraints survive every sequence of requests, of
    any session: started in a state in which keys and the unique columns
    of the roster and statistics tables are unique, season rows reference
    players, event keys are unique and every event is a match, the site
    ends in such a state.  In particular every event stays a match, so
    the results page leaves out no event. *)
Theorem site_constraints_survive_all_requests (cfg : admin_config)
    (today : date) (strptime_date : string -> option date)
    (actions : list action) (session : session_t) (st : site) :
  site_ok st ->
  site_ok (serve_all cfg today strptime_date actions session st).2 /\
  filter (fun e => Event.type e = "match")
         (events (serve_all cfg today strptime_date actions session st).2)
  = events (serve_all cfg today strptime_date actions session st).2.
Proof.
  intros Hok.
  assert (Hall : site_ok (serve_all cfg today strptime_date actions session st).2).
  { revert session st Hok.
    induction actions as [|a rest IH]; intros session st Hok; simpl; [done|].
    pose proof (serve_site_ok cfg today strptime_date a session st Hok) as H1.
    destruct (serve cfg today strptime_date a session st) as [[s1 st1] out].
    by apply IH. }
  split; [exact Hall|]. apply filter_all, Hall.
Qed.

Lemma login_accepts_matching_submission_only_witness :
  logged_in (login demo_admin_config POST
               (<["username" := "coach"]> (<["password" := "secret"]> ∅))
               anonymous).1 = true.
Proof.
  destruct (login_accepts_matching_submission_only demo_admin_config POST
              (<["username" := "coach"]> (<["password" := "secret"]> ∅))
              anonymous) as (_ & H & _).
  apply (H "coach" "secret"); [reflexivity|reflexivity|].
  right. by split_and!.
Defined.


Lemma requests_without_admin_keep_roster_and_schedule_witness :
  logged_in (serve_all demo_admin_config (2026, 1, 1) demo_strptime
                       visitor_actions anonymous demo_site).1 = false /\
  kept_without_admin demo_site
    (serve_all demo_admin_config (2026, 1, 1) demo_strptime
               visitor_actions anonymous demo_site).2.
Proof.
  apply (requests_without_admin_keep_roster_and_schedule demo_admin_config
           (2026, 1, 1) demo_strptime visitor_actions anonymous demo_site).
  - reflexivity.
  - unfold visitor_actions.
    repeat (constructor; [intros (form & [= <-] & Hu & Hp); try discriminate|]);
      try constructor.
    all: try (intros (form & [=] & _)).
Defined.

Lemma site_constraints_survive_all_requests_witness :
  site_ok (serve_all demo_admin_config (2026, 1, 1) demo_strptime
                     visitor_actions anonymous demo_site).2.
Proof.
  apply (site_constraints_survive_all_requests demo_admin_config (2026, 1, 1)
           demo_strptime visitor_actions anonymous demo_site).
  split_and!.
  - decide_consistent.
  - unfold consistent_events. apply (bool_decide_unpack _). vm_compute. exact I.
  - repeat constructor.
Defined.

(** ** Stat reconciler: the season rows *)

Lemma with_season_stat_nil (db : DB) :
  with_season_stat (season_stat db ++ []) db = db.
Proof. rewrite app_nil_r. by destruct db. Qed.

Lemma season_new_pair (r : SeasonStat.t) (year : Z) :
  r = SeasonStat.new (SeasonStat.id r) (SeasonStat.player_id r) year ->
  SeasonStat.pair r = (SeasonStat.player_id r, year).
Proof. intros ->. reflexivity. Qed.

(** A second run finds every listed player served and creates nothing. *)
Lemma ensure_season_again (players : list PlayerInfo.t) (year : Z) (db : DB) :
  consistent db -> (forall p, p ∈ players -> p ∈ player_info db) ->
  (forall p, p ∈ players ->
     exists row, row ∈ season_stat db /\
                 SeasonStat.pair row = (PlayerInfo.id p, year)) ->
  exists m, _ensure_season_stat_rows players year db = Some (db, m, false).
Proof.
  intros Hdb Hsub Hserved.
  destruct (ensure_season_spec players year db Hdb Hsub)
    as (db' & m & new_rows & Hrun & -> & Hc & Hnew & _).
  destruct new_rows as [|r2 rest].
  { exists m. by rewrite Hrun, with_season_stat_nil. }
  exfalso. apply Forall_cons in Hnew as [[Hr2 Hpid] _].
  apply list_elem_of_fmap in Hpid as (p & Hp & Hin).
  destruct (Hserved p Hin) as (row & Hrow & Hpair).
  pose proof (uq_player_season _ Hc) as Hnd. simpl in Hnd.
  rewrite fmap_app in Hnd. apply NoDup_app in Hnd as (_ & Hdisj & _).
  apply (Hdisj (SeasonStat.pair row)).
  - by apply list_elem_of_fmap_2.
  - rewrite Hpair, <- Hp, <- (season_new_pair r2 year Hr2). simpl. left.
Qed.



(** ** Viewing the statistics twice *)

Lemma with_player_stat_nil (db : DB) :
  with_player_stat (player_stat db ++ []) db = db.
Proof. rewrite app_nil_r. by destruct db. Qed.

Lemma ensure_player_again (players : list PlayerInfo.t) (db : DB) :
  consistent db -> NoDup (PlayerInfo.name <$> players) ->
  (forall nm, nm ∈ (PlayerInfo.name <$> players) ->
              nm ∈ (PlayerStat.player <$> player_stat db)) ->
  exists m, _ensure_player_stat_rows players db = Some (db, m, false).
Proof.
  intros Hdb Hnd Hserved.
  destruct (ensure_player_spec players db Hdb Hnd)
    as (db' & m & new_rows & Hrun & -> & Hnames & _).
  rewrite filter_none in Hrun, Hnames by (intros nm Hnm Hnot; auto).
  apply fmap_nil_inv in Hnames as ->.
  exists m. by rewrite Hrun, with_player_stat_nil.
Qed.

Lemma season_pair_of_keys (t : list SeasonStat.t) :
  SeasonStat.pair <$> t = (fun k => (k.1.2, k.2)) <$> (season_keys <$> t).
Proof. rewrite <- list_fmap_compose. by apply list_fmap_ext. Qed.

Lemma backfill_season_keys (m : list (string * Z)) (refs : list Z)
    (db db' : DB) :
  backfill m refs db = Some db' ->
  season_keys <$> season_stat db' = season_keys <$> season_stat db.
Proof.
  revert db. induction refs as [|k rest IH]; intros db; simpl.
  - by intros [= <-].
  - destruct (lookup_id SeasonStat.id k (season_stat db)) as [stat|];
      [simpl|done].
    destruct (season_player (player_info db) stat) as [player|]; [simpl|done].
    destruct (Dict.get _ m) as [b|]; [|apply IH].
    destruct (lookup_id PlayerStat.id b (player_stat db)) as [base|];
      [simpl|done].
    intros ->%IH. simpl. apply update_id_fmap. intros r.
    apply copy_counters_keys.
Qed.

(** The reconciliation at the top of the statistics view serves every
    player, and running it again changes nothing. *)
Lemma stats_setup_again (db : DB) :
  consistent db ->
  exists db' m_agg m_season changed,
    stats_setup db = Some (db', players_by_name db, m_agg, m_season, changed) /\
    consistent db' /\
    exists m_agg' m_season',
      stats_setup db'
      = Some (db', players_by_name db, m_agg', m_season', false).
Proof.
  intros Hdb.
  destruct (stats_setup_ok db Hdb)
    as (db' & m_agg & m_season & changed & Hrun & Hc' & Hpi' & _).
  exists db', m_agg, m_season, changed. split_and!; try done.
  assert (Hplayers : players_by_name db' = players_by_name db).
  { unfold players_by_name. by rewrite Hpi'. }
  assert (Hnames : NoDup (PlayerInfo.name <$> players_by_name db)).
  { rewrite players_by_name_perm. apply Hdb. }
  (* what the first run leaves behind *)
  assert (Hserved :
    (forall nm, nm ∈ (PlayerInfo.name <$> players_by_name db) ->
                nm ∈ (PlayerStat.player <$> player_stat db')) /\
    (forall p, p ∈ players_by_name db ->
               (PlayerInfo.id p, 2026) ∈ (SeasonStat.pair <$> season_stat db'))).
  { revert Hrun. unfold stats_setup. cbv zeta.
    destruct (ensure_player_spec (players_by_name db) db Hdb Hnames)
      as (db1 & m1 & new1 & Hrun1 & Hdb1 & Hnew1 & _ & Hcons1 & _ & _).
    rewrite Hrun1. simpl.
    assert (Hpi1 : player_info db1 = player_info db) by (by subst db1).
    destruct (ensure_season_spec (players_by_name db) 2026 db1 Hcons1)
      as (db2 & m2 & new2 & Hrun2 & Hdb2 & Hcons2 & _ & Hvalid2 & Hcov2).
    { intros p Hp. rewrite Hpi1. by apply players_by_name_elem. }
    rewrite Hrun2. simpl.
    assert (Hagg2 : forall nm, nm ∈ (PlayerInfo.name <$> players_by_name db) ->
                      nm ∈ (PlayerStat.player <$> player_stat db2)).
    { intros nm Hnm. subst db2 db1. simpl. rewrite fmap_app, Hnew1.
      apply elem_of_app.
      destruct (decide (nm ∈ PlayerStat.player <$> player_stat db)); [by left|].
      right. by apply list_elem_of_filter. }
    assert (Hseason2 : forall p, p ∈ players_by_name db ->
              (PlayerInfo.id p, 2026) ∈ (SeasonStat.pair <$> season_stat db2)).
    { intros p Hp. destruct (Hcov2 p Hp) as [k Hk].
      rewrite Forall_forall in Hvalid2.
      destruct (Hvalid2 _ (dict_get_elem _ _ _ Hk)) as (row & Hrow & Hpid & Hy).
      apply lookup_id_Some in Hrow as [Hin _]. simpl in *.
      apply list_elem_of_fmap. exists row. split; [|done].
      unfold SeasonStat.pair. by rewrite Hpid, Hy. }
    destruct (negb (bool_decide (new2 = []))).
    - destruct (backfill m1 (Dict.values m2) db2) as [db3|] eqn:Hrun3;
        [simpl|done].
      intros [= <- _ _ _].
      pose proof (backfill_season_keys _ _ _ _ Hrun3) as Hkeys3.
      apply backfill_frame in Hrun3 as [_ Hps3]. split.
      + intros nm Hnm. rewrite Hps3. by apply Hagg2.
      + intros p Hp. rewrite season_pair_of_keys, Hkeys3, <- season_pair_of_keys.
        by apply Hseason2.
    - intros [= <- _ _ _]. by split. }
  destruct Hserved as [Hagg Hseason].
  unfold stats_setup. cbv zeta. rewrite Hplayers.
  destruct (ensure_player_again (players_by_name db) db' Hc' Hnames Hagg)
    as [m_agg' Hrun1].
  rewrite Hrun1. simpl.
  destruct (ensure_season_again (players_by_name db) 2026 db' Hc')
    as [m_season' Hrun2].
  { intros p Hp. rewrite Hpi'. by apply players_by_name_elem. }
  { intros p Hp.
    destruct (proj1 (list_elem_of_fmap _ _ _) (Hseason p Hp))
      as (row & Hpair & Hin).
    by exists row. }
  rewrite Hrun2. simpl. by exists m_agg', m_season'.
Qed.

(** X27: viewing the statistics is idempotent.  On a database that
    satisfies its constraints the view never fails; the first view creates
    the missing rows, and a second view, by any signed-in session and with
    any sort parameters, finds nothing to create and leaves the database
    exactly as the first one left it. *)
Theorem stats_view_twice_writes_nothing (session1 session2 : session_t)
    (args1 form1 args2 form2 : params) (db : DB) :
  signed_in session1 = true -> signed_in session2 = true -> consistent db ->
  exists db1 page1 page2,
    stats session1 GET args1 form1 db = Some (db1, page1) /\
    stats session2 GET args2 form2 db1 = Some (db1, page2).
Proof.
  intros Hs1 Hs2 Hdb.
  destruct (stats_setup_again db Hdb)
    as (db1 & m1 & m2 & ch & Hsetup & Hc1 & m1' & m2' & Hsetup').
  destruct (stats_view_total session1 GET args1 form1 db Hdb)
    as (d & page1 & Hrun1 & _); [discriminate|].
  destruct (stats_view_total session2 GET args2 form2 db1 Hc1)
    as (d' & page2 & Hrun2 & _); [discriminate|].
  exists db1, page1, page2.
  assert (d = db1) as ->.
  { revert Hrun1. unfold stats. unfold signed_in in Hs1. rewrite Hs1, Hsetup.
    simpl.
    destruct (deref PlayerStat.id _ _); [simpl|done].
    destruct (deref SeasonStat.id _ _); [simpl|done].
    destruct ch; simpl.
    - destruct (commit db1) as [dc|] eqn:Hc; [simpl|done].
      apply commit_Some in Hc as [-> _]. by intros [= <- _].
    - by intros [= <- _]. }
  assert (d' = db1) as ->.
  { revert Hrun2. unfold stats. unfold signed_in in Hs2. rewrite Hs2, Hsetup'.
    simpl.
    destruct (deref PlayerStat.id _ _); [simpl|done].
    destruct (deref SeasonStat.id _ _); [simpl|done].
    by intros [= <- _]. }
  by split.
Qed.

Lemma stats_view_twice_writes_nothing_witness :
  exists db1 page1 page2,
    stats visitor GET ∅ ∅ late_joiner_db = Some (db1, page1) /\
    stats admin GET (<["sort" := "goals"]> ∅) ∅ db1 = Some (db1, page2).
Proof.
  apply (stats_view_twice_writes_nothing visitor admin ∅ ∅
           (<["sort" := "goals"]> ∅) ∅ late_joiner_db).
  - reflexivity.
  - reflexivity.
  - decide_consistent.
Defined.

(** ** Roster views *)

Lemma update_id_absent {A : Type} (key : A -> Z) (k : Z) (f : A -> A)
    (l : list A) :
  k ∉ (key <$> l) -> update_id key k f l = l.
Proof.
  intros Hk. unfold update_id. induction l as [|x l IH]; [done|].
  simpl in *. apply not_elem_of_cons in Hk as [Hx Hk].
  rewrite decide_False by congruence. f_equal. by apply IH.
Qed.

Lemma update_id_middle {A : Type} (key : A -> Z) (f : A -> A)
    (pre post : list A) (x : A) :
  NoDup (key <$> (pre ++ x :: post)) ->
  update_id key (key x) f (pre ++ x :: post) = pre ++ f x :: post.
Proof.
  rewrite fmap_app, fmap_cons. intros (Hpre & Hdisj & Hpost)%NoDup_app.
  apply NoDup_cons in Hpost as [Hx Hpost].
  unfold update_id at 1. rewrite fmap_app, fmap_cons.
  rewrite decide_True by done.
  fold (update_id key (key x) f pre). fold (update_id key (key x) f post).
  rewrite !update_id_absent; [done|done|].
  intros Hin. apply (Hdisj _ Hin). left.
Qed.

Section RosterForm.
Variable strptime_date : string -> option date.
Variable form : params.

Lemma players_step_info (q : PlayerInfo.t) (db db1 : DB) :
  players_step strptime_date form q db = Some db1 ->
  let suffix := pretty (PlayerInfo.id q) in
  let date_str := get_str form ("beer_duty_date_" +:+ suffix) "" in
  player_info db1
  = update_id PlayerInfo.id (PlayerInfo.id q)
      (fun p =>
         PlayerInfo.set_details
           (get_str form ("preferred_position_" +:+ suffix) "")
           (get_str form ("shirt_" +:+ suffix) "")
           (if String.eqb date_str "" then None else strptime_date date_str)
           (get_str form ("support_offered_" +:+ suffix) "")
           (PlayerInfo.set_name
              (get_str form ("name_" +:+ suffix) (PlayerInfo.name q)) p))
      (player_info db).
Proof.
  unfold players_step. cbv zeta.
  destruct (decide _) as [Hsame|Hnew]; simpl.
  - by intros [= <-].
  - destruct (flush db) as [d|] eqn:Hf; [simpl|done].
    apply flush_Some in Hf as [-> _].
    destruct (List.find _ _); simpl; by intros [= <-].
Qed.

Lemma players_loop_info (objs pre : list PlayerInfo.t) (db db' : DB) :
  player_info db = pre ++ objs ->
  NoDup (PlayerInfo.id <$> (pre ++ objs)) ->
  players_loop strptime_date form objs db = Some db' ->
  player_info db' = pre ++ (submitted_player strptime_date form <$> objs).
Proof.
  revert pre db. induction objs as [|q rest IH]; intros pre db Hinfo Hnd; simpl.
  - intros [= <-]. done.
  - destruct (players_step strptime_date form q db) as [db1|] eqn:Hstep;
      [simpl|done].
    apply players_step_info in Hstep. cbv zeta in Hstep.
    rewrite Hinfo, (update_id_middle PlayerInfo.id) in Hstep by done.
    intros Hloop.
    assert (H1 : player_info db1
                 = (pre ++ [submitted_player strptime_date form q]) ++ rest).
    { rewrite Hstep, <- app_assoc. by destruct q. }
    assert (H2 : NoDup (PlayerInfo.id <$>
                          (pre ++ [submitted_player strptime_date form q])
                          ++ rest)).
    { rewrite <- app_assoc. simpl.
      rewrite !fmap_app, !fmap_cons in *. exact Hnd. }
    rewrite (IH _ _ H1 H2 Hloop). by rewrite <- app_assoc.
Qed.
End RosterForm.

(** X28: an admin's submission of the roster form that goes through
    rewrites every player of the roster from the form, not only the
    submitted ones: a player keeps its key, takes the submitted name if
    there is one, and its position, shirt number and notes become what the
    form holds for them, an absent field reading as empty text, while its
    beer-duty date is cleared unless a date is submitted and parses.  The
    season rows are untouched, and in the aggregate rows nothing but
    player names changes. *)
Theorem roster_submission_rewrites_every_player
    (strptime_date : string -> option date) (session : session_t)
    (form : params) (db db' : DB) (resp : response) :
  logged_in session = true -> consistent db ->
  players strptime_date session POST form db = Some (db', resp) ->
  player_info db' = submitted_player strptime_date form <$> player_info db /\
  season_stat db' = season_stat db /\
  PlayerStat.set_player "" <$> player_stat db'
  = PlayerStat.set_player "" <$> player_stat db.
Proof.
  intros Hadmin Hdb. unfold players. rewrite Hadmin. simpl.
  destruct (players_loop _ _ _ _) as [db1|] eqn:Hloop; [simpl|done].
  destruct (commit db1) as [db2|] eqn:Hc; [simpl|done].
  apply commit_Some in Hc as [-> _]. intros [= <- _].
  split.
  - apply (players_loop_info strptime_date form (player_info db) [] db db1);
      [done|apply Hdb|done].
  - by apply (players_loop_frame strptime_date form (player_info db)).
Qed.

Lemma roster_submission_rewrites_every_player_witness :
  exists db',
    players (fun _ => None) admin POST (<["shirt_1" := "7"]> ∅) one_player_db
    = Some (db', RedirectPlayers) /\
    player_info db'
    = [PlayerInfo.mk 1 "Ann" (Some "") (Some "7") None (Some "")].
Proof.
  edestruct (roster_submission_rewrites_every_player (fun _ => None) admin
               (<["shirt_1" := "7"]> ∅) one_player_db) as (H & _).
  - reflexivity.
  - decide_consistent.
  - reflexivity.
  - eexists. split; [reflexivity|]. exact H.
Defined.





(** ** Game day *)

(** X30: for a signed-in session the game-day page shows the next match,
    that is the earliest match not before today, together with a player of
    the roster whose beer-duty date is the date of that match; it shows no
    such player exactly when no player has that duty date, and it shows
    the notice that no game is coming up exactly when there is no next
    match. *)
Theorem game_day_shows_next_match_and_its_beer_duty (today : date)
    (session : session_t) (db : DB) (events : list Event.t) :
  signed_in session = true ->
  match get_next_match_event today events with
  | None =>
      game_day today session db events
      = Render (game_day_html None None)
               (Some "No upcoming game found in the schedule.")
  | Some event =>
      exists beer_duty_player,
        game_day today session db events
        = Render (game_day_html (Some event) beer_duty_player) None /\
        match beer_duty_player with
        | Some player =>
            player ∈ player_info db /\
            PlayerInfo.beer_duty_date player = Some (Event.date event)
        | None =>
            forall q, q ∈ player_info db ->
                      PlayerInfo.beer_duty_date q <> Some (Event.date event)
        end
  end.
Proof.
  intros Hs. unfold game_day. rewrite Hs. simpl.
  destruct (get_next_match_event today events) as [event|]; [|reflexivity].
  eexists. split; [reflexivity|].
  destruct (List.find _ (player_info db)) as [player|] eqn:Hf.
  - apply find_some in Hf as [Hin Hd%bool_decide_eq_true].
    split; [by apply list_elem_of_In|exact Hd].
  - intros q Hq%list_elem_of_In.
    pose proof (find_none _ _ Hf q Hq) as Hd. simpl in Hd.
    by apply bool_decide_eq_false in Hd.
Qed.

Lemma game_day_shows_next_match_and_its_beer_duty_witness :
  match get_next_match_event (2026, 1, 1) demo_events with
  | None =>
      game_day (2026, 1, 1) visitor late_joiner_db demo_events
      = Render (game_day_html None None)
               (Some "No upcoming game found in the schedule.")
  | Some event =>
      exists beer_duty_player,
        game_day (2026, 1, 1) visitor late_joiner_db demo_events
        = Render (game_day_html (Some event) beer_duty_player) None /\
        match beer_duty_player with
        | Some player =>
            player ∈ player_info late_joiner_db /\
            PlayerInfo.beer_duty_date player = Some (Event.date event)
        | None =>
            forall q, q ∈ player_info late_joiner_db ->
                      PlayerInfo.beer_duty_date q <> Some (Event.date event)
        end
  end.
Proof.
  apply (game_day_shows_next_match_and_its_beer_duty (2026, 1, 1) visitor
           late_joiner_db demo_events).
  reflexivity.
Defined.
